(** * GLTF 2.0 / GLB codec of trimesh ([trimesh/exchange/gltf.py])

    A shallow embedding of the exporter ([export_gltf], [export_glb],
    [_create_gltf_structure], [_append_mesh], [_append_path], [_byte_pad])
    and of the importer ([load_glb], [_read_buffers], [_parse_materials]),
    followed by the properties of the codec stated in the design document.

    Conventions of the embedding
    - Python integers are [Z]; [len] of a list is [Z.of_nat (length _)].
    - [bytes] is [list byte]; numpy little-endian integers are written out
      with their wrap-around ([le_bytes], [le_value]).
    - A raised exception is a value of [exn]; functions that may raise
      return [result].  Loops that Python runs without a bound take a fuel
      argument and return [OutOfFuel] when it is exhausted.
    - A [dict] whose order matters is an association list updated through
      [dict_set]; JSON objects with a fixed set of keys are records whose
      optional keys are [option] fields.
    - A float64 is its IEEE-754 bit pattern and a float32 its four encoded
      bytes; arithmetic on them belongs to numpy and is a class method.
    - A numpy integer has 64 bits and wraps around; its arithmetic with a
      Python int follows the conversions of numpy ([int_with_int64]). *)

From Stdlib Require Import ZArith List String Ascii Bool Lia.
From Stdlib Require Import Strings.Byte.
From Stdlib Require Import DecimalString Decimal DecimalPos DecimalZ.
Import ListNotations.

Open Scope Z_scope.

(* ================================================================== *)
(** * Exceptions and the error monad *)

Inductive exn : Type :=
| ValueError (msg : string)
| AssertionError
| IndexError
| KeyError (key : string)
| ZeroDivisionError
| TypeError
| AttributeError
| OverflowError.

Inductive result (A : Type) : Type :=
| Ok (a : A)
| Raise (e : exn)
| OutOfFuel.

Arguments Ok {A} a.
Arguments Raise {A} e.
Arguments OutOfFuel {A}.

Definition bind {A B : Type} (m : result A) (k : A -> result B) : result B :=
  match m with
  | Ok a => k a
  | Raise e => Raise e
  | OutOfFuel => OutOfFuel
  end.

Notation "x <- m ;; k" := (bind m (fun x => k))
  (at level 61, m at next level, right associativity).
Notation "' p <- m ;; k" := (bind m (fun x => let p := x in k))
  (at level 61, p pattern, m at next level, right associativity).

(** [assert c] of Python. *)
Definition assert (c : bool) : result unit :=
  if c then Ok tt else Raise AssertionError.

(** The design document groups the fatal errors surfaced to the caller
    under the name FormatError: in the code these are the [ValueError]s
    raised explicitly or by numpy, and the failed [assert]s. *)
Definition FormatError (e : exn) : Prop :=
  match e with
  | ValueError _ | AssertionError => True
  | _ => False
  end.

Definition raises {A : Type} (m : result A) (P : exn -> Prop) : Prop :=
  match m with
  | Raise e => P e
  | _ => False
  end.

(** A loop of the monad: [mapM f l] runs [f] on each element in order. *)
Fixpoint mapM {A B : Type} (f : A -> result B) (l : list A) : result (list B) :=
  match l with
  | [] => Ok []
  | a :: l' => b <- f a ;; bs <- mapM f l' ;; Ok (b :: bs)
  end.

(* ================================================================== *)
(** * Python sequences *)

Definition len {A : Type} (l : list A) : Z := Z.of_nat (List.length l).

(** [l[i]]: negative indices count from the end, out of range raises. *)
Definition getitem {A : Type} (l : list A) (i : Z) : result A :=
  let j := if i <? 0 then i + len l else i in
  if (j <? 0) || (len l <=? j) then Raise IndexError
  else match nth_error l (Z.to_nat j) with
       | Some a => Ok a
       | None => Raise IndexError
       end.

(** Clipping of one bound of a slice. *)
Definition slice_bound (n i : Z) : Z :=
  if i <? 0 then Z.max 0 (i + n) else Z.min i n.

(** [l[start:stop]]. *)
Definition slice {A : Type} (l : list A) (start stop : Z) : list A :=
  let s := slice_bound (len l) start in
  let e := slice_bound (len l) stop in
  firstn (Z.to_nat (e - s)) (skipn (Z.to_nat s) l).

(** [enumerate(l)], counting from [i]. *)
Fixpoint enumerate_from {A : Type} (i : Z) (l : list A) : list (Z * A) :=
  match l with
  | [] => []
  | a :: l' => (i, a) :: enumerate_from (i + 1) l'
  end.

Definition enumerate {A : Type} (l : list A) : list (Z * A) := enumerate_from 0 l.

(** [range(start, stop, step)] for a positive step. *)
Fixpoint range_fuel (fuel : nat) (start stop step : Z) : list Z :=
  match fuel with
  | O => []
  | S fuel' => if start <? stop
               then start :: range_fuel fuel' (start + step) stop step
               else []
  end.

Definition range (start stop step : Z) : list Z :=
  range_fuel (Z.to_nat (stop - start)) start stop step.

(** [zip(a, b)]: stops at the shorter one. *)
Fixpoint zip {A B : Type} (a : list A) (b : list B) : list (A * B) :=
  match a, b with
  | x :: a', y :: b' => (x, y) :: zip a' b'
  | _, _ => []
  end.

(** [str(i)] of an integer. *)
Definition str_of_int (i : Z) : string := NilZero.string_of_int (Z.to_int i).

(* ------------------------------------------------------------------ *)
(** ** Dictionaries that keep insertion order *)

Section Dict.
  Context {V : Type}.

Fixpoint dict_get (d : list (string * V)) (k : string) : option V :=
    match d with
    | [] => None
    | (k', v) :: d' => if String.eqb k' k then Some v else dict_get d' k
    end.

  (** [d[k] = v]: an existing key keeps its position. *)
Fixpoint dict_set (d : list (string * V)) (k : string) (v : V) : list (string * V) :=
    match d with
    | [] => [(k, v)]
    | (k', v') :: d' =>
        if String.eqb k' k then (k', v) :: d' else (k', v') :: dict_set d' k v
    end.

Definition dict_in (d : list (string * V)) (k : string) : bool :=
    match dict_get d k with Some _ => true | None => false end.

Fixpoint dict_del (d : list (string * V)) (k : string) : list (string * V) :=
    match d with
    | [] => []
    | (k', v') :: d' =>
        if String.eqb k' k then d' else (k', v') :: dict_del d' k
    end.

  (** [d.update(e)]. *)
Definition dict_update (d e : list (string * V)) : list (string * V) :=
    fold_left (fun acc kv => dict_set acc (fst kv) (snd kv)) e d.

Definition dict_keys (d : list (string * V)) : list string := map fst d.

  (** [d[k]], raising [KeyError]. *)
Definition dict_item (d : list (string * V)) (k : string) : result V :=
    match dict_get d k with
    | Some v => Ok v
    | None => Raise (KeyError k)
    end.
End Dict.

(** A key present in the JSON object, else [KeyError]. *)
Definition required {A : Type} (key : string) (o : option A) : result A :=
  match o with
  | Some a => Ok a
  | None => Raise (KeyError key)
  end.

(* ================================================================== *)
(** * Bytes and little-endian numbers *)

Definition bytes : Type := list byte.

Definition byte_of_Z (z : Z) : byte :=
  match Byte.of_N (Z.to_N (z mod 256)) with
  | Some b => b
  | None => x00
  end.

Definition Z_of_byte (b : byte) : Z := Z.of_N (Byte.to_N b).

(** The [n] low bytes of [v], least significant first: what
    [astype('<uN').tobytes()] writes for one element (the value wraps
    around modulo [256^n]). *)
Fixpoint le_bytes (n : nat) (v : Z) : bytes :=
  match n with
  | O => []
  | S n' => byte_of_Z v :: le_bytes n' (v / 256)
  end.

(** The unsigned number a little-endian byte string denotes. *)
Fixpoint le_value (bs : bytes) : Z :=
  match bs with
  | [] => 0
  | b :: bs' => Z_of_byte b + 256 * le_value bs'
  end.

(** [bytes(n)]: [n] zero bytes, [ValueError] for a negative count. *)
Definition zero_bytes (n : Z) : result bytes :=
  if n <? 0 then Raise (ValueError "negative count")
  else Ok (repeat x00 (Z.to_nat n)).

(** Python's [a % b] on integers ([Z.modulo] has the sign of the divisor,
    as Python has). *)
Definition py_mod (a b : Z) : result Z :=
  if b =? 0 then Raise ZeroDivisionError else Ok (a mod b).

(* ================================================================== *)
(** * [_byte_pad] *)

(** [_byte_pad(data, bound=4)]. *)
Definition _byte_pad_bound (data : bytes) (bound : Z) : result bytes :=
  r <- py_mod (len data) bound ;;
  if negb (r =? 0) then
    pad <- zero_bytes (bound - r) ;;
    let result := data ++ pad in
    r' <- py_mod (len result) bound ;;
    _ <- assert (r' =? 0) ;;
    Ok result
  else Ok data.

Definition _byte_pad (data : bytes) : result bytes := _byte_pad_bound data 4.

(* ================================================================== *)
(** * numpy: element types, arrays, [frombuffer], [reshape] *)

(** A Python float (numpy float64), as its bit pattern. *)
Inductive float64 : Type := Float64 (bits : Z).

(** A numpy float32, as the four bytes [tobytes] writes for it. *)
Inductive float32 : Type := Float32 (b0 b1 b2 b3 : byte).

Definition float32_tobytes (f : float32) : bytes :=
  match f with Float32 b0 b1 b2 b3 => [b0; b1; b2; b3] end.

Definition f64_zero : float64 := Float64 0.
Definition f64_one : float64 := Float64 4607182418800017408.

(** The element types of [_types]. *)
Inductive dtype : Type := i1 | u1 | i2 | u2 | u4 | f4.

Definition itemsize (d : dtype) : Z :=
  match d with
  | i1 | u1 => 1
  | i2 | u2 => 2
  | u4 | f4 => 4
  end.

(** An array element. *)
Inductive scalar : Type :=
| Int (z : Z)
| Flt (f : float32).

(** Floating-point arithmetic is numpy's own. *)
Class NumpyFloat : Type := {
  (** [x.astype(float32)] on one element *)
  astype_float32 : float64 -> float32;
  (** the reductions [max] and [min] on two elements *)
  maximum : float64 -> float64 -> float64;
  minimum : float64 -> float64 -> float64;
  (** [(c.astype(float32) / d).tolist()] on one element *)
  float32_divide : Z -> Z -> float64;
  (** [1.0 - v] on one element, stored back into an array of that
      element type *)
  one_minus : dtype -> scalar -> scalar
}.

(** An array: element type, dimensions, elements in row-major order. *)
Record ndarray : Type := {
  arr_dtype : dtype;
  arr_shape : list Z;
  arr_data : list scalar
}.

(** [len(array)]: the first dimension. *)
Definition array_len (a : ndarray) : result Z :=
  match arr_shape a with
  | n :: _ => Ok n
  | [] => Raise TypeError
  end.

(** Two's complement reading of an [n]-byte unsigned value. *)
Definition signed (n : Z) (v : Z) : Z :=
  if v <? 2 ^ (8 * n - 1) then v else v - 2 ^ (8 * n).

Definition decode_item (d : dtype) (bs : bytes) : scalar :=
  match d with
  | u1 | u2 | u4 => Int (le_value bs)
  | i1 => Int (signed 1 (le_value bs))
  | i2 => Int (signed 2 (le_value bs))
  | f4 => match bs with
          | [b0; b1; b2; b3] => Flt (Float32 b0 b1 b2 b3)
          | _ => Int 0
          end
  end.

(** Cut a byte string into items of [n] bytes ([n] positive, length a
    multiple of [n]). *)
Fixpoint chunks (fuel : nat) (n : nat) (bs : bytes) : list bytes :=
  match fuel with
  | O => []
  | S fuel' =>
      match bs with
      | [] => []
      | _ => firstn n bs :: chunks fuel' n (skipn n bs)
      end
  end.

(** [np.frombuffer(data, dtype=d)]. *)
Definition frombuffer (data : bytes) (d : dtype) : result ndarray :=
  if negb (len data mod itemsize d =? 0)
  then Raise (ValueError "buffer size must be a multiple of element size")
  else
    let items := chunks (List.length data) (Z.to_nat (itemsize d)) data in
    Ok {| arr_dtype := d;
          arr_shape := [len items];
          arr_data := map (decode_item d) items |}.

(** A shape as [_shapes] and [reshape] take it: an integer or a pair. *)
Inductive shape : Type :=
| Shape1 (n : Z)
| Shape2 (r c : Z).

(** [np.product(shape)]. *)
Definition np_product (s : shape) : Z :=
  match s with
  | Shape1 n => n
  | Shape2 r c => r * c
  end.

(** Integers of numpy.  [np.product(shape)] and its absolute value are
    numpy integers of 64 bits (the default integer of numpy on a 64-bit
    platform other than Windows).  In [x * y] and [x + y] with a Python
    int [x] and such a [y], numpy takes [x] for an int64 when it fits,
    and the result is an int64 that wraps around; a larger [x] below
    [2^64] is taken for a uint64, and the result is a float64; any
    other [x] is kept as a Python object, and the result is the Python
    int.  The value of a float64 plays no part here. *)
Inductive np_number : Type :=
| NpInt64 (z : Z)
| NpFloat64
| NpObject (z : Z).

Definition fits_int64 (z : Z) : bool := (- 2 ^ 63 <=? z) && (z <? 2 ^ 63).

Definition wrap_int64 (z : Z) : Z := (z + 2 ^ 63) mod 2 ^ 64 - 2 ^ 63.

Definition int_with_int64 (op : Z -> Z -> Z) (x y : Z) : np_number :=
  if fits_int64 x then NpInt64 (wrap_int64 (op x y))
  else if (0 <? x) && (x <? 2 ^ 64) then NpFloat64
  else NpObject (op x y).

(** [x + y] with a Python int [x] and a float64 [y]: a float64, unless
    [x] is too large to be converted to one. *)
Definition int_plus_float64 (x : Z) : result np_number :=
  if Z.abs x <? 2 ^ 1024 - 2 ^ 970 then Ok NpFloat64 else Raise OverflowError.

(** [array.reshape(shape)]: one dimension may be [-1] and is inferred. *)
Definition reshape (a : ndarray) (s : shape) : result ndarray :=
  let size := len (arr_data a) in
  let bad := Raise (ValueError "cannot reshape array") in
  let mk dims := Ok {| arr_dtype := arr_dtype a;
                       arr_shape := dims;
                       arr_data := arr_data a |} in
  match s with
  | Shape1 n =>
      if n =? -1 then mk [size]
      else if (0 <=? n) && (n =? size) then mk [n] else bad
  | Shape2 r c =>
      if (r =? -1) && (c =? -1) then bad
      else if r =? -1 then
        if (0 <? c) && (size mod c =? 0) then mk [size / c; c] else bad
      else if c =? -1 then
        if (0 <? r) && (size mod r =? 0) then mk [r; size / r] else bad
      else if (0 <=? r) && (0 <=? c) && (r * c =? size) then mk [r; c] else bad
  end.

(** The table [_types]. *)
Definition _types (componentType : Z) : result dtype :=
  if componentType =? 5120 then Ok i1
  else if componentType =? 5121 then Ok u1
  else if componentType =? 5122 then Ok i2
  else if componentType =? 5123 then Ok u2
  else if componentType =? 5125 then Ok u4
  else if componentType =? 5126 then Ok f4
  else Raise (KeyError (str_of_int componentType)).

(** The table [_shapes]. *)
Definition _shapes (type : string) : result shape :=
  if String.eqb type "SCALAR" then Ok (Shape1 (-1))
  else if String.eqb type "VEC2" then Ok (Shape2 (-1) 2)
  else if String.eqb type "VEC3" then Ok (Shape2 (-1) 3)
  else if String.eqb type "VEC4" then Ok (Shape2 (-1) 4)
  else if String.eqb type "MAT2" then Ok (Shape2 2 2)
  else if String.eqb type "MAT3" then Ok (Shape2 3 3)
  else if String.eqb type "MAT4" then Ok (Shape2 4 4)
  else Raise (KeyError type).

(** The table [_magic]. *)
Definition _magic_gltf : Z := 1179937895.
Definition _magic_json : Z := 1313821514.
Definition _magic_bin : Z := 5130562.

(** [np.array(values, dtype='<u4').tobytes()] *)
Definition u4_tobytes (values : list Z) : bytes :=
  List.concat (map (le_bytes 4) values).

(** [s.encode('utf-8')] for a string of code points below 256. *)
Definition encode_char (c : ascii) : bytes :=
  let n := Z.of_N (N_of_ascii c) in
  if n <? 128 then [byte_of_Z n]
  else [byte_of_Z (192 + n / 64); byte_of_Z (128 + n mod 64)].

Fixpoint encode_utf8 (s : string) : bytes :=
  match s with
  | EmptyString => []
  | String c s' => encode_char c ++ encode_utf8 s'
  end.

(** [n * ' '] *)
Fixpoint spaces (n : nat) : string :=
  match n with
  | O => EmptyString
  | S n' => String " " (spaces n')
  end.

(* ================================================================== *)
(** * The document tree *)

(** A JSON number. *)
Inductive number : Type :=
| NInt (z : Z)
| NFloat (f : float64).

(** Free-form JSON, used where the code walks a dict generically
    (material entries). *)
#[warnings="-register-all"]
Inductive json : Type :=
| JNull
| JBool (b : bool)
| JNumber (n : number)
| JString (s : string)
| JList (l : list json)
| JDict (d : list (string * json)).

Record Accessor : Type := {
  acc_bufferView : Z;
  acc_componentType : Z;
  acc_count : Z;
  acc_type : string;
  acc_byteOffset : option Z;
  acc_max : option (list number);
  acc_min : option (list number);
  acc_normalized : option bool
}.

Record BufferView : Type := {
  view_buffer : Z;
  view_byteOffset : Z;
  view_byteLength : Z
}.

Record Buffer : Type := {
  buf_uri : option string;
  buf_byteLength : Z
}.

Record Primitive : Type := {
  prim_attributes : list (string * Z);
  prim_indices : option Z;
  prim_mode : option Z;
  prim_material : option Z
}.

Record Extras : Type := { extras_units : option string }.

Record Mesh : Type := {
  mesh_name : option string;
  mesh_primitives : list Primitive;
  mesh_extras : option Extras
}.

Record Node : Type := {
  node_name : option string;
  node_children : option (list Z);
  node_matrix : option (list float64);
  node_mesh : option Z
}.

Record SceneNodes : Type := { scene_nodes : list Z }.

Record Image : Type := { image_bufferView : Z }.

Record Texture : Type := { texture_source : Z }.

Record Asset : Type := { asset_version : string; asset_generator : string }.

(** The document: keys that the exporter may leave out or that the
    importer tests with [in] are optional. *)
Record Document : Type := {
  doc_scene : Z;
  doc_scenes : list SceneNodes;
  doc_asset : option Asset;
  doc_accessors : list Accessor;
  doc_meshes : list Mesh;
  doc_materials : option (list json);
  doc_nodes : list Node;
  doc_buffers : option (list Buffer);
  doc_bufferViews : option (list BufferView);
  doc_images : option (list Image);
  doc_textures : option (list Texture)
}.

Definition set_accessors (t : Document) (v : list Accessor) : Document :=
  {| doc_scene := doc_scene t; doc_scenes := doc_scenes t;
     doc_asset := doc_asset t; doc_accessors := v;
     doc_meshes := doc_meshes t; doc_materials := doc_materials t;
     doc_nodes := doc_nodes t; doc_buffers := doc_buffers t;
     doc_bufferViews := doc_bufferViews t; doc_images := doc_images t;
     doc_textures := doc_textures t |}.

Definition set_meshes (t : Document) (v : list Mesh) : Document :=
  {| doc_scene := doc_scene t; doc_scenes := doc_scenes t;
     doc_asset := doc_asset t; doc_accessors := doc_accessors t;
     doc_meshes := v; doc_materials := doc_materials t;
     doc_nodes := doc_nodes t; doc_buffers := doc_buffers t;
     doc_bufferViews := doc_bufferViews t; doc_images := doc_images t;
     doc_textures := doc_textures t |}.

Definition set_materials (t : Document) (v : option (list json)) : Document :=
  {| doc_scene := doc_scene t; doc_scenes := doc_scenes t;
     doc_asset := doc_asset t; doc_accessors := doc_accessors t;
     doc_meshes := doc_meshes t; doc_materials := v;
     doc_nodes := doc_nodes t; doc_buffers := doc_buffers t;
     doc_bufferViews := doc_bufferViews t; doc_images := doc_images t;
     doc_textures := doc_textures t |}.

(** [tree['buffers'] = b; tree['bufferViews'] = v] *)
Definition set_buffers (t : Document) (b : list Buffer) (v : list BufferView)
  : Document :=
  {| doc_scene := doc_scene t; doc_scenes := doc_scenes t;
     doc_asset := doc_asset t; doc_accessors := doc_accessors t;
     doc_meshes := doc_meshes t; doc_materials := doc_materials t;
     doc_nodes := doc_nodes t; doc_buffers := Some b;
     doc_bufferViews := Some v; doc_images := doc_images t;
     doc_textures := doc_textures t |}.

(** The [json] module: [json.dumps(tree)], and
    [json.loads(data.decode('utf-8'))] on the bytes of a chunk. *)
Class Json : Type := {
  json_dumps : Document -> string;
  json_loads : bytes -> result Document
}.

(* ================================================================== *)
(** * The scene handed to the exporter *)

(** [mesh.visual]: whether it has the attribute [uv], the color visual
    the exporter reads ([visual.to_color()] when it has, the visual
    itself otherwise), and [mesh.visual.main_color] (uint8 RGBA). *)
Record ColorVisuals : Type := {
  kind : option string;
  vertex_colors : list (Z * Z * Z * Z)
}.

Record Visuals : Type := {
  has_uv : bool;
  color_visual : ColorVisuals;
  main_color : list Z
}.

Definition vec3 : Type := (float64 * float64 * float64)%type.

Record Trimesh : Type := {
  vertices : list vec3;
  faces : list (Z * Z * Z);
  units : option string;
  visual : Visuals;
  vertex_normals : list vec3
}.

(** A path, with what [rendering.path_to_vertexlist(path)] returns for
    it: the count [vxlist[0]] and the flat vertex data [vxlist[4][1]]. *)
Record Path : Type := {
  path_vertices : list (list float64);
  path_units : option string;
  vxlist_count : Z;
  vxlist_data : list float64
}.

Inductive Geometry : Type :=
| GTrimesh (mesh : Trimesh)
| GPath (path : Path)
| GOther.

(** [scene.graph.to_gltf(mesh_index)] is code of the graph component,
    outside this file: the scene carries it as a function from the mesh
    index to the flattened node list, and nothing is assumed about it. *)
Record Scene : Type := {
  geometry : list (string * Geometry);
  graph_to_gltf : list (string * Z) -> list Node
}.

(* ================================================================== *)
(** * Export *)

Section Exporter.
  Context `{NumpyFloat} `{Json}.

  (** [a.max()] / [a.min()] over a flat integer array. *)
Definition int_reduce (op : Z -> Z -> Z) (l : list Z) : result Z :=
    match l with
    | [] => Raise (ValueError "zero-size array to reduction operation")
    | x :: l' => Ok (fold_left op l' x)
    end.

  (** [a.max(axis=0)] / [a.min(axis=0)] over the rows of a float array. *)
Fixpoint zip_with (op : float64 -> float64 -> float64)
           (a b : list float64) : list float64 :=
    match a, b with
    | x :: a', y :: b' => op x y :: zip_with op a' b'
    | _, _ => []
    end.

Definition axis0_reduce (op : float64 -> float64 -> float64)
             (rows : list (list float64)) : result (list float64) :=
    match rows with
    | [] => Raise (ValueError "zero-size array to reduction operation")
    | r :: rows' => Ok (fold_left (zip_with op) rows' r)
    end.

Definition vec3_row (v : vec3) : list float64 :=
    match v with (x, y, z) => [x; y; z] end.

Definition face_row (f : Z * Z * Z) : list Z :=
    match f with (a, b, c) => [a; b; c] end.

Definition rgba_row (c : Z * Z * Z * Z) : list Z :=
    match c with (r, g, b, a) => [r; g; b; a] end.

  (** [faces.astype(uint32).tobytes()] *)
Definition faces_tobytes (fs : list (Z * Z * Z)) : bytes :=
    u4_tobytes (List.concat (map face_row fs)).

  (** [a.astype(float32).tobytes()] over a flat float array *)
Definition floats_tobytes (l : list float64) : bytes :=
    List.concat (map (fun x => float32_tobytes (astype_float32 x)) l).

  (** [vertices.astype(float32).tobytes()] *)
Definition vertices_tobytes (vs : list vec3) : bytes :=
    floats_tobytes (List.concat (map vec3_row vs)).

  (** [vertex_colors.astype(uint8).tobytes()] *)
Definition colors_tobytes (cs : list (Z * Z * Z * Z)) : bytes :=
    List.concat (map (le_bytes 1) (List.concat (map rgba_row cs))).

  (** [_default_material] *)
Definition _default_material : json :=
    JDict [("pbrMetallicRoughness"%string,
            JDict [("baseColorFactor"%string,
                    JList [JNumber (NInt 0); JNumber (NInt 0);
                           JNumber (NInt 0); JNumber (NInt 0)]);
                   ("metallicFactor"%string, JNumber (NInt 0));
                   ("roughnessFactor"%string, JNumber (NInt 0))])].

  (** [_mesh_to_material(mesh, metallic=0.0, rough=0.0)] *)
Definition _mesh_to_material (mesh : Trimesh) : json :=
    let color := main_color (visual mesh) in
    let color := map (fun c => float32_divide c (2 ^ (8 * 1) - 1)) color in
    JDict [("pbrMetallicRoughness"%string,
            JDict [("baseColorFactor"%string,
                    JList (map (fun c => JNumber (NFloat c)) color));
                   ("metallicFactor"%string, JNumber (NFloat f64_zero));
                   ("roughnessFactor"%string, JNumber (NFloat f64_zero))])].

  (** Apply [f] to the last element of a list: [l[-1] = f(l[-1])]. *)
Fixpoint update_last {A : Type} (f : A -> A) (l : list A) : list A :=
    match l with
    | [] => []
    | [x] => [f x]
    | x :: l' => x :: update_last f l'
    end.

Definition update_head {A : Type} (f : A -> A) (l : list A) : list A :=
    match l with
    | [] => []
    | x :: l' => f x :: l'
    end.

  (** [tree['meshes'][-1]['extras'] = {'units': u}] *)
Definition set_last_extras (t : Document) (u : string) : Document :=
    set_meshes t
      (update_last (fun m => {| mesh_name := mesh_name m;
                                mesh_primitives := mesh_primitives m;
                                mesh_extras := Some {| extras_units := Some u |} |})
                   (doc_meshes t)).

Definition on_last_primitive0 (t : Document) (f : Primitive -> Primitive)
    : Document :=
    set_meshes t
      (update_last (fun m => {| mesh_name := mesh_name m;
                                mesh_primitives := update_head f (mesh_primitives m);
                                mesh_extras := mesh_extras m |})
                   (doc_meshes t)).

  (** [tree['meshes'][-1]['primitives'][0]['attributes'][k] = v] *)
Definition set_last_attribute (t : Document) (k : string) (v : Z) : Document :=
    on_last_primitive0 t
      (fun p => {| prim_attributes := dict_set (prim_attributes p) k v;
                   prim_indices := prim_indices p;
                   prim_mode := prim_mode p;
                   prim_material := prim_material p |}).

  (** [tree['meshes'][-1]['primitives'][0]['material'] = v] *)
Definition set_last_material (t : Document) (v : Z) : Document :=
    on_last_primitive0 t
      (fun p => {| prim_attributes := prim_attributes p;
                   prim_indices := prim_indices p;
                   prim_mode := prim_mode p;
                   prim_material := Some v |}).

  (** [len(tree['materials'])], [tree['materials'].append(m)] *)
Definition materials_of (t : Document) : result (list json) :=
    required "materials" (doc_materials t).

  (** [_append_mesh(mesh, name, tree, buffer_items, include_normals)]:
      the tree and the buffer list are returned instead of mutated. *)
Definition _append_mesh (mesh : Trimesh) (name : string) (tree : Document)
             (buffer_items : list bytes) (include_normals : bool)
    : result (Document * list bytes) :=
    (* meshes reference accessor indexes *)
    let tree := set_meshes tree
      (doc_meshes tree ++
       [{| mesh_name := Some name;
           mesh_primitives :=
             [{| prim_attributes :=
                   [("POSITION"%string, len (doc_accessors tree) + 1)];
                 prim_indices := Some (len (doc_accessors tree));
                 prim_mode := Some 4;
                 prim_material := None |}];
           mesh_extras := None |}]) in
    let tree := match units mesh with
                | Some u => set_last_extras tree u
                | None => tree
                end in
    (* mesh faces are stored as flat list of integers *)
    fmax <- int_reduce Z.max (List.concat (map face_row (faces mesh))) ;;
    let tree := set_accessors tree
      (doc_accessors tree ++
       [{| acc_bufferView := len buffer_items;
           acc_componentType := 5125;
           acc_count := len (faces mesh) * 3;
           acc_type := "SCALAR";
           acc_byteOffset := None;
           acc_max := Some [NInt fmax];
           acc_min := Some [NInt 0];
           acc_normalized := None |}]) in
    item <- _byte_pad (faces_tobytes (faces mesh)) ;;
    let buffer_items := buffer_items ++ [item] in
    (* the vertex accessor *)
    vmax <- axis0_reduce maximum (map vec3_row (vertices mesh)) ;;
    vmin <- axis0_reduce minimum (map vec3_row (vertices mesh)) ;;
    let tree := set_accessors tree
      (doc_accessors tree ++
       [{| acc_bufferView := len buffer_items;
           acc_componentType := 5126;
           acc_count := len (vertices mesh);
           acc_type := "VEC3";
           acc_byteOffset := Some 0;
           acc_max := Some (map NFloat vmax);
           acc_min := Some (map NFloat vmin);
           acc_normalized := None |}]) in
    item <- _byte_pad (vertices_tobytes (vertices mesh)) ;;
    let buffer_items := buffer_items ++ [item] in
    (* [visual] is [mesh.visual.to_color()] or [mesh.visual] *)
    let visual := color_visual (visual mesh) in
    '(tree, buffer_items) <-
      match kind visual with
      | Some _ =>
          _ <- assert (len (vertex_colors visual) =? len (vertices mesh)) ;;
          let tree := set_last_attribute tree "COLOR_0"
                                         (len (doc_accessors tree)) in
          color_data <- _byte_pad (colors_tobytes (vertex_colors visual)) ;;
          let tree := set_accessors tree
            (doc_accessors tree ++
             [{| acc_bufferView := len buffer_items;
                 acc_componentType := 5121;
                 acc_count := len (vertices mesh);
                 acc_type := "VEC4";
                 acc_byteOffset := Some 0;
                 acc_max := None;
                 acc_min := None;
                 acc_normalized := Some true |}]) in
          Ok (tree, buffer_items ++ [color_data])
      | None =>
          materials <- materials_of tree ;;
          let tree := set_last_material tree (len materials) in
          let tree := set_materials tree
                        (Some (materials ++ [_mesh_to_material mesh])) in
          Ok (tree, buffer_items)
      end ;;
    if include_normals then
      let tree := set_last_attribute tree "NORMAL" (len (doc_accessors tree)) in
      normal_data <- _byte_pad (vertices_tobytes (vertex_normals mesh)) ;;
      let tree := set_accessors tree
        (doc_accessors tree ++
         [{| acc_bufferView := len buffer_items;
             acc_componentType := 5126;
             acc_count := len (vertices mesh);
             acc_type := "VEC3";
             acc_byteOffset := Some 0;
             acc_max := None;
             acc_min := None;
             acc_normalized := None |}]) in
      Ok (tree, buffer_items ++ [normal_data])
    else Ok (tree, buffer_items).

  (** [_append_path(path, name, tree, buffer_items)] *)
Definition _append_path (path : Path) (name : string) (tree : Document)
             (buffer_items : list bytes) : result (Document * list bytes) :=
    (* [vxlist = rendering.path_to_vertexlist(path)] *)
    materials <- materials_of tree ;;
    let tree := set_meshes tree
      (doc_meshes tree ++
       [{| mesh_name := Some name;
           mesh_primitives :=
             [{| prim_attributes :=
                   [("POSITION"%string, len (doc_accessors tree))];
                 prim_indices := None;
                 prim_mode := Some 1;
                 prim_material := Some (len materials) |}];
           mesh_extras := None |}]) in
    let tree := match path_units path with
                | Some u => set_last_extras tree u
                | None => tree
                end in
    vmax <- axis0_reduce maximum (path_vertices path) ;;
    vmin <- axis0_reduce minimum (path_vertices path) ;;
    let tree := set_accessors tree
      (doc_accessors tree ++
       [{| acc_bufferView := len buffer_items;
           acc_componentType := 5126;
           acc_count := vxlist_count path;
           acc_type := "VEC3";
           acc_byteOffset := Some 0;
           acc_max := Some (map NFloat vmax);
           acc_min := Some (map NFloat vmin);
           acc_normalized := None |}]) in
    (* this is just exporting everything as black *)
    let tree := set_materials tree (Some (materials ++ [_default_material])) in
    item <- _byte_pad (floats_tobytes (vxlist_data path)) ;;
    Ok (tree, buffer_items ++ [item]).

  (** The loop of [_create_gltf_structure] over [scene.geometry.items()]. *)
Fixpoint append_geometries (items : list (string * Geometry))
           (tree : Document) (buffer_items : list bytes)
           (include_normals : bool) : result (Document * list bytes) :=
    match items with
    | [] => Ok (tree, buffer_items)
    | (name, g) :: items' =>
        '(tree, buffer_items) <-
          match g with
          | GTrimesh mesh =>
              _append_mesh mesh name tree buffer_items include_normals
          | GPath path => _append_path path name tree buffer_items
          | GOther => Ok (tree, buffer_items)
          end ;;
        append_geometries items' tree buffer_items include_normals
    end.

  (** [_create_gltf_structure(scene, include_normals=False)] *)
Definition _create_gltf_structure (scene : Scene) (include_normals : bool)
    : result (Document * list bytes) :=
    (* GLTF references meshes by index *)
    let mesh_index :=
      map (fun p => (snd p, fst p)) (enumerate (dict_keys (geometry scene))) in
    (* grab the flattened scene graph in GLTF's format *)
    let nodes := graph_to_gltf scene mesh_index in
    let tree := {| doc_scene := 0;
                   doc_scenes := [{| scene_nodes := [0] |}];
                   doc_asset := Some {| asset_version := "2.0";
                                        asset_generator :=
                                          "github.com/mikedh/trimesh" |};
                   doc_accessors := [];
                   doc_meshes := [];
                   doc_materials := Some [];
                   doc_nodes := nodes;
                   doc_buffers := None;
                   doc_bufferViews := None;
                   doc_images := None;
                   doc_textures := None |} in
    '(tree, buffer_items) <-
      append_geometries (geometry scene) tree [] include_normals ;;
    (* if nothing defined a material remove it from the structure *)
    materials <- materials_of tree ;;
    let tree := if len materials =? 0 then set_materials tree None else tree in
    Ok (tree, buffer_items).

  (** The bufferViews of [export_glb]: one per item, in a single buffer. *)
Fixpoint glb_views (current_pos : Z) (buffer_items : list bytes)
    : list BufferView :=
    match buffer_items with
    | [] => []
    | current_item :: rest =>
        {| view_buffer := 0;
           view_byteOffset := current_pos;
           view_byteLength := len current_item |}
        :: glb_views (current_pos + len current_item) rest
    end.

  (** [len(s)] of a Python string *)
Definition str_len (s : string) : Z := Z.of_nat (String.length s).

  (** [export_glb(scene, include_normals=False)] *)
Definition export_glb (scene : Scene) (include_normals : bool)
    : result bytes :=
    '(tree, buffer_items) <- _create_gltf_structure scene include_normals ;;
    let views := glb_views 0 buffer_items in
    let buffer_data := List.concat buffer_items in
    let tree := set_buffers tree
                  [{| buf_uri := None; buf_byteLength := len buffer_data |}]
                  views in
    (* export the tree to JSON for the content of the file *)
    let content := json_dumps tree in
    (* add spaces to content, so the start of the data is 4 byte aligned *)
    let content :=
      (content ++ spaces (Z.to_nat (4 - ((str_len content + 20) mod 4))))%string in
    let content := encode_utf8 content in
    (* make sure we didn't screw it up *)
    _ <- assert (len content mod 4 =? 0) ;;
    (* the initial header of the file *)
    header <- _byte_pad
                (u4_tobytes [_magic_gltf;
                             2;
                             len content + len buffer_data + 28;
                             len content;
                             1313821514]) ;;
    (* the header of the binary data section *)
    bin_header <- _byte_pad (u4_tobytes [len buffer_data; 5130562]) ;;
    Ok (header ++ content ++ bin_header ++ buffer_data).

  (** The state of the loop of [export_gltf]. *)
Record GltfFiles : Type := {
    gf_buffers : list Buffer;
    gf_views : list BufferView;
    gf_files : list (string * bytes)
  }.

  (** One iteration of the loop of [export_gltf], for the pair [(i, name)]. *)
Definition export_gltf_step (buffer_items : list bytes) (st : GltfFiles)
             (i : Z) (name : string) : result GltfFiles :=
    (* for j in range(2) *)
    item0 <- getitem buffer_items (i + 0) ;;
    let view0 := {| view_buffer := len (gf_buffers st);
                    view_byteOffset := 0;
                    view_byteLength := len item0 |} in
    item1 <- getitem buffer_items (i + 1) ;;
    let view1 := {| view_buffer := len (gf_buffers st);
                    view_byteOffset := 0 + len item0;
                    view_byteLength := len item1 |} in
    (* the data is just appended *)
    let buffer_data := List.concat (slice buffer_items i (i + 2)) in
    let buffer_name := ("mesh_" ++ name ++ ".bin")%string in
    Ok {| gf_buffers := gf_buffers st ++
                        [{| buf_uri := Some buffer_name;
                            buf_byteLength := len buffer_data |}];
          gf_views := gf_views st ++ [view0; view1];
          gf_files := dict_set (gf_files st) buffer_name buffer_data |}.

Fixpoint export_gltf_loop (buffer_items : list bytes) (st : GltfFiles)
           (pairs : list (Z * string)) : result GltfFiles :=
    match pairs with
    | [] => Ok st
    | (i, name) :: pairs' =>
        st' <- export_gltf_step buffer_items st i name ;;
        export_gltf_loop buffer_items st' pairs'
    end.

  (** [export_gltf(scene)] *)
Definition export_gltf (scene : Scene) : result (list (string * bytes)) :=
    '(tree, buffer_items) <- _create_gltf_structure scene false ;;
    st <- export_gltf_loop buffer_items
            {| gf_buffers := []; gf_views := []; gf_files := [] |}
            (zip (range 0 (len buffer_items) 2) (dict_keys (geometry scene))) ;;
    let tree := set_buffers tree (gf_buffers st) (gf_views st) in
    Ok (dict_set (gf_files st) "model.gltf"
                 (encode_utf8 (json_dumps tree))).
End Exporter.

(* ================================================================== *)
(** * Import: the GLB container *)

(** A file-like object: its content and the current position. *)
Record File : Type := {
  file_data : bytes;
  file_pos : nat
}.

(** [file_obj.tell()] *)
Definition tell (f : File) : Z := Z.of_nat (file_pos f).

(** [file_obj.read(n)] for a non-negative [n]: the bytes read and the
    file advanced past them. *)
Definition read (f : File) (n : Z) : bytes * File :=
  let data := firstn (Z.to_nat n) (skipn (file_pos f) (file_data f)) in
  (data, {| file_data := file_data f;
            file_pos := (file_pos f + List.length data)%nat |}).

(** [np.frombuffer(data, dtype='<u4')], as the list of its elements. *)
Definition frombuffer_u4 (data : bytes) : result (list Z) :=
  if negb (len data mod 4 =? 0)
  then Raise (ValueError "buffer size must be a multiple of element size")
  else Ok (map le_value (chunks (List.length data) 4 data)).

(** [a, b, c = l] *)
Definition unpack3 {A : Type} (l : list A) : result (A * A * A) :=
  match l with
  | [a; b; c] => Ok (a, b, c)
  | _ => Raise (ValueError "wrong number of values to unpack")
  end.

(** [a, b = l] *)
Definition unpack2 {A : Type} (l : list A) : result (A * A) :=
  match l with
  | [a; b] => Ok (a, b)
  | _ => Raise (ValueError "wrong number of values to unpack")
  end.

(** The loop of [load_glb] that reads the binary chunks: every iteration
    that goes on consumes the eight bytes of a chunk header, so a fuel
    above the number of unread bytes is never exhausted. *)
Fixpoint read_chunks (fuel : nat) (start length : Z) (file_obj : File)
         (buffers : list bytes) : result (list bytes) :=
  match fuel with
  | O => OutOfFuel
  | S fuel' =>
      if tell file_obj - start <? length then
        (* we now read the chunk header, which is 8 bytes *)
        let '(chunk_head, file_obj) := read file_obj 8 in
        if negb (len chunk_head =? 8) then
          (* double check to make sure we didn't read the whole file *)
          Ok buffers
        else
          words <- frombuffer_u4 chunk_head ;;
          '(chunk_length, chunk_type) <- unpack2 words ;;
          (* make sure we have the right data type *)
          if negb (chunk_type =? _magic_bin)
          then Raise (ValueError "not binary GLTF!")
          else
            (* read the chunk *)
            let '(chunk_data, file_obj) := read file_obj chunk_length in
            if negb (len chunk_data =? chunk_length)
            then Raise (ValueError "chunk was not expected length!")
            else read_chunks fuel' start length file_obj
                             (buffers ++ [chunk_data])
      else Ok buffers
  end.

(** What [load_glb] has read when it calls [_read_buffers]: the parsed
    JSON header and the binary chunks. *)
Definition load_glb_chunks `{Json} (file_obj : File)
  : result (Document * list bytes) :=
  (* save the start position of the file *)
  let start := tell file_obj in
  (* read the first 20 bytes which contain section lengths *)
  let '(head_data, file_obj) := read file_obj 20 in
  head <- frombuffer_u4 head_data ;;
  (* check to make sure first index is gltf and second is 2 *)
  head0 <- getitem head 0 ;;
  bad <- (if negb (head0 =? _magic_gltf) then Ok true
          else head1 <- getitem head 1 ;; Ok (negb (head1 =? 2))) ;;
  if bad : bool then Raise (ValueError "file is not GLTF 2.0")
  else
    (* overall file length, first chunk length, first chunk type *)
    '(length, chunk_length, chunk_type) <- unpack3 (slice head 2 (len head)) ;;
    (* first chunk should be JSON header *)
    if negb (chunk_type =? _magic_json)
    then Raise (ValueError "no initial JSON header!")
    else
      let '(json_data, file_obj) := read file_obj chunk_length in
      (* load the json header to native dict *)
      header <- json_loads json_data ;;
      (* read the binary data referred to by GLTF as 'buffers' *)
      buffers <- read_chunks
                   (S (List.length (file_data file_obj)))
                   start length file_obj [] ;;
      Ok (header, buffers).

(* ================================================================== *)
(** * Import: buffers, accessors, materials *)

(** [PIL]: whether [import PIL] succeeds, and [PIL.Image.open] on a
    blob ([None] when it raises). *)
Inductive PILImage : Type := PILImageOf (blob : bytes).

Class Pillow : Type := {
  have_PIL : bool;
  PIL_Image_open : bytes -> option PILImage
}.

(** [util.unique_id(length, increment)] depends on the clock and on a
    random source; within one import it is called with increasing
    increments, so a function of the increment stands for any run.
    [np_random_name] is [str(int(np.random.random() * 1e10))]. *)
Class Util : Type := {
  unique_id : Z -> Z -> string;
  np_random_name : string
}.

(** A keyword argument of [visual.texture.PBRMaterial]; the material
    object is represented by the keyword arguments it was built from. *)
Inductive pbr_arg : Type :=
| PValue (v : json)
| PImage (image : option PILImage).

Definition PBRMaterial : Type := list (string * pbr_arg).

(** [visual.texture.TextureVisuals(uv=uv, material=material)] *)
Record TextureVisuals : Type := {
  tv_uv : ndarray;
  tv_material : PBRMaterial
}.

(** A value in the keyword arguments of a geometry. *)
Inductive kwarg : Type :=
| KMetadata (d : list (string * string))
| KArray (a : ndarray)
| KVisual (v : TextureVisuals)
| KOther (v : json).

Definition kwargs : Type := list (string * kwarg).

(** One edge of the scene graph: the keyword arguments of
    [scene.graph.update]. *)
Record Edge : Type := {
  frame_from : string;
  frame_to : string;
  matrix : list (list float64);
  edge_geometry : option string
}.

(** The result of [_read_buffers]. *)
Record SceneKwargs : Type := {
  class : string;
  sk_geometry : list (string * kwargs);
  sk_graph : list Edge;
  base_frame : string
}.

(** The bufferView slices: the first loop of [_read_buffers]. *)
Definition read_view (buffers : list bytes) (view : BufferView) : result bytes :=
  let start := view_byteOffset view in
  let end_ := start + view_byteLength view in
  buffer <- getitem buffers (view_buffer view) ;;
  let v := slice buffer start end_ in
  _ <- assert (len v =? view_byteLength view) ;;
  Ok v.

(** One accessor: the body of the second loop of [_read_buffers].  The
    number of columns [per_count] is a numpy integer, so the length and
    the end of the span are computed by numpy. *)
Definition read_accessor (views : list bytes) (a : Accessor) : result ndarray :=
  data <- getitem views (acc_bufferView a) ;;
  dtype <- _types (acc_componentType a) ;;
  shape <- _shapes (acc_type a) ;;
  (* is the accessor offset in a buffer *)
  let start := match acc_byteOffset a with
               | Some o => o
               | None => 0
               end in
  (* basically the number of columns *)
  let per_count := Z.abs (np_product shape) in
  (* length is the number of bytes per item times total *)
  let length := int_with_int64 Z.mul (itemsize dtype * acc_count a) per_count in
  end_ <- match length with
          | NpInt64 length => Ok (int_with_int64 Z.add start length)
          | NpFloat64 => int_plus_float64 start
          | NpObject length => Ok (NpObject (start + length))
          end ;;
  (* a float is not an index of a slice *)
  span <- match end_ with
          | NpInt64 end_ | NpObject end_ => Ok (slice data start end_)
          | NpFloat64 => Raise TypeError
          end ;;
  flat <- frombuffer span dtype ;;
  array <- reshape flat shape ;;
  n <- array_len array ;;
  _ <- assert (n =? acc_count a) ;;
  Ok array.

Section Materials.
  Context `{Pillow}.

  (** The loop over [header['images']]. *)
Definition load_image (views : list bytes) (img : Image)
    : result (option PILImage) :=
    blob <- getitem views (image_bufferView img) ;;
    Ok (PIL_Image_open blob).

  (** A value that must be a dict. *)
Definition as_dict (v : json) : result (list (string * json)) :=
    match v with
    | JDict d => Ok d
    | _ => Raise TypeError
    end.

  (** A value used as a list index. *)
Definition as_index (v : json) : result Z :=
    match v with
    | JNumber (NInt i) => Ok i
    | JBool b => Ok (if b then 1 else 0)
    | _ => Raise TypeError
    end.

  (** The loop over [loopable.items()] that fills [pbr]. *)
Fixpoint fill_pbr (header : Document) (images : option (list (option PILImage)))
           (items : list (string * json)) (pbr : PBRMaterial)
    : result PBRMaterial :=
    match items with
    | [] => Ok pbr
    | (k, v) :: items' =>
        pbr <- match v with
               | JDict d =>
                   match dict_get d "index" with
                   | Some i =>
                       (* get the index of image for texture *)
                       textures <- required "textures" (doc_textures header) ;;
                       i <- as_index i ;;
                       texture <- getitem textures i ;;
                       let idx := texture_source texture in
                       (* store the actual image as the value *)
                       match images with
                       | None => Raise TypeError
                       | Some images =>
                           image <- getitem images idx ;;
                           Ok (dict_set pbr k (PImage image))
                       end
                   | None => Ok pbr
                   end
               | _ => Ok (dict_set pbr k (PValue v))
               end ;;
        fill_pbr header images items' pbr
    end.

  (** One material entry. *)
Definition parse_material (header : Document)
             (images : option (list (option PILImage))) (mat : json)
    : result PBRMaterial :=
    (* flatten key structure so we can loop it *)
    loopable <- match mat with
                | JDict d => Ok d
                | _ => Raise AttributeError
                end ;;
    loopable <- match dict_get loopable "pbrMetallicRoughness" with
                | Some inner =>
                    inner <- as_dict inner ;;
                    Ok (dict_update (dict_del loopable "pbrMetallicRoughness")
                                    inner)
                | None => Ok loopable
                end ;;
    fill_pbr header images loopable [].

  (** [_parse_materials(header, views)] *)
Definition _parse_materials (header : Document) (views : list bytes)
    : result (list PBRMaterial) :=
    if negb have_PIL then Ok []
    else
      images <- match doc_images header with
                | Some imgs => l <- mapM (load_image views) imgs ;; Ok (Some l)
                | None => Ok None
                end ;;
      match doc_materials header with
      | Some mats => mapM (parse_material header images) mats
      | None => Ok []
      end.
End Materials.

(* ================================================================== *)
(** * Import: geometries *)

(** [collections.defaultdict(list)] keyed by mesh index. *)
Fixpoint mesh_prim_get (mp : list (Z * list string)) (index : Z) : list string :=
  match mp with
  | [] => []
  | (i, names) :: mp' => if i =? index then names else mesh_prim_get mp' index
  end.

(** [mesh_prim[index].append(name)] *)
Fixpoint mesh_prim_append (mp : list (Z * list string)) (index : Z)
         (name : string) : list (Z * list string) :=
  match mp with
  | [] => [(index, [name])]
  | (i, names) :: mp' =>
      if i =? index then (i, names ++ [name]) :: mp'
      else (i, names) :: mesh_prim_append mp' index name
  end.

(** [uv[:, 1] = 1.0 - uv[:, 1]] on a copy of [uv]. *)
Definition flip_v `{NumpyFloat} (uv : ndarray) : result ndarray :=
  match arr_shape uv with
  | [n; c] =>
      if c <? 2 then Raise IndexError
      else Ok {| arr_dtype := arr_dtype uv;
                 arr_shape := arr_shape uv;
                 arr_data :=
                   map (fun ix => if fst ix mod c =? 1
                                  then one_minus (arr_dtype uv) (snd ix)
                                  else snd ix)
                       (enumerate (arr_data uv)) |}
  | _ => Raise IndexError
  end.

(** [metadata]: the units of the mesh's [extras], when it has them. *)
Definition mesh_metadata (m : Mesh) : list (string * string) :=
  match mesh_extras m with
  | Some {| extras_units := Some u |} => [("units"%string, u)]
  | _ => []
  end.

(** The name under which a primitive of [m] is stored when [m] has a
    single primitive. *)
Definition geometry_name (m : Mesh) : string :=
  match mesh_name m with
  | Some n => n
  | None => "GLTF_geometry"%string
  end.

Section Geometries.
  Context `{NumpyFloat}.

  Variable access : list ndarray.
  Variable materials : list PBRMaterial.
  Variable mesh_kwargs : kwargs.

  (** The keyword arguments of one triangle primitive.  Python puts the
      caller's [metadata] dict itself, not a copy, into them and
      updates it in place; [mesh_kwargs] holds the caller's arguments
      as they are when the primitive is read. *)
Definition primitive_kwargs (metadata : list (string * string))
             (p : Primitive) : result kwargs :=
    (* store those units *)
    let kwargs := [("metadata"%string, KMetadata [])] in
    let kwargs := dict_update kwargs mesh_kwargs in
    kwargs <- match dict_get kwargs "metadata" with
              | Some (KMetadata d) =>
                  Ok (dict_set kwargs "metadata"
                               (KMetadata (dict_update d metadata)))
              | _ => Raise AttributeError
              end ;;
    (* get faces from accessors and reshape *)
    indices <- required "indices" (prim_indices p) ;;
    faces <- getitem access indices ;;
    faces <- reshape faces (Shape2 (-1) 3) ;;
    let kwargs := dict_set kwargs "faces" (KArray faces) in
    (* get vertices from accessors *)
    position <- dict_item (prim_attributes p) "POSITION" ;;
    vertices <- getitem access position ;;
    let kwargs := dict_set kwargs "vertices" (KArray vertices) in
    (* do we have UV coordinates *)
    match dict_get (prim_attributes p) "TEXCOORD_0" with
    | Some texcoord =>
        match prim_material p with
        | None => (* log.warning('texcoord without material!') *) Ok kwargs
        | Some material =>
            uv <- getitem access texcoord ;;
            uv <- flip_v uv ;;
            material <- getitem materials material ;;
            Ok (dict_set kwargs "visual"
                         (KVisual {| tv_uv := uv; tv_material := material |}))
        end
    | None => Ok kwargs
    end.

  (** The state of the loops over meshes and primitives. *)
Definition mesh_state : Type :=
    (list (string * kwargs) * list (Z * list string))%type.

  (** The loop over [enumerate(m['primitives'])]. *)
Fixpoint read_primitives (index : Z) (m : Mesh)
           (metadata : list (string * string))
           (prims : list (Z * Primitive)) (st : mesh_state) : result mesh_state :=
    match prims with
    | [] => Ok st
    | (j, p) :: prims' =>
        let skip := match prim_mode p with
                    | Some mode => negb (mode =? 4)
                    | None => false
                    end in
        if skip then read_primitives index m metadata prims' st
        else
          kwargs <- primitive_kwargs metadata p ;;
          (* create a unique mesh name per- primitive *)
          let name := geometry_name m in
          (* each primitive gets it's own Trimesh object *)
          let name := if 1 <? len (mesh_primitives m)
                      then (name ++ "_" ++ str_of_int j)%string
                      else name in
          let '(meshes, mesh_prim) := st in
          read_primitives index m metadata prims'
            (dict_set meshes name kwargs, mesh_prim_append mesh_prim index name)
    end.

  (** The body of the loop over [enumerate(header['meshes'])]. *)
Definition read_mesh (index : Z) (m : Mesh) (st : mesh_state)
    : result mesh_state :=
    (* try loading units from the GLTF extra *)
    let metadata := mesh_metadata m in
    read_primitives index m metadata (enumerate (mesh_primitives m)) st.

Fixpoint read_meshes (ms : list (Z * Mesh)) (st : mesh_state)
    : result mesh_state :=
    match ms with
    | [] => Ok st
    | (index, m) :: ms' => st' <- read_mesh index m st ;; read_meshes ms' st'
    end.
End Geometries.

(* ================================================================== *)
(** * Import: the scene graph *)

(** A key of the dict [names]: a node index, or the base frame name. *)
Inductive key : Type :=
| KInt (i : Z)
| KStr (s : string).

Definition key_eqb (a b : key) : bool :=
  match a, b with
  | KInt i, KInt j => i =? j
  | KStr s, KStr t => String.eqb s t
  | _, _ => false
  end.

Fixpoint names_get (names : list (key * string)) (k : key) : option string :=
  match names with
  | [] => None
  | (k', v) :: names' => if key_eqb k' k then Some v else names_get names' k
  end.

(** [k in names]: a test on the keys of the dict. *)
Definition names_in (names : list (key * string)) (k : key) : bool :=
  match names_get names k with Some _ => true | None => false end.

Fixpoint names_set (names : list (key * string)) (k : key) (v : string)
  : list (key * string) :=
  match names with
  | [] => [(k, v)]
  | (k', v') :: names' =>
      if key_eqb k' k then (k', v) :: names'
      else (k', v') :: names_set names' k v
  end.

(** [names[k]] *)
Definition names_item (names : list (key * string)) (k : key) : result string :=
  match names_get names k with
  | Some v => Ok v
  | None => Raise (KeyError match k with
                            | KInt i => str_of_int i
                            | KStr s => s
                            end)
  end.

(** [s.upper()] on ASCII text. *)
Definition upper_char (c : ascii) : ascii :=
  let n := nat_of_ascii c in
  if ((97 <=? n) && (n <=? 122))%nat then ascii_of_nat (n - 32) else c.

Fixpoint upper (s : string) : string :=
  match s with
  | EmptyString => EmptyString
  | String c s' => String (upper_char c) (upper s')
  end.

(** [np.eye(4)] *)
Definition eye4 : list (list float64) :=
  [[f64_one; f64_zero; f64_zero; f64_zero];
   [f64_zero; f64_one; f64_zero; f64_zero];
   [f64_zero; f64_zero; f64_one; f64_zero];
   [f64_zero; f64_zero; f64_zero; f64_one]].

(** [np.array(m, dtype=np.float64).reshape((4, 4))] *)
Definition reshape44 (m : list float64) : result (list (list float64)) :=
  match m with
  | [a0; a1; a2; a3; a4; a5; a6; a7; a8; a9; a10; a11; a12; a13; a14; a15] =>
      Ok [[a0; a1; a2; a3]; [a4; a5; a6; a7];
          [a8; a9; a10; a11]; [a12; a13; a14; a15]]
  | _ => Raise (ValueError "cannot reshape array")
  end.

(** [a.T] of a 4x4 array. *)
Definition transpose44 (a : list (list float64)) : list (list float64) :=
  match a with
  | [[a0; a1; a2; a3]; [a4; a5; a6; a7];
     [a8; a9; a10; a11]; [a12; a13; a14; a15]] =>
      [[a0; a4; a8; a12]; [a1; a5; a9; a13];
       [a2; a6; a10; a14]; [a3; a7; a11; a15]]
  | _ => a
  end.

Section Graph.
  Context `{Util}.

  Variable nodes : list Node.
  Variable names : list (key * string).
  Variable mesh_prim : list (Z * list string).

  (** The matrix of the edge into [child]. *)
Definition node_transform (child : Node) : result (list (list float64)) :=
    match node_matrix child with
    | Some m => a <- reshape44 m ;; Ok (transpose44 a)
    | None => Ok eye4
    end.

  (** The edge appended for one geometry instance, the graph holding
      [n] edges already. *)
Definition instance_edge (from : string) (m : list (list float64))
             (name : string) (n : Z) : Edge :=
    {| frame_from := from;
       frame_to := (name ++ "_" ++ upper (unique_id 6 n))%string;
       matrix := m;
       edge_geometry := Some name |}.

  (** The loop [for name in geometries]. *)
Fixpoint append_instances (from : string) (m : list (list float64))
           (geometries : list string) (graph : list Edge) : list Edge :=
    match geometries with
    | [] => graph
    | name :: rest =>
        append_instances from m rest
          (graph ++ [instance_edge from m name (len graph)])
    end.

  (** One iteration of the [while] loop, for the popped pair [(a, b)]:
      the rest of the queue and the graph after it.  The deque is kept
      with its right end first, so [pop()] takes the head and
      [extend] pushes the elements one by one. *)
Definition visit (a : key) (b : Z) (queue : list (key * Z))
             (graph : list Edge) : result (list (key * Z) * list Edge) :=
    (* dict of child node *)
    child <- getitem nodes b ;;
    (* add edges of children to be processed *)
    let queue := match node_children child with
                 | Some children =>
                     List.rev (map (fun i => (KInt b, i)) children) ++ queue
                 | None => queue
                 end in
    (* kwargs to be passed to scene.graph.update *)
    from <- names_item names a ;;
    to <- names_item names (KInt b) ;;
    (* grab matrix from child *)
    m <- node_transform child ;;
    (* append the nodes for connectivity without the mesh *)
    let graph := graph ++ [{| frame_from := from; frame_to := to;
                             matrix := m; edge_geometry := None |}] in
    match node_mesh child with
    | Some mesh =>
        (* append a new node per- geometry instance *)
        let geometries := mesh_prim_get mesh_prim mesh in
        Ok (queue, append_instances from m geometries graph)
    | None => Ok (queue, graph)
    end.

  (** [while len(queue) > 0] *)
Fixpoint walk (fuel : nat) (queue : list (key * Z)) (graph : list Edge)
    : result (list Edge) :=
    match queue with
    | [] => Ok graph
    | (a, b) :: queue' =>
        match fuel with
        | O => OutOfFuel
        | S fuel' =>
            '(queue'', graph') <- visit a b queue' graph ;;
            walk fuel' queue'' graph'
        end
    end.
End Graph.

(** The dict [names] of node index to name. *)
Definition node_names (nodes : list Node) : list (key * string) :=
  map (fun ix => (KInt (fst ix),
                  match node_name (snd ix) with
                  | Some n => n
                  | None => str_of_int (fst ix)
                  end))
      (enumerate nodes).

Section ReadBuffers.
  Context `{NumpyFloat} `{Json} `{Pillow} `{Util}.

  (** The base frame chosen by [_read_buffers]. *)
Definition choose_base_frame (names : list (key * string)) : string :=
    let base_frame := "world"%string in
    if names_in names (KStr base_frame) then np_random_name else base_frame.

  (** [_read_buffers(header, buffers, mesh_kwargs)]; [fuel] bounds the
      number of nodes the graph traversal visits. *)
Definition _read_buffers (fuel : nat) (header : Document)
             (buffers : list bytes) (mesh_kwargs : kwargs)
    : result SceneKwargs :=
    (* split buffer data into buffer views *)
    bufferViews <- required "bufferViews" (doc_bufferViews header) ;;
    views <- mapM (read_view buffers) bufferViews ;;
    (* load data from buffers and bufferviews into numpy arrays *)
    access <- mapM (read_accessor views) (doc_accessors header) ;;
    (* load images and textures into material objects *)
    materials <- _parse_materials header views ;;
    (* load data from accessors into Trimesh objects *)
    '(meshes, mesh_prim) <-
      read_meshes access materials mesh_kwargs
                  (enumerate (doc_meshes header)) ([], []) ;;
    (* make it easier to reference nodes *)
    let nodes := doc_nodes header in
    let names := node_names nodes in
    (* make sure we have a unique base frame name *)
    let base_frame := choose_base_frame names in
    let names := names_set names (KStr base_frame) base_frame in
    (* start the traversal from the base frame to the roots *)
    scene <- getitem (doc_scenes header) (doc_scene header) ;;
    let queue := List.rev (map (fun root => (KStr base_frame, root))
                          (scene_nodes scene)) in
    graph <- walk nodes names mesh_prim fuel queue [] ;;
    Ok {| class := "Scene";
          sk_geometry := meshes;
          sk_graph := graph;
          base_frame := base_frame |}.

  (** [load_glb(file_obj, **mesh_kwargs)] *)
Definition load_glb (fuel : nat) (file_obj : File) (mesh_kwargs : kwargs)
    : result SceneKwargs :=
    '(header, buffers) <- load_glb_chunks file_obj ;;
    _read_buffers fuel header buffers mesh_kwargs.
End ReadBuffers.

(* ================================================================== *)
(** * Vocabulary of the properties *)

(** Every chunk of a buffer-item list is 4-byte aligned. *)
Definition aligned (items : list bytes) : Prop :=
  Forall (fun chunk => len chunk mod 4 = 0) items.

(** A geometry for which the exporter derives no material: a triangle
    mesh with vertex colors, or a geometry the exporter skips. *)
Definition derives_no_material (g : Geometry) : Prop :=
  match g with
  | GTrimesh mesh => kind (color_visual (visual mesh)) <> None
  | GPath _ => False
  | GOther => True
  end.

(** The number of components of one element that the design document
    gives for an accessor type: a scalar counts as 1, a vector as its
    width, a matrix as the product of its dimensions. *)
Definition type_components (type : string) : Z :=
  if String.eqb type "SCALAR" then 1
  else if String.eqb type "VEC2" then 2
  else if String.eqb type "VEC3" then 3
  else if String.eqb type "VEC4" then 4
  else if String.eqb type "MAT2" then 2 * 2
  else if String.eqb type "MAT3" then 3 * 3
  else if String.eqb type "MAT4" then 4 * 4
  else 0.

(** The byte span of an accessor in the words of the design document:
    it starts at the accessor's [byteOffset] (0 when absent) and is
    element byte size x count x components long. *)
Definition accessor_span (a : Accessor) (d : dtype) : Z * Z :=
  let start := match acc_byteOffset a with Some o => o | None => 0 end in
  (start, start + itemsize d * acc_count a * type_components (acc_type a)).

(** The numbers of the span of an accessor fit 64-bit integers, in
    which numpy computes them: the bytes of [count] elements, the length
    of the span, its start and its end. *)
Definition span_fits_int64 (a : Accessor) (d : dtype) : Prop :=
  - 2 ^ 63 <= itemsize d * acc_count a < 2 ^ 63 /\
  - 2 ^ 63 <= snd (accessor_span a d) - fst (accessor_span a d) < 2 ^ 63 /\
  - 2 ^ 63 <= fst (accessor_span a d) < 2 ^ 63 /\
  - 2 ^ 63 <= snd (accessor_span a d) < 2 ^ 63.



(** The bytes of a file that are still to be read. *)
Definition remaining (f : File) : bytes := skipn (file_pos f) (file_data f).

(** The [k]-th little-endian 32-bit word of a byte string. *)
Definition word (bs : bytes) (k : nat) : Z :=
  le_value (firstn 4 (skipn (4 * k) bs)).

(** The file advanced by [n] bytes. *)
Definition advance (f : File) (n : nat) : File :=
  {| file_data := file_data f; file_pos := (file_pos f + n)%nat |}.

(** One turn of the chunk loop of [load_glb] over a complete binary
    chunk: the loop is entered, the chunk header names the BIN type, and
    the declared number of payload bytes is there. *)
Definition next_chunk (start length : Z)
           (st st' : File * list bytes) : Prop :=
  tell (fst st) - start < length /\
  8 <= len (remaining (fst st)) /\
  word (remaining (fst st)) 1 = _magic_bin /\
  exists payload,
    payload = firstn (Z.to_nat (word (remaining (fst st)) 0))
                     (skipn 8 (remaining (fst st))) /\
    len payload = word (remaining (fst st)) 0 /\
    st' = (advance (fst st) (8 + List.length payload), snd st ++ [payload]).

(** The states of the chunk loop: the file position at a chunk header
    and the chunks read so far. *)
Inductive reaches (start length : Z)
  : File * list bytes -> File * list bytes -> Prop :=
| reaches_here st : reaches start length st st
| reaches_next st st' st'' :
    next_chunk start length st st' ->
    reaches start length st' st'' ->
    reaches start length st st''.

(* ================================================================== *)
(** * Example instances, scenes and documents *)

(** Float operations that keep the upper four bytes of the 64-bit
    pattern as the 32-bit value and order patterns as integers. *)
Definition example_float : NumpyFloat := {|
  astype_float32 := fun x =>
    match x with
    | Float64 b =>
        match le_bytes 4 (b / 2 ^ 32) with
        | [b0; b1; b2; b3] => Float32 b0 b1 b2 b3
        | _ => Float32 x00 x00 x00 x00
        end
    end;
  maximum := fun x y =>
    match x, y with Float64 a, Float64 b => Float64 (Z.max a b) end;
  minimum := fun x y =>
    match x, y with Float64 a, Float64 b => Float64 (Z.min a b) end;
  float32_divide := fun c d => Float64 (c * 1000 / d);
  one_minus := fun _ x => x
|}.

(** A codec that writes every document as the same text and reads every
    text back as [doc]. *)
Definition fixed_json (doc : Document) : Json := {|
  json_dumps := fun _ => "{}"%string;
  json_loads := fun _ => Ok doc
|}.

Definition example_pillow : Pillow := {|
  have_PIL := true;
  PIL_Image_open := fun blob => Some (PILImageOf blob)
|}.

(** Identifiers of six characters that end in the last digit of the
    increment. *)
Definition example_util : Util := {|
  unique_id := fun _ increment =>
                 ("id000" ++ str_of_int (increment mod 10))%string;
  np_random_name := "1234567890"%string
|}.

Definition empty_document : Document :=
  {| doc_scene := 0; doc_scenes := []; doc_asset := None;
     doc_accessors := []; doc_meshes := []; doc_materials := None;
     doc_nodes := []; doc_buffers := None; doc_bufferViews := None;
     doc_images := None; doc_textures := None |}.

(** A triangle with a color per vertex. *)
Definition colored_triangle : Trimesh :=
  {| vertices := [(Float64 (2 ^ 40), f64_zero, Float64 5);
                  (f64_one, f64_one, Float64 5);
                  (f64_one, f64_one, Float64 7)];
     faces := [(0, 1, 2)];
     units := Some "mm"%string;
     visual := {| has_uv := false;
                  color_visual :=
                    {| kind := Some "vertex"%string;
                       vertex_colors := [(1, 2, 3, 255); (4, 5, 6, 255);
                                         (7, 8, 9, 255)] |};
                  main_color := [1; 2; 3; 255] |};
     vertex_normals := [] |}.

(** The same triangle without vertex colors. *)
Definition plain_triangle : Trimesh :=
  {| vertices := vertices colored_triangle;
     faces := faces colored_triangle;
     units := None;
     visual := {| has_uv := false;
                  color_visual := {| kind := None; vertex_colors := [] |};
                  main_color := [51; 102; 255; 255] |};
     vertex_normals := [] |}.

(** A graph with the node [world] at index 0 and one child node per
    geometry, in the order of the mesh index. *)
Definition flat_graph (mesh_index : list (string * Z)) : list Node :=
  {| node_name := Some "world"%string;
     node_children := Some (map (fun p => snd p + 1) mesh_index);
     node_matrix := None;
     node_mesh := None |}
  :: map (fun p => {| node_name := Some (fst p);
                      node_children := None;
                      node_matrix := None;
                      node_mesh := Some (snd p) |}) mesh_index.

Definition one_triangle_scene : Scene :=
  {| geometry := [("a"%string, GTrimesh colored_triangle)];
     graph_to_gltf := flat_graph |}.

Definition two_triangle_scene : Scene :=
  {| geometry := [("a"%string, GTrimesh colored_triangle);
                  ("b"%string, GTrimesh colored_triangle)];
     graph_to_gltf := flat_graph |}.

Definition mixed_scene : Scene :=
  {| geometry := [("a"%string, GTrimesh colored_triangle);
                  ("p"%string, GTrimesh plain_triangle)];
     graph_to_gltf := flat_graph |}.

Definition world_document : Document :=
  {| doc_scene := 0;
     doc_scenes := [{| scene_nodes := [0] |}];
     doc_asset := None;
     doc_accessors := [];
     doc_meshes := [];
     doc_materials := None;
     doc_nodes := [{| node_name := Some "world"%string;
                      node_children := None;
                      node_matrix := None;
                      node_mesh := None |}];
     doc_buffers := Some [];
     doc_bufferViews := Some [];
     doc_images := None;
     doc_textures := None |}.

Definition world_scene : SceneKwargs :=
  {| class := "Scene";
     sk_geometry := [];
     sk_graph := [{| frame_from := "world"; frame_to := "world";
                     matrix := eye4; edge_geometry := None |}];
     base_frame := "world" |}.

(** The files [export_gltf] returns for the scene of two triangles. *)
Definition two_triangle_files : list (string * bytes) :=
  Eval vm_compute in
    match @export_gltf example_float (fixed_json empty_document)
                       two_triangle_scene with
    | Ok files => files
    | _ => []
    end.

(** Two arrays as the accessors of a triangle resolve to, and a
    primitive that refers to them. *)
Definition example_index_array : ndarray :=
  {| arr_dtype := u4; arr_shape := [3];
     arr_data := [Int 0; Int 1; Int 2] |}.

Definition example_vertex_array : ndarray :=
  {| arr_dtype := f4; arr_shape := [3; 3];
     arr_data := repeat (Flt (Float32 x00 x00 x00 x00)) 9 |}.

Definition example_primitive : Primitive :=
  {| prim_attributes := [("POSITION"%string, 1)];
     prim_indices := Some 0;
     prim_mode := Some 4;
     prim_material := None |}.


(** The geometry names generated for the mesh a node refers to. *)
Definition node_geometries (mesh_prim : list (Z * list string))
           (child : Node) : list string :=
  match node_mesh child with
  | Some mesh => mesh_prim_get mesh_prim mesh
  | None => []
  end.

(** The edge that records the connectivity of two frames. *)
Definition structural_edge (from to : string) (m : list (list float64)) : Edge :=
  {| frame_from := from; frame_to := to; matrix := m; edge_geometry := None |}.

(** [m[r][c]] of a nested list. *)
Definition entry (m : list (list float64)) (r c : Z) : result float64 :=
  row <- getitem m r ;; getitem row c.

(** The root and two nodes of the same mesh of two geometries, the
    first one placed by a matrix of 16 different numbers. *)
Definition matrix_nodes : list Node :=
  [{| node_name := Some "world"%string;
      node_children := Some [1; 2];
      node_matrix := None;
      node_mesh := None |};
   {| node_name := Some "left"%string;
      node_children := None;
      node_matrix := Some (map Float64 [1; 2; 3; 4; 5; 6; 7; 8; 9; 10; 11; 12;
                                        13; 14; 15; 16]);
      node_mesh := Some 0 |};
   {| node_name := None;
      node_children := None;
      node_matrix := None;
      node_mesh := Some 0 |}].

Definition matrix_names : list (key * string) :=
  names_set (node_names matrix_nodes) (KStr "world") "world".

Definition matrix_mesh_prim : list (Z * list string) :=
  [(0, ["a_0"%string; "a_1"%string])].

(** The visit of the node [left] after the root, and the graph of the
    whole walk. *)
Definition matrix_visit : list (key * Z) * list Edge :=
  Eval vm_compute in
    match @visit example_util matrix_nodes matrix_names matrix_mesh_prim
                 (KInt 0) 1 [] [structural_edge "world" "world" eye4] with
    | Ok r => r
    | _ => ([], [])
    end.

Definition matrix_graph : list Edge :=
  Eval vm_compute in
    match @walk example_util matrix_nodes matrix_names matrix_mesh_prim
                5 [(KStr "world", 0)] [] with
    | Ok graph => graph
    | _ => []
    end.

(** What [_create_gltf_structure] returns for two of the scenes. *)
Definition one_triangle_structure : Document * list bytes :=
  Eval vm_compute in
    match @_create_gltf_structure example_float one_triangle_scene false with
    | Ok r => r
    | _ => (empty_document, [])
    end.

Definition mixed_structure : Document * list bytes :=
  Eval vm_compute in
    match @_create_gltf_structure example_float mixed_scene false with
    | Ok r => r
    | _ => (empty_document, [])
    end.

(** A container that declares 100 bytes and ends after its JSON chunk. *)
Definition short_file : File :=
  {| file_data := u4_tobytes [_magic_gltf; 2; 100; 4; _magic_json]
                    ++ encode_utf8 "{}  ";
     file_pos := 0 |}.

(** The tree that [export_glb] writes: the structure with the buffer and
    the bufferViews of the single binary chunk. *)
Definition glb_tree (tree : Document) (buffer_items : list bytes) : Document :=
  set_buffers tree
    [{| buf_uri := None; buf_byteLength := len (List.concat buffer_items) |}]
    (glb_views 0 buffer_items).

(** The JSON chunk of [export_glb]: the text of that tree, padded with
    spaces. *)
Definition glb_json_chunk `{Json} (tree : Document) (buffer_items : list bytes)
  : bytes :=
  let content := json_dumps (glb_tree tree buffer_items) in
  encode_utf8
    (content ++ spaces (Z.to_nat (4 - ((str_len content + 20) mod 4)))).

(** The GLB file of the scene with one triangle. *)
Definition one_triangle_glb : bytes :=
  Eval vm_compute in
    match @export_glb example_float (fixed_json empty_document)
                      one_triangle_scene false with
    | Ok exported => exported
    | _ => []
    end.

(** The three accessors of a mesh with vertex colors, the tree holding
    [n] accessors and the buffer list [k] items before it. *)
Definition colored_accessors (mesh : Trimesh) (k : Z)
           (fmax : Z) (vmax vmin : list float64) : list Accessor :=
  [{| acc_bufferView := k;
      acc_componentType := 5125;
      acc_count := len (faces mesh) * 3;
      acc_type := "SCALAR";
      acc_byteOffset := None;
      acc_max := Some [NInt fmax];
      acc_min := Some [NInt 0];
      acc_normalized := None |};
   {| acc_bufferView := k + 1;
      acc_componentType := 5126;
      acc_count := len (vertices mesh);
      acc_type := "VEC3";
      acc_byteOffset := Some 0;
      acc_max := Some (map NFloat vmax);
      acc_min := Some (map NFloat vmin);
      acc_normalized := None |};
   {| acc_bufferView := k + 2;
      acc_componentType := 5121;
      acc_count := len (vertices mesh);
      acc_type := "VEC4";
      acc_byteOffset := Some 0;
      acc_max := None;
      acc_min := None;
      acc_normalized := Some true |}].

(** Its mesh record. *)
Definition colored_mesh_record (mesh : Trimesh) (name : string) (n : Z) : Mesh :=
  {| mesh_name := Some name;
     mesh_primitives :=
       [{| prim_attributes := [("POSITION"%string, n + 1);
                               ("COLOR_0"%string, n + 2)];
           prim_indices := Some n;
           prim_mode := Some 4;
           prim_material := None |}];
     mesh_extras := match units mesh with
                    | Some u => Some {| extras_units := Some u |}
                    | None => None
                    end |}.

(** Its three buffer items. *)
Definition colored_items `{NumpyFloat} (mesh : Trimesh) (items : list bytes) : Prop :=
  exists index_data vertex_data color_data,
    items = [index_data; vertex_data; color_data] /\
    _byte_pad (faces_tobytes (faces mesh)) = Ok index_data /\
    _byte_pad (vertices_tobytes (vertices mesh)) = Ok vertex_data /\
    _byte_pad (colors_tobytes (vertex_colors (color_visual (visual mesh))))
      = Ok color_data.

(** A triangle mesh with a color per vertex. *)
Definition colored_mesh (g : Geometry) : Prop :=
  match g with
  | GTrimesh mesh => kind (color_visual (visual mesh)) <> None
  | _ => False
  end.

(** The three byte strings of such a mesh: indices, positions, colors. *)
Definition mesh_items `{NumpyFloat} (mesh : Trimesh) : list bytes :=
  [faces_tobytes (faces mesh);
   vertices_tobytes (vertices mesh);
   colors_tobytes (vertex_colors (color_visual (visual mesh)))].

(** The accessors, mesh records and buffer items that a list of colored
    meshes is exported as, behind [n] accessors and [k] buffer items. *)
Fixpoint exported_as `{NumpyFloat} (geoms : list (string * Geometry)) (n k : Z)
         (accs : list Accessor) (ms : list Mesh) (its : list bytes) : Prop :=
  match geoms with
  | [] => accs = [] /\ ms = [] /\ its = []
  | (name, GTrimesh mesh) :: rest =>
      exists fmax vmax vmin accs' ms' its',
        accs = colored_accessors mesh k fmax vmax vmin ++ accs' /\
        ms = colored_mesh_record mesh name n :: ms' /\
        its = mesh_items mesh ++ its' /\
        len (vertex_colors (color_visual (visual mesh))) = len (vertices mesh) /\
        exported_as rest (n + 3) (k + 3) accs' ms' its'
  | _ => False
  end.

(** The arrays that the accessors of a colored mesh resolve to. *)
Definition faces_flat (mesh : Trimesh) : ndarray :=
  {| arr_dtype := u4;
     arr_shape := [len (faces mesh) * 3];
     arr_data := map Int (List.concat (map face_row (faces mesh))) |}.

Definition positions_array `{NumpyFloat} (mesh : Trimesh) : ndarray :=
  {| arr_dtype := f4;
     arr_shape := [len (vertices mesh); 3];
     arr_data := map (fun x => Flt (astype_float32 x))
                     (List.concat (map vec3_row (vertices mesh))) |}.

Definition colors_array (mesh : Trimesh) : ndarray :=
  {| arr_dtype := u1;
     arr_shape := [len (vertices mesh); 4];
     arr_data := map (fun c => Int (c mod 256))
                     (List.concat
                        (map rgba_row
                             (vertex_colors (color_visual (visual mesh))))) |}.

Definition mesh_arrays `{NumpyFloat} (g : Geometry) : list ndarray :=
  match g with
  | GTrimesh mesh => [faces_flat mesh; positions_array mesh; colors_array mesh]
  | _ => []
  end.

(** The face indices fit the 32-bit element type of the index buffer. *)
Definition faces_in_range (g : Geometry) : Prop :=
  match g with
  | GTrimesh mesh =>
      Forall (fun i => 0 <= i < 2 ^ 32) (List.concat (map face_row (faces mesh)))
  | _ => True
  end.

(** The face array of an imported mesh: one row per triangle. *)
Definition faces_array (mesh : Trimesh) : ndarray :=
  {| arr_dtype := u4;
     arr_shape := [len (faces mesh); 3];
     arr_data := map Int (List.concat (map face_row (faces mesh))) |}.

(** The keyword arguments that the import of an exported colored mesh
    yields. *)
Definition imported_kwargs `{NumpyFloat} (mesh : Trimesh) : kwargs :=
  [("metadata"%string,
    KMetadata match units mesh with
              | Some u => [("units"%string, u)]
              | None => []
              end);
   ("faces"%string, KArray (faces_array mesh));
   ("vertices"%string, KArray (positions_array mesh))].

(** The geometry map and the names per mesh index after the import of a
    list of exported colored meshes, the first one at index [index]. *)
Fixpoint imported `{NumpyFloat} (geoms : list (string * Geometry)) (index : Z)
         (st : list (string * kwargs) * list (Z * list string))
  : list (string * kwargs) * list (Z * list string) :=
  match geoms with
  | [] => st
  | (name, GTrimesh mesh) :: rest =>
      imported rest (index + 1)
               (dict_set (fst st) name (imported_kwargs mesh),
                mesh_prim_append (snd st) index name)
  | _ :: rest => imported rest index st
  end.

(** The node list that the graph of the scene emits for the exporter. *)
Definition exported_nodes (scene : Scene) : list Node :=
  graph_to_gltf scene
    (map (fun p => (snd p, fst p)) (enumerate (dict_keys (geometry scene)))).

(** A node list without cycles that the importer can walk: node 0, the
    root that the exporter names, is there; every child index is an
    index of the list; a matrix has 16 numbers; and no node is its own
    descendant, which a rank that falls from a node to its children
    shows. *)
Definition acyclic_nodes (nodes : list Node) : Prop :=
  0 < len nodes /\
  exists rank : Z -> nat,
    forall (b : Z) (node : Node),
      0 <= b -> getitem nodes b = Ok node ->
      match node_matrix node with
      | Some m => List.length m = 16%nat
      | None => True
      end /\
      match node_children node with
      | Some children =>
          Forall (fun c => 0 <= c < len nodes /\ (rank c < rank b)%nat) children
      | None => True
      end.

(** The codec reads the JSON chunk of the scene back as the tree that
    was written. *)
Definition json_roundtrip `{NumpyFloat} `{Json} (scene : Scene) : Prop :=
  forall tree items,
    _create_gltf_structure scene false = Ok (tree, items) ->
    json_loads (glb_json_chunk tree items) = Ok (glb_tree tree items).

(** The tree in the GLB file of the scene with one triangle, and a codec
    that reads it back. *)
Definition one_triangle_tree : Document :=
  Eval vm_compute in
    glb_tree (fst one_triangle_structure) (snd one_triangle_structure).

(** The GLB file, with normals, of the scene of a colored and a plain
    triangle. *)
Definition mixed_glb : bytes :=
  Eval vm_compute in
    match @export_glb example_float (fixed_json empty_document)
                      mixed_scene true with
    | Ok exported => exported
    | _ => []
    end.

(** Accessor [i] reads buffer item [i]: the accessors and the buffer
    items are as many, and each accessor names the bufferView of its own
    index. *)
Definition accessors_match (accessors : list Accessor) (items : list bytes)
  : Prop :=
  len accessors = len items /\
  forall (i : nat) (a : Accessor),
    nth_error accessors i = Some a -> acc_bufferView a = Z.of_nat i.

(** A path of one segment, with the vertex list that the renderer makes
    of it. *)
Definition example_path : Path :=
  {| path_vertices := [[f64_zero; f64_zero; f64_zero];
                       [f64_one; f64_zero; f64_zero]];
     path_units := Some "mm"%string;
     vxlist_count := 2;
     vxlist_data := [f64_zero; f64_zero; f64_zero;
                     f64_one; f64_zero; f64_zero] |}.

Definition example_path_structure : Document * list bytes :=
  Eval vm_compute in
    match @_append_path example_float example_path "line"
                        (fst mixed_structure) (snd mixed_structure) with
    | Ok r => r
    | _ => (empty_document, [])
    end.


(** A bufferView of the four bytes of a buffer of eight, and one that
    reaches past its end. *)
Definition example_buffer : bytes := u4_tobytes [1; 2].

Definition inner_view : BufferView :=
  {| view_buffer := 0; view_byteOffset := 4; view_byteLength := 4 |}.

(** A computation of the monad that ends: it returns or raises. *)
Definition ends {A : Type} (m : result A) : Prop :=
  match m with
  | OutOfFuel => False
  | _ => True
  end.

(** A node that is its own child. *)
Definition self_child_nodes : list Node :=
  [{| node_name := None; node_children := Some [0];
      node_matrix := None; node_mesh := None |}].

(** A text of ASCII characters only, as [json.dumps] writes by
    default. *)
Fixpoint ascii_text (s : string) : Prop :=
  match s with
  | EmptyString => True
  | String c s' => Z.of_N (N_of_ascii c) < 128 /\ ascii_text s'
  end.

(** The geometries that the exporter writes: triangle meshes and
    paths. *)
Definition is_exported (g : Geometry) : bool :=
  match g with
  | GTrimesh _ | GPath _ => true
  | GOther => false
  end.

(** Keyword arguments as a caller of [load_glb] may pass them. *)
Definition example_mesh_kwargs : kwargs :=
  [("process"%string, KOther (JBool false));
   ("faces"%string, KOther JNull)].

Definition example_kwargs : kwargs :=
  Eval vm_compute in
    match @primitive_kwargs example_float
            [example_index_array; example_vertex_array] []
            example_mesh_kwargs [] example_primitive with
    | Ok kw => kw
    | _ => []
    end.

(** Whether the importer reads a primitive: its mode is 4 or absent. *)
Definition reads_as_triangles (p : Primitive) : bool :=
  match prim_mode p with
  | Some mode => mode =? 4
  | None => true
  end.

(** The names of the primitives of a mesh with several primitives: the
    name of the mesh and the position of the primitive. *)
Definition primitive_names (m : Mesh) (prims : list (Z * Primitive))
  : list string :=
  map (fun jp => (geometry_name m ++ "_" ++ str_of_int (fst jp))%string)
      (filter (fun jp => reads_as_triangles (snd jp)) prims).

(** A mesh of a line primitive and two triangle primitives, and the
    state of the import after reading it. *)
Definition three_primitive_mesh : Mesh :=
  {| mesh_name := Some "part"%string;
     mesh_primitives :=
       [{| prim_attributes := [("POSITION"%string, 1)];
           prim_indices := None; prim_mode := Some 1;
           prim_material := None |};
        example_primitive; example_primitive];
     mesh_extras := None |}.

Definition read_three : list (string * kwargs) * list (Z * list string) :=
  Eval vm_compute in
    match @read_mesh example_float [example_index_array; example_vertex_array]
                     [] [] 7 three_primitive_mesh ([], []) with
    | Ok st => st
    | _ => ([], [])
    end.

(** A triangle mesh without vertex colors. *)
Definition plain_mesh (g : Geometry) : Prop :=
  match g with
  | GTrimesh mesh => kind (color_visual (visual mesh)) = None
  | _ => False
  end.

(** Its two buffer items: indices and positions. *)
Definition plain_items `{NumpyFloat} (g : Geometry) : list bytes :=
  match g with
  | GTrimesh mesh =>
      [faces_tobytes (faces mesh); vertices_tobytes (vertices mesh)]
  | _ => []
  end.

(** The name of the file of a geometry. *)
Definition buffer_name (name : string) : string :=
  ("mesh_" ++ name ++ ".bin")%string.

(** The files of the geometries, written in order into [files]. *)
Definition mesh_files `{NumpyFloat} (geoms : list (string * Geometry))
           (files : list (string * bytes)) : list (string * bytes) :=
  fold_left (fun fs g => dict_set fs (buffer_name (fst g))
                                  (List.concat (plain_items (snd g))))
            geoms files.

Definition plain_scene : Scene :=
  {| geometry := [("p"%string, GTrimesh plain_triangle);
                  ("q"%string, GTrimesh plain_triangle)];
     graph_to_gltf := flat_graph |}.

Definition plain_structure : Document * list bytes :=
  Eval vm_compute in
    match @_create_gltf_structure example_float plain_scene false with
    | Ok r => r
    | _ => (empty_document, [])
    end.

(** A bufferView of 16 bytes, and accessors into it: two rows of two
    16-bit numbers from byte 4 on; four such rows, of which the bytes
    hold three; a 2x2 matrix of bytes that declares the count 2 and
    finds four bytes where its span has eight; two signed 16-bit
    numbers; and one float, the number 1.0. *)
Definition example_span_bytes : bytes :=
  map byte_of_Z [0; 0; 128; 63; 1; 0; 2; 0; 3; 0; 4; 1; 255; 255; 0; 0].

Definition example_span_views : list bytes := [example_span_bytes].




















(** The buffer of a mesh without vertex colors, and its two
    bufferViews into buffer [k]: the indices from byte 0, the positions
    behind them. *)
Definition plain_buffer `{NumpyFloat} (g : string * Geometry) : Buffer :=
  {| buf_uri := Some (buffer_name (fst g));
     buf_byteLength := len (List.concat (plain_items (snd g))) |}.

Definition plain_views `{NumpyFloat} (k : Z) (g : Geometry) : list BufferView :=
  match g with
  | GTrimesh mesh =>
      [{| view_buffer := k;
          view_byteOffset := 0;
          view_byteLength := len (faces_tobytes (faces mesh)) |};
       {| view_buffer := k;
          view_byteOffset := len (faces_tobytes (faces mesh));
          view_byteLength := len (vertices_tobytes (vertices mesh)) |}]
  | _ => []
  end.

(** The bufferViews of the geometries of a scene, the first one into
    buffer [k]. *)
Definition scene_views `{NumpyFloat} (k : Z) (geoms : list (string * Geometry))
  : list BufferView :=
  List.concat (map (fun kg => plain_views (fst kg) (snd (snd kg)))
                   (enumerate_from k geoms)).

(** Every edge of a geometry ends in the frame named after its
    position in the graph. *)
Definition numbered `{Util} (graph : list Edge) : Prop :=
  forall (i : nat) (e : Edge) (name : string),
    nth_error graph i = Some e -> edge_geometry e = Some name ->
    frame_to e = (name ++ "_" ++ upper (unique_id 6 (Z.of_nat i)))%string.

(** An entry of the queue of the graph loop whose origin has a name and
    whose node exists and has a rank below [r]. *)
Definition below (nodes : list Node) (names : list (key * string))
           (rank : Z -> nat) (r : nat) (entry : key * Z) : Prop :=
  (exists v, names_get names (fst entry) = Some v) /\
  0 <= snd entry < len nodes /\ (rank (snd entry) < r)%nat.

(** An accessor that declares [2^61] numbers of four bytes over the
    same 16 bytes. *)
Definition huge_accessor : Accessor :=
  {| acc_bufferView := 0; acc_byteOffset := None;
     acc_componentType := 5125; acc_count := 2 ^ 61; acc_type := "SCALAR";
     acc_max := None; acc_min := None;
     acc_normalized := None |}.

(* ================================================================== *)
(** * Properties *)

(** ** The monad and Python sequences *)

Lemma bind_Ok {A B : Type} (m : result A) (k : A -> result B) (b : B) :
  bind m k = Ok b -> exists a, m = Ok a /\ k a = Ok b.
Proof. destruct m; simpl; intros E; try discriminate. eauto. Qed.

(** Invert a chain of binds that returned. *)
Ltac bind_inv E :=
  repeat match type of E with
  | bind ?m _ = Ok _ =>
      let a := fresh "a" in let Ea := fresh "Ea" in
      apply bind_Ok in E; destruct E as (a & Ea & E)
  | (let (_, _) := ?p in _) = Ok _ => destruct p
  end.

Lemma len_app {A : Type} (l l' : list A) : len (l ++ l') = len l + len l'.
Proof. unfold len. rewrite length_app. lia. Qed.

Lemma len_nonneg {A : Type} (l : list A) : 0 <= len l.
Proof. unfold len. lia. Qed.

Lemma len_repeat {A : Type} (x : A) (n : nat) : len (repeat x n) = Z.of_nat n.
Proof. unfold len. now rewrite repeat_length. Qed.

Lemma getitem_nth {A : Type} (l : list A) (i : Z) (x : A) :
  0 <= i -> nth_error l (Z.to_nat i) = Some x -> getitem l i = Ok x.
Proof.
  intros Hi Hn. unfold getitem.
  assert (Hlt : (Z.to_nat i < List.length l)%nat)
    by (apply nth_error_Some; congruence).
  destruct (i <? 0) eqn:E; [apply Z.ltb_lt in E; lia|].
  rewrite E. cbn [orb].
  destruct (len l <=? i) eqn:E2; [apply Z.leb_le in E2; unfold len in E2; lia|].
  rewrite Hn. reflexivity.
Qed.

Lemma getitem_middle {A : Type} (l l' : list A) (x : A) :
  getitem (l ++ x :: l') (len l) = Ok x.
Proof.
  apply getitem_nth; [apply len_nonneg|].
  unfold len. rewrite Nat2Z.id, nth_error_app2, Nat.sub_diag by lia. reflexivity.
Qed.

Lemma update_last_snoc {A : Type} (f : A -> A) (l : list A) (x : A) :
  update_last f (l ++ [x]) = l ++ [f x].
Proof.
  induction l as [|y l IH]; [reflexivity|].
  cbn [List.app update_last]. rewrite IH.
  destruct (l ++ [x]) eqn:E; [destruct l; discriminate|reflexivity].
Qed.

(** ** [_byte_pad] *)

(** [_byte_pad] appends fewer than four zero bytes and aligns. *)
Lemma _byte_pad_spec (data : bytes) :
  exists n, _byte_pad data = Ok (data ++ repeat x00 n)
            /\ (n < 4)%nat
            /\ len (data ++ repeat x00 n) mod 4 = 0.
Proof.
  unfold _byte_pad, _byte_pad_bound, py_mod.
  change (4 =? 0) with false. cbn [bind].
  assert (Hr := Z.mod_pos_bound (len data) 4 ltac:(lia)).
  destruct (len data mod 4 =? 0) eqn:E; cbn [negb].
  - exists 0%nat. cbn [repeat]. rewrite app_nil_r. apply Z.eqb_eq in E.
    repeat split; auto; lia.
  - apply Z.eqb_neq in E. unfold zero_bytes.
    destruct (4 - len data mod 4 <? 0) eqn:E2; [apply Z.ltb_lt in E2; lia|].
    cbn [bind].
    assert (Hal : len (data ++ repeat x00 (Z.to_nat (4 - len data mod 4))) mod 4 = 0).
    { rewrite len_app, len_repeat, Z2Nat.id by lia.
      replace (len data + (4 - len data mod 4))
        with (len data - len data mod 4 + 1 * 4) by lia.
      rewrite Z.mod_add by lia.
      rewrite Zminus_mod_idemp_r, Z.sub_diag. reflexivity. }
    rewrite Hal. cbn.
    exists (Z.to_nat (4 - len data mod 4)). repeat split; auto. lia.
Qed.

Lemma _byte_pad_aligned (data : bytes) :
  len data mod 4 = 0 -> _byte_pad data = Ok data.
Proof.
  intros E. unfold _byte_pad, _byte_pad_bound, py_mod.
  change (4 =? 0) with false. cbn [bind]. rewrite E. reflexivity.
Qed.

Lemma _byte_pad_mod4 (data padded : bytes) :
  _byte_pad data = Ok padded -> len padded mod 4 = 0.
Proof.
  destruct (_byte_pad_spec data) as (n & E & _ & Hal).
  rewrite E. intros E'. injection E' as E'. subst padded. exact Hal.
Qed.

Lemma aligned_snoc (items : list bytes) (c : bytes) :
  aligned items -> len c mod 4 = 0 -> aligned (items ++ [c]).
Proof. intros. apply Forall_app. split; auto. Qed.

Ltac pads :=
  repeat match goal with
  | E : _byte_pad _ = Ok _ |- _ => apply _byte_pad_mod4 in E
  end.

(** Drop the equations about array data once they are no longer needed. *)
Ltac forget_data :=
  repeat match goal with
  | E : _byte_pad _ = Ok _ |- _ => clear E
  | E : int_reduce _ _ = Ok _ |- _ => clear E
  | E : axis0_reduce _ _ = Ok _ |- _ => clear E
  | E : assert _ = Ok _ |- _ => clear E
  end.

(** Projections of a tree through the setters. *)
Ltac tree_simpl :=
  unfold materials_of, required in *;
  cbn [doc_scene doc_scenes doc_asset doc_accessors doc_meshes doc_materials
       doc_nodes doc_buffers doc_bufferViews doc_images doc_textures
       set_accessors set_meshes set_materials set_buffers
       set_last_extras set_last_attribute set_last_material
       on_last_primitive0 update_head
       mesh_name mesh_primitives mesh_extras
       prim_attributes prim_indices prim_mode prim_material
       bind] in *;
  rewrite ?update_last_snoc in *;
  cbn [update_head mesh_name mesh_primitives mesh_extras
       prim_attributes prim_indices prim_mode prim_material] in *.

Section ExportProperties.
  Context `{NumpyFloat}.

  (** ** Alignment of the buffer items *)

Lemma _append_mesh_aligned mesh name tree items incl tree' items' :
    _append_mesh mesh name tree items incl = Ok (tree', items') ->
    aligned items -> aligned items'.
  Proof.
    unfold _append_mesh. intros E Hal.
    bind_inv E. pads.
    assert (Hl : aligned l).
    { destruct (kind (color_visual (visual mesh))); bind_inv Ea4; pads;
        injection Ea4 as <- <-; repeat apply aligned_snoc; auto. }
    destruct incl; bind_inv E; pads; injection E as <- <-;
      repeat apply aligned_snoc; auto.
  Qed.

Lemma _append_path_aligned path name tree items tree' items' :
    _append_path path name tree items = Ok (tree', items') ->
    aligned items -> aligned items'.
  Proof.
    unfold _append_path. intros E Hal. bind_inv E. pads.
    injection E as <- <-. apply aligned_snoc; auto.
  Qed.

Lemma append_geometries_aligned geoms : forall tree items incl tree' items',
    append_geometries geoms tree items incl = Ok (tree', items') ->
    aligned items -> aligned items'.
  Proof.
    induction geoms as [|[name g] geoms IH];
      intros tree items incl tree' items' E Hal.
    - injection E as <- <-. exact Hal.
    - cbn [append_geometries] in E. bind_inv E.
      eapply IH; [exact E|].
      destruct g.
      + eapply _append_mesh_aligned; eauto.
      + eapply _append_path_aligned; eauto.
      + injection Ea as <- <-. exact Hal.
  Qed.

  (** C8. Every byte chunk that the structure builder places in the
      buffer-item list (index, position, color, normal and path-vertex
      chunks, all produced through [_byte_pad]) has a length that is a
      multiple of 4; and for every byte string [_byte_pad] with bound 4
      returns bytes whose length modulo 4 is zero. *)
Theorem buffer_chunks_aligned (scene : Scene) (include_normals : bool)
          (tree : Document) (buffer_items : list bytes) :
    _create_gltf_structure scene include_normals = Ok (tree, buffer_items) ->
    Forall (fun chunk => len chunk mod 4 = 0) buffer_items
    /\ forall data : bytes,
        exists padded, _byte_pad data = Ok padded /\ len padded mod 4 = 0.
  Proof.
    intros E. split.
    - unfold _create_gltf_structure in E. bind_inv E.
      injection E as <- <-.
      eapply append_geometries_aligned; [exact Ea|]. constructor.
    - intros data. destruct (_byte_pad_spec data) as (n & E' & _ & Hal).
      eauto.
  Qed.
End ExportProperties.

Section ExportMaterials.
  Context `{NumpyFloat}.

  (** ** Materials in the exported tree *)

  (** [_append_mesh] appends one mesh record with one primitive; a mesh
      without vertex color also appends its derived material and refers
      to it by index. *)
Lemma _append_mesh_extends mesh name tree items incl tree' items' mats :
    _append_mesh mesh name tree items incl = Ok (tree', items') ->
    doc_materials tree = Some mats ->
    exists m p,
      doc_meshes tree' = doc_meshes tree ++ [m] /\
      mesh_name m = Some name /\ mesh_primitives m = [p] /\
      match kind (color_visual (visual mesh)) with
      | Some _ => prim_material p = None /\ doc_materials tree' = Some mats
      | None => prim_material p = Some (len mats) /\
                doc_materials tree' = Some (mats ++ [_mesh_to_material mesh])
      end.
  Proof.
    unfold _append_mesh. intros E Hm. bind_inv E. forget_data.
    destruct (units mesh) as [u|];
      destruct (kind (color_visual (visual mesh))) as [k|];
      bind_inv Ea4; forget_data; tree_simpl;
      repeat match goal with
      | E : match doc_materials tree with _ => _ end = Ok _ |- _ =>
          rewrite Hm in E; injection E as <-
      end;
      injection Ea4 as <- <-;
      destruct incl; bind_inv E; forget_data; injection E as <- <-;
      tree_simpl; eexists; eexists; (split; [reflexivity|]); tree_simpl; auto.
  Qed.

Lemma _append_path_extends path name tree items tree' items' mats :
    _append_path path name tree items = Ok (tree', items') ->
    doc_materials tree = Some mats ->
    exists m, doc_meshes tree' = doc_meshes tree ++ [m] /\
              doc_materials tree' = Some (mats ++ [_default_material]).
  Proof.
    unfold _append_path. intros E Hm. bind_inv E. forget_data.
    unfold materials_of in Ea. rewrite Hm in Ea. injection Ea as <-.
    injection E as <- <-.
    destruct (path_units path); tree_simpl; eexists; split; reflexivity.
  Qed.

Lemma append_geometries_app a : forall b tree items incl,
    append_geometries (a ++ b) tree items incl =
    bind (append_geometries a tree items incl)
         (fun r => append_geometries b (fst r) (snd r) incl).
  Proof.
    induction a as [|[name g] a IH]; intros; [reflexivity|].
    cbn [List.app append_geometries].
    destruct (match g with
              | GTrimesh mesh => _append_mesh mesh name tree items incl
              | GPath path => _append_path path name tree items
              | GOther => Ok (tree, items)
              end) as [[t i]| |]; cbn [bind]; auto.
  Qed.

  (** Over a list of geometries the mesh and material arrays only grow,
      and they gain no material when no geometry derives one. *)
Lemma append_geometries_grow geoms :
    forall tree items incl tree' items' mats,
      append_geometries geoms tree items incl = Ok (tree', items') ->
      doc_materials tree = Some mats ->
      exists ms new,
        doc_meshes tree' = doc_meshes tree ++ ms /\
        doc_materials tree' = Some (mats ++ new) /\
        (Forall (fun g => derives_no_material (snd g)) geoms -> new = []).
  Proof.
    induction geoms as [|[name g] geoms IH];
      intros tree items incl tree' items' mats E Hm.
    - injection E as <- <-. exists [], []. rewrite !app_nil_r. auto.
    - cbn [append_geometries] in E. bind_inv E.
      destruct g as [mesh|path|].
      + destruct (_append_mesh_extends _ _ _ _ _ _ _ _ Ea Hm)
          as (m & p & Hms & _ & _ & Hk).
        destruct (kind (color_visual (visual mesh))) eqn:Ek.
        * destruct Hk as [_ Hk].
          destruct (IH _ _ _ _ _ _ E Hk) as (ms & new & E1 & E2 & E3).
          exists (m :: ms), new. rewrite E1, Hms, <- app_assoc.
          repeat split; auto.
          intros HF. inversion HF; auto.
        * destruct Hk as [_ Hk].
          destruct (IH _ _ _ _ _ _ E Hk) as (ms & new & E1 & E2 & E3).
          exists (m :: ms), (_mesh_to_material mesh :: new).
          rewrite E1, E2, Hms, <- !app_assoc. repeat split; auto.
          intros HF. inversion HF as [|? ? Hd]; subst.
          cbn in Hd. rewrite Ek in Hd. congruence.
      + destruct (_append_path_extends _ _ _ _ _ _ _ Ea Hm) as (m & Hms & Hk).
        destruct (IH _ _ _ _ _ _ E Hk) as (ms & new & E1 & E2 & E3).
        exists (m :: ms), (_default_material :: new).
        rewrite E1, E2, Hms, <- !app_assoc. repeat split; auto.
        intros HF. inversion HF as [|? ? Hd]; subst. destruct Hd.
      + injection Ea as <- <-.
        destruct (IH _ _ _ _ _ _ E Hm) as (ms & new & E1 & E2 & E3).
        exists ms, new. repeat split; auto. intros HF. inversion HF; auto.
  Qed.

  (** C7. When no geometry of the scene derives a material (every
      triangle mesh carries per-vertex color), the exported document
      tree has no "materials" key; conversely every triangle mesh
      without vertex color gets its derived material, which its
      primitive references by index into the "materials" array. *)
Theorem materials_key_omitted_or_referenced
          (scene : Scene) (include_normals : bool)
          (tree : Document) (buffer_items : list bytes) :
    _create_gltf_structure scene include_normals = Ok (tree, buffer_items) ->
    (Forall (fun g => derives_no_material (snd g)) (geometry scene) ->
     doc_materials tree = None)
    /\
    (forall name mesh,
        In (name, GTrimesh mesh) (geometry scene) ->
        kind (color_visual (visual mesh)) = None ->
        exists m p i materials,
          In m (doc_meshes tree) /\ mesh_name m = Some name /\
          mesh_primitives m = [p] /\ prim_material p = Some i /\
          doc_materials tree = Some materials /\
          getitem materials i = Ok (_mesh_to_material mesh)).
  Proof.
    unfold _create_gltf_structure. intros E. bind_inv E.
    injection E as <- <-. split.
    - intros HF.
      destruct (append_geometries_grow _ _ _ _ _ _ [] Ea eq_refl)
        as (ms & new & _ & E2 & E3).
      rewrite (E3 HF) in E2. unfold materials_of in Ea0. rewrite E2 in Ea0.
      injection Ea0 as <-. reflexivity.
    - intros name mesh Hin Hk.
      apply in_split in Hin. destruct Hin as (pre & post & Hg).
      rewrite Hg, append_geometries_app in Ea. bind_inv Ea.
      destruct a0 as [t1 i1].
      cbn [fst snd append_geometries] in Ea. bind_inv Ea.
      destruct (append_geometries_grow _ _ _ _ _ _ [] Ea1 eq_refl)
        as (ms1 & new1 & _ & M1 & _).
      destruct (_append_mesh_extends _ _ _ _ _ _ _ _ Ea2 M1)
        as (m & p & Hms & Hn & Hp & Hmat).
      rewrite Hk in Hmat. destruct Hmat as [Hpm M2].
      destruct (append_geometries_grow _ _ _ _ _ _ _ Ea M2)
        as (ms2 & new2 & Hms2 & M3 & _).
      unfold materials_of in Ea0. rewrite M3 in Ea0. injection Ea0 as <-.
      assert (E0 : (len ((([] ++ new1) ++ [_mesh_to_material mesh]) ++ new2)
                    =? 0) = false).
      { apply Z.eqb_neq. cbn [List.app]. rewrite !len_app.
        pose proof (len_nonneg new1). pose proof (len_nonneg new2).
        change (len [_mesh_to_material mesh]) with 1. lia. }
      cbn [List.app] in *. rewrite E0.
      exists m, p, (len new1), ((new1 ++ [_mesh_to_material mesh]) ++ new2).
      repeat split; auto.
      + rewrite Hms2, Hms. apply in_or_app. left. apply in_or_app. right.
        left. reflexivity.
      + rewrite <- app_assoc. apply getitem_middle.
  Qed.
End ExportMaterials.

(* ------------------------------------------------------------------ *)
(** ** Accessors *)

Lemma per_count_components (type : string) (s : shape) :
  _shapes type = Ok s -> Z.abs (np_product s) = type_components type.
Proof.
  unfold _shapes, type_components.
  repeat match goal with
  | |- context [String.eqb type ?k] => destruct (String.eqb type k)
  end; intros E; try discriminate; injection E as <-; reflexivity.
Qed.

Lemma int_with_int64_exact (op : Z -> Z -> Z) (x y : Z) :
  - 2 ^ 63 <= x < 2 ^ 63 -> - 2 ^ 63 <= op x y < 2 ^ 63 ->
  int_with_int64 op x y = NpInt64 (op x y).
Proof.
  intros Hx Hr. unfold int_with_int64, fits_int64.
  destruct (- 2 ^ 63 <=? x) eqn:E1; [|apply Z.leb_gt in E1; lia].
  destruct (x <? 2 ^ 63) eqn:E2; [|apply Z.ltb_ge in E2; lia].
  cbn [andb]. f_equal. unfold wrap_int64.
  rewrite Z.mod_small; lia.
Qed.

(** While the numbers of the span fit 64-bit integers, [read_accessor]
    slices the span that the design document describes. *)
Lemma read_accessor_unfold views a data d s :
  getitem views (acc_bufferView a) = Ok data ->
  _types (acc_componentType a) = Ok d ->
  _shapes (acc_type a) = Ok s ->
  span_fits_int64 a d ->
  read_accessor views a =
  (flat <- frombuffer (slice data (fst (accessor_span a d))
                             (snd (accessor_span a d))) d ;;
   array <- reshape flat s ;;
   n <- array_len array ;;
   _ <- assert (n =? acc_count a) ;;
   Ok array).
Proof.
  intros E1 E2 E3 (H1 & H2 & H3 & H4). unfold read_accessor.
  unfold accessor_span in *. cbn [fst snd] in *.
  rewrite E1, E2, E3. cbn [bind].
  rewrite (per_count_components _ _ E3).
  rewrite (int_with_int64_exact Z.mul) by lia. cbn [bind].
  rewrite (int_with_int64_exact Z.add) by lia. reflexivity.
Qed.

Lemma chunks_nil fuel n : chunks fuel n [] = [].
Proof. destruct fuel; reflexivity. Qed.

Lemma itemsize_pos d : 0 < itemsize d.
Proof. destruct d; reflexivity. Qed.

Lemma reshape_flat (a : ndarray) :
  reshape a (Shape1 (-1)) =
  Ok {| arr_dtype := arr_dtype a; arr_shape := [len (arr_data a)];
        arr_data := arr_data a |}.
Proof. reflexivity. Qed.

Lemma reshape_rows (a : ndarray) (c : Z) :
  0 < c ->
  reshape a (Shape2 (-1) c) =
  if len (arr_data a) mod c =? 0
  then Ok {| arr_dtype := arr_dtype a;
             arr_shape := [len (arr_data a) / c; c];
             arr_data := arr_data a |}
  else Raise (ValueError "cannot reshape array").
Proof.
  intros Hc. unfold reshape. change (-1 =? -1) with true. cbn [andb].
  destruct (c =? -1) eqn:E; [apply Z.eqb_eq in E; lia|].
  destruct (0 <? c) eqn:E2; [|apply Z.ltb_ge in E2; lia]. reflexivity.
Qed.








(* ------------------------------------------------------------------ *)
(** ** The GLB container *)

Lemma chunks_words (m : nat) : forall (fuel : nat) (bs : bytes),
  List.length bs = (4 * m)%nat -> (List.length bs <= fuel)%nat ->
  map le_value (chunks fuel 4 bs) = map (word bs) (seq 0 m).
Proof.
  induction m as [|m IH]; intros fuel bs Hl Hf.
  - destruct bs; [|discriminate]. now rewrite chunks_nil.
  - destruct fuel as [|fuel]; [lia|].
    destruct bs as [|b bs]; [cbn in Hl; lia|].
    cbn [chunks seq map]. f_equal.
    rewrite IH.
    + rewrite <- seq_shift, map_map. apply map_ext. intros k.
      unfold word. rewrite skipn_skipn. do 3 f_equal. lia.
    + rewrite length_skipn. lia.
    + rewrite length_skipn. cbn [List.length] in *. lia.
Qed.

Lemma frombuffer_u4_words (bs : bytes) (m : nat) :
  List.length bs = (4 * m)%nat ->
  frombuffer_u4 bs = Ok (map (word bs) (seq 0 m)).
Proof.
  intros Hl. unfold frombuffer_u4.
  assert (E : len bs mod 4 = 0).
  { unfold len. rewrite Hl, Nat2Z.inj_mul, Z.mul_comm. apply Z.mod_mul. lia. }
  rewrite E. cbn [Z.eqb negb]. f_equal. apply chunks_words; auto.
Qed.

Lemma frombuffer_u4_raises (bs : bytes) :
  len bs mod 4 <> 0 ->
  frombuffer_u4 bs = Raise (ValueError "buffer size must be a multiple of element size").
Proof.
  intros E. unfold frombuffer_u4. apply Z.eqb_neq in E. rewrite E. reflexivity.
Qed.

Lemma word_firstn (bs : bytes) (n k : nat) :
  (4 * k + 4 <= n)%nat -> word (firstn n bs) k = word bs k.
Proof.
  intros Hk. unfold word. rewrite skipn_firstn_comm, firstn_firstn.
  f_equal. f_equal. lia.
Qed.

Lemma read_spec (f : File) (n : Z) :
  read f n = (firstn (Z.to_nat n) (remaining f),
              advance f (List.length (firstn (Z.to_nat n) (remaining f)))).
Proof. reflexivity. Qed.

Lemma remaining_advance (f : File) (n : nat) :
  remaining (advance f n) = skipn n (remaining f).
Proof. unfold remaining, advance. cbn. rewrite skipn_skipn. f_equal. lia. Qed.

Lemma getitem_map_seq {A} (g : nat -> A) (m : nat) (k : nat) :
  (k < m)%nat -> getitem (map g (seq 0 m)) (Z.of_nat k) = Ok (g k).
Proof.
  intros Hk. apply getitem_nth; [lia|].
  rewrite Nat2Z.id, nth_error_map, nth_error_seq.
  destruct (Nat.ltb_spec k m); [reflexivity|lia].
Qed.

Lemma aligned_length (bs : bytes) :
  len bs mod 4 = 0 -> exists m, List.length bs = (4 * m)%nat.
Proof.
  intros E. apply Z.mod_divide in E; [|lia]. destruct E as [k Hk].
  exists (Z.to_nat k). unfold len in Hk. lia.
Qed.

Section Glb.
  Context `{Json}.

  (** The header as [load_glb] sees it once 20 bytes are there. *)
Lemma load_glb_chunks_header (f : File) :
    20 <= len (remaining f) ->
    let data := remaining f in
    load_glb_chunks f =
    if negb (word data 0 =? _magic_gltf) || negb (word data 1 =? 2)
    then Raise (ValueError "file is not GLTF 2.0")
    else if negb (word data 4 =? _magic_json)
         then Raise (ValueError "no initial JSON header!")
         else
           let json_data := firstn (Z.to_nat (word data 3)) (skipn 20 data) in
           header <- json_loads json_data ;;
           buffers <- read_chunks (S (List.length (file_data f)))
                                  (tell f) (word data 2)
                                  (advance f (20 + List.length json_data)) [] ;;
           Ok (header, buffers).
  Proof.
    intros Hl data. unfold load_glb_chunks. rewrite read_spec.
    change (Z.to_nat 20) with 20%nat. fold data.
    unfold len in Hl. fold data in Hl.
    assert (Hh : List.length (firstn 20 data) = (4 * 5)%nat).
    { rewrite length_firstn. lia. }
    rewrite (frombuffer_u4_words _ 5 Hh). cbn [seq map bind].
    rewrite !word_firstn by lia.
    change (getitem [word data 0; word data 1; word data 2; word data 3; word data 4] 0)
      with (Ok (A:=Z) (word data 0)).
    cbn [bind].
    destruct (word data 0 =? _magic_gltf) eqn:E0; cbn [negb orb bind]; [|reflexivity].
    change (getitem [word data 0; word data 1; word data 2; word data 3; word data 4] 1)
      with (Ok (A:=Z) (word data 1)).
    cbn [bind].
    destruct (word data 1 =? 2) eqn:E1; cbn [negb]; [|reflexivity].
    change (slice [word data 0; word data 1; word data 2; word data 3; word data 4] 2
                  (len [word data 0; word data 1; word data 2; word data 3; word data 4]))
      with [word data 2; word data 3; word data 4].
    cbn [unpack3 bind].
    destruct (word data 4 =? _magic_json) eqn:E4; cbn [negb]; [|reflexivity].
    rewrite read_spec. rewrite remaining_advance. fold data.
    cbn zeta. 
    replace (advance (advance f (List.length (firstn 20 data))) _)
      with (advance f (20 + List.length (firstn (Z.to_nat (word data 3)) (skipn (List.length (firstn 20 data)) data)))).
    2:{ unfold advance. cbn [file_data file_pos]. f_equal.
        rewrite (length_firstn 20). lia. }
    replace (List.length (firstn 20 data)) with 20%nat by (rewrite Hh; reflexivity).
    reflexivity.
  Qed.

  (** One turn of the chunk loop, in terms of the unread bytes. *)
Lemma read_chunks_step (fuel : nat) (start length : Z) (g : File)
        (buffers : list bytes) :
    read_chunks (S fuel) start length g buffers =
    if tell g - start <? length then
      if len (remaining g) <? 8 then Ok buffers
      else if negb (word (remaining g) 1 =? _magic_bin)
           then Raise (ValueError "not binary GLTF!")
           else
             let payload := firstn (Z.to_nat (word (remaining g) 0))
                                   (skipn 8 (remaining g)) in
             if negb (len payload =? word (remaining g) 0)
             then Raise (ValueError "chunk was not expected length!")
             else read_chunks fuel start length
                              (advance g (8 + List.length payload))
                              (buffers ++ [payload])
    else Ok buffers.
  Proof.
    cbn [read_chunks]. destruct (tell g - start <? length); [|reflexivity].
    rewrite read_spec. change (Z.to_nat 8) with 8%nat.
    set (data := remaining g).
    destruct (len data <? 8) eqn:E8.
    - apply Z.ltb_lt in E8.
      assert (E : (len (firstn 8 data) =? 8) = false).
      { apply Z.eqb_neq. unfold len in *. rewrite length_firstn. lia. }
      rewrite E. reflexivity.
    - apply Z.ltb_ge in E8. unfold len in E8.
      assert (Hh : List.length (firstn 8 data) = (4 * 2)%nat)
        by (rewrite length_firstn; lia).
      assert (E : (len (firstn 8 data) =? 8) = true).
      { apply Z.eqb_eq. unfold len. rewrite Hh. reflexivity. }
      rewrite E. cbn [negb].
      rewrite (frombuffer_u4_words _ 2 Hh). cbn [seq map bind unpack2].
      rewrite !word_firstn by lia.
      destruct (word data 1 =? _magic_bin); cbn [negb]; [|reflexivity].
      rewrite read_spec, remaining_advance. fold data. rewrite Hh.
      change (4 * 2)%nat with 8%nat. cbn zeta.
      destruct (negb _); [reflexivity|].
      f_equal. unfold advance. cbn [file_data file_pos]. f_equal. lia.
  Qed.

Lemma read_chunks_reaches (start length : Z) (st st' : File * list bytes) :
    reaches start length st st' ->
    forall fuel, (List.length (remaining (fst st)) < fuel)%nat ->
    exists fuel', (List.length (remaining (fst st')) < fuel')%nat /\
      read_chunks fuel start length (fst st) (snd st) =
      read_chunks fuel' start length (fst st') (snd st').
  Proof.
    induction 1 as [st|st st' st'' Hn Hr IH]; intros fuel Hf.
    - exists fuel. auto.
    - destruct Hn as (Hlt & H8 & Hbin & payload & Hp & Hlen & ->).
      destruct fuel as [|fuel]; [lia|].
      rewrite read_chunks_step.
      apply Z.ltb_lt in Hlt. rewrite Hlt.
      destruct (len (remaining (fst st)) <? 8) eqn:E8; [apply Z.ltb_lt in E8; lia|].
      rewrite Hbin, Z.eqb_refl. cbn [negb]. cbn zeta. rewrite <- Hp.
      rewrite Hlen, Z.eqb_refl. cbn [negb].
      cbn [fst snd] in IH. apply IH.
      rewrite remaining_advance, length_skipn. unfold len in H8. lia.
  Qed.

Lemma short_header_raises (f : File) :
    let data := remaining f in
    (4 <= len data -> word data 0 <> _magic_gltf ->
     raises (load_glb_chunks f) FormatError) /\
    (8 <= len data -> word data 1 <> 2 ->
     raises (load_glb_chunks f) FormatError).
  Proof.
    intros data. unfold load_glb_chunks. rewrite read_spec.
    change (Z.to_nat 20) with 20%nat. fold data.
    set (hd := firstn 20 data).
    assert (Hhd : List.length hd = Nat.min 20 (List.length data))
      by apply length_firstn.
    destruct (Z.eq_dec (len hd mod 4) 0) as [Hal|Hal].
    2:{ rewrite (frombuffer_u4_raises _ Hal). cbn. auto. }
    destruct (aligned_length _ Hal) as [m Hm].
    rewrite (frombuffer_u4_words _ m Hm). cbn [bind].
    unfold len. fold data. split; intros Hl Hw.
    - change 0 with (Z.of_nat 0). rewrite getitem_map_seq by lia.
      unfold hd. rewrite word_firstn by lia. cbn [bind].
      apply Z.eqb_neq in Hw. rewrite Hw. cbn. exact I.
    - change 0 with (Z.of_nat 0). rewrite getitem_map_seq by lia.
      change 1 with (Z.of_nat 1). rewrite getitem_map_seq by lia.
      unfold hd. rewrite !word_firstn by lia. cbn [bind].
      apply Z.eqb_neq in Hw.
      destruct (word data 0 =? _magic_gltf); cbn [negb bind];
        [rewrite Hw|]; cbn; exact I.
  Qed.
End Glb.

Section GlbErrors.
  Context `{NumpyFloat} `{Json} `{Pillow} `{Util}.

Lemma load_glb_raises (fuel : nat) (f : File) (kw : kwargs) :
    raises (load_glb_chunks f) FormatError ->
    raises (load_glb fuel f kw) FormatError.
  Proof.
    unfold load_glb. destruct (load_glb_chunks f) as [[h b]|e|]; cbn; auto.
    intros [].
  Qed.

  (** C3. [load_glb] refuses a container whose magic number is not
      [_magic_gltf], whose version is not 2, or whose first chunk is not
      of type JSON.  After the JSON chunk, at any chunk boundary the loop
      reaches while still inside the declared length: a chunk whose type
      is not BIN is refused, a chunk whose payload is shorter than its
      header declares is refused, and a boundary with fewer than eight
      bytes left ends the loop normally, handing the buffers read so far
      to [_read_buffers].  Every refusal is a [ValueError]. *)
Theorem glb_import_errors (fuel : nat) (f : File) (mesh_kwargs : kwargs) :
    let data := remaining f in
    let result := load_glb fuel f mesh_kwargs in
    (4 <= len data -> word data 0 <> _magic_gltf -> raises result FormatError)
    /\
    (8 <= len data -> word data 1 <> 2 -> raises result FormatError)
    /\
    (20 <= len data -> word data 4 <> _magic_json -> raises result FormatError)
    /\
    (forall header g buffers,
        20 <= len data ->
        word data 0 = _magic_gltf -> word data 1 = 2 ->
        word data 4 = _magic_json ->
        let json_data := firstn (Z.to_nat (word data 3)) (skipn 20 data) in
        json_loads json_data = Ok header ->
        reaches (tell f) (word data 2)
                (advance f (20 + List.length json_data), []) (g, buffers) ->
        tell g - tell f < word data 2 ->
        (8 <= len (remaining g) -> word (remaining g) 1 <> _magic_bin ->
         raises result FormatError)
        /\
        (8 <= len (remaining g) ->
         len (remaining g) - 8 < word (remaining g) 0 ->
         raises result FormatError)
        /\
        (len (remaining g) < 8 ->
         result = _read_buffers fuel header buffers mesh_kwargs)).
  Proof.
    intros data result.
    destruct (short_header_raises f) as [S1 S2]. fold data in S1, S2.
    split; [|split; [|split]].
    - intros. apply load_glb_raises. auto.
    - intros. apply load_glb_raises. auto.
    - intros Hl Hw. apply load_glb_raises.
      rewrite (load_glb_chunks_header f Hl). fold data.
      apply Z.eqb_neq in Hw. rewrite Hw.
      destruct (_ || _); exact I.
    - intros header g buffers Hl Hm0 Hm1 Hm4 json_data Hj Hr Hlt.
      assert (Hres : result =
                buffers <- read_chunks (S (List.length (file_data f)))
                             (tell f) (word data 2)
                             (advance f (20 + List.length json_data)) [] ;;
                _read_buffers fuel header buffers mesh_kwargs).
      { unfold result, load_glb.
        rewrite (load_glb_chunks_header f Hl). fold data.
        rewrite Hm0, Hm1, Hm4, !Z.eqb_refl. cbn [negb orb]. fold json_data.
        rewrite Hj. cbn [bind].
        destruct (read_chunks _ _ _ _ _); reflexivity. }
      destruct (read_chunks_reaches _ _ _ _ Hr (S (List.length (file_data f))))
        as (fuel' & Hf' & Hrc).
      { cbn [fst]. rewrite remaining_advance, length_skipn.
        unfold remaining. rewrite length_skipn. lia. }
      cbn [fst snd] in Hrc, Hf'. rewrite Hrc in Hres.
      destruct fuel' as [|fuel']; [lia|].
      rewrite read_chunks_step in Hres.
      apply Z.ltb_lt in Hlt. rewrite Hlt in Hres.
      split; [|split].
      + intros H8 Hw. rewrite Hres.
        destruct (len (remaining g) <? 8) eqn:E8; [apply Z.ltb_lt in E8; lia|].
        apply Z.eqb_neq in Hw. rewrite Hw. exact I.
      + intros H8 Hw. rewrite Hres.
        destruct (len (remaining g) <? 8) eqn:E8; [apply Z.ltb_lt in E8; lia|].
        destruct (negb (word (remaining g) 1 =? _magic_bin)); [exact I|].
        cbn zeta.
        assert (E : (len (firstn (Z.to_nat (word (remaining g) 0))
                                 (skipn 8 (remaining g)))
                     =? word (remaining g) 0) = false).
        { apply Z.eqb_neq. unfold len in *.
          rewrite length_firstn, length_skipn. lia. }
        rewrite E. exact I.
      + intros H8. rewrite Hres.
        apply Z.ltb_lt in H8. rewrite H8. reflexivity.
  Qed.
End GlbErrors.

(* ------------------------------------------------------------------ *)
(** ** The base frame *)

Lemma names_get_enumerate_from (nodes : list Node) (s : string) :
  forall start,
    names_get (map (fun ix => (KInt (fst ix),
                               match node_name (snd ix) with
                               | Some n => n
                               | None => str_of_int (fst ix)
                               end))
                   (enumerate_from start nodes)) (KStr s) = None.
Proof.
  induction nodes as [|n nodes IH]; intros start; cbn; auto.
Qed.

Lemma world_not_in_node_names (nodes : list Node) (s : string) :
  names_in (node_names nodes) (KStr s) = false.
Proof.
  unfold names_in, node_names, enumerate.
  now rewrite names_get_enumerate_from.
Qed.

Section BaseFrame.
  Context `{NumpyFloat} `{Json} `{Pillow} `{Util}.

  (** C5. [_read_buffers] tests ['world' in names] on a dict whose keys
      are the node indexes, so the test never holds: whatever the nodes
      are named, also when one of them is named [world], the base frame
      returned is the string [world]. *)
Theorem base_frame_is_always_world (fuel : nat) (header : Document)
        (buffers : list bytes) (mesh_kwargs : kwargs) (r : SceneKwargs) :
    _read_buffers fuel header buffers mesh_kwargs = Ok r ->
    base_frame r = "world"%string.
  Proof.
    unfold _read_buffers. intros E. bind_inv E.
    injection E as <-. cbn [base_frame].
    unfold choose_base_frame. now rewrite world_not_in_node_names.
  Qed.
End BaseFrame.

Lemma base_frame_is_always_world_witness :
  In (Some "world"%string) (map node_name (doc_nodes world_document)) /\
  @_read_buffers example_float example_pillow example_util
                 1 world_document [] [] = Ok world_scene /\
  base_frame world_scene = "world"%string.
Proof.
  split; [left; reflexivity|]. split; [reflexivity|].
  apply (@base_frame_is_always_world example_float example_pillow example_util
           1 world_document [] [] world_scene).
  reflexivity.
Defined.

(* ------------------------------------------------------------------ *)
(** ** What [_append_mesh] appends for a mesh with vertex colors *)

Lemma len_single {A : Type} (x : A) : len [x] = 1.
Proof. reflexivity. Qed.

Section ColoredMeshes.
  Context `{NumpyFloat}.

Lemma _append_mesh_colored mesh name tree items tree' items' :
    kind (color_visual (visual mesh)) <> None ->
    _append_mesh mesh name tree items false = Ok (tree', items') ->
    exists fmax vmax vmin new,
      colored_items mesh new /\
      items' = items ++ new /\
      len (vertex_colors (color_visual (visual mesh))) = len (vertices mesh) /\
      faces mesh <> [] /\ vertices mesh <> [] /\
      tree' = set_accessors
                (set_meshes tree
                   (doc_meshes tree ++
                    [colored_mesh_record mesh name (len (doc_accessors tree))]))
                (doc_accessors tree ++
                 colored_accessors mesh (len items) fmax vmax vmin).
  Proof.
    unfold _append_mesh. intros Hk E. bind_inv E.
    destruct (kind (color_visual (visual mesh))) as [kd|]; [|congruence].
    bind_inv Ea4. injection Ea4 as <- <-. injection E as <- <-.
    exists a, a1, a2. eexists. split.
    { do 3 eexists. split; [reflexivity|]. repeat split; eassumption. }
    split; [now rewrite <- !app_assoc|].
    split.
    { unfold assert in Ea5.
      destruct (_ =? _) eqn:El in Ea5; [|discriminate].
      now apply Z.eqb_eq in El. }
    split.
    { intros Hf. rewrite Hf in Ea. discriminate. }
    split.
    { intros Hv. rewrite Hv in Ea1. discriminate. }
    unfold colored_mesh_record, colored_accessors.
    destruct (units mesh) as [u|];
      unfold set_last_attribute, set_last_extras, on_last_primitive0,
        set_accessors, set_meshes; tree_simpl;
      rewrite ?len_app, ?len_single;
      rewrite <- !app_assoc; cbn [List.app];
      cbn [dict_set String.eqb Ascii.eqb Bool.eqb];
      repeat (f_equal; try lia).
  Qed.
End ColoredMeshes.

(* ------------------------------------------------------------------ *)
(** ** The files of [export_gltf] *)

Lemma string_length_append (s t : string) :
  String.length (s ++ t) = (String.length s + String.length t)%nat.
Proof. induction s as [|c s IH]; cbn; auto. Qed.

Lemma string_append_inj_r (s : string) : forall a b : string,
  (a ++ s = b ++ s)%string -> a = b.
Proof.
  induction a as [|c a IH]; intros [|d b] E; cbn in E; auto.
  - apply (f_equal String.length) in E. cbn in E.
    rewrite string_length_append in E. lia.
  - apply (f_equal String.length) in E. cbn in E.
    rewrite string_length_append in E. lia.
  - injection E as -> E. f_equal. auto.
Qed.

Lemma string_append_inj_l (p : string) : forall a b : string,
  (p ++ a = p ++ b)%string -> a = b.
Proof. induction p as [|c p IH]; cbn; intros a b E; auto. injection E. auto. Qed.

Lemma buffer_name_neq (a b : string) :
  a <> b ->
  String.eqb ("mesh_" ++ a ++ ".bin") ("mesh_" ++ b ++ ".bin") = false.
Proof.
  intros Hab. apply String.eqb_neq. intros E. apply Hab.
  apply string_append_inj_l in E. now apply string_append_inj_r in E.
Qed.

Section GltfFiles.
  Context `{NumpyFloat} `{Json}.

  (** C6. [export_gltf] takes the buffer items two by two, whereas a
      mesh with vertex colors appends three of them.  For a scene of two
      such meshes [a] and [b], the file of [b] is therefore the color
      chunk of [a] followed by the index chunk of [b], not the index
      chunk of [b] followed by its vertex chunk. *)
Theorem export_gltf_pairs_items_by_two (a b : string) (ma mb : Trimesh)
        (graph : list (string * Z) -> list Node)
        (files : list (string * bytes)) :
    kind (color_visual (visual ma)) <> None ->
    kind (color_visual (visual mb)) <> None ->
    a <> b ->
    export_gltf {| geometry := [(a, GTrimesh ma); (b, GTrimesh mb)];
                   graph_to_gltf := graph |} = Ok files ->
    exists color_a index_b,
      _byte_pad (colors_tobytes (vertex_colors (color_visual (visual ma))))
        = Ok color_a /\
      _byte_pad (faces_tobytes (faces mb)) = Ok index_b /\
      dict_get files ("mesh_" ++ b ++ ".bin") = Some (color_a ++ index_b).
  Proof.
    intros Ha Hb Hab E. unfold export_gltf in E.
    apply bind_Ok in E. destruct E as ([tree items] & Es & E).
    unfold _create_gltf_structure in Es.
    cbn [geometry append_geometries] in Es.
    bind_inv Es.
    apply bind_Ok in Ea. destruct Ea as ([t1 i1] & E1 & Ea).
    apply bind_Ok in Ea. destruct Ea as ([t2 i2] & E2 & Ea).
    injection Ea as _ <-.
    apply _append_mesh_colored in E1; auto.
    apply _append_mesh_colored in E2; auto.
    destruct E1 as (_ & _ & _ & new1 & (ia & va & ca & -> & _ & _ & Hca) & -> & _).
    destruct E2 as (_ & _ & _ & new2 & (ib & vb & cb & -> & Hib & _ & _) & -> & _).
    injection Es as _ <-.
    exists ca, ib. split; [assumption|]. split; [assumption|].
    cbn [List.app geometry dict_keys map fst] in E.
    change (len [ia; va; ca; ib; vb; cb]) with 6 in E.
    change (range 0 6 2) with [0; 2; 4] in E.
    cbn [zip export_gltf_loop] in E.
    unfold export_gltf_step in E.
    change (getitem [ia; va; ca; ib; vb; cb] (0 + 0)) with (Ok ia) in E.
    change (getitem [ia; va; ca; ib; vb; cb] (0 + 1)) with (Ok va) in E.
    change (getitem [ia; va; ca; ib; vb; cb] (2 + 0)) with (Ok ca) in E.
    change (getitem [ia; va; ca; ib; vb; cb] (2 + 1)) with (Ok ib) in E.
    change (slice [ia; va; ca; ib; vb; cb] 2 (2 + 2)) with [ca; ib] in E.
    cbn [bind gf_files gf_buffers gf_views dict_set] in E.
    rewrite (buffer_name_neq a b Hab) in E.
    cbn [dict_set List.concat List.app] in E.
    injection E as <-.
    rewrite app_nil_r.
    change (dict_get ?d ?k) with (dict_get d k).
    cbn [dict_set String.eqb Ascii.eqb Bool.eqb String.append].
    cbn [dict_get String.eqb Ascii.eqb Bool.eqb String.append].
    fold (String.append a ".bin") (String.append b ".bin").
    rewrite !String.eqb_refl.
    destruct (String.eqb (a ++ ".bin") (b ++ ".bin")) eqn:Eab.
    - apply String.eqb_eq in Eab. apply string_append_inj_r in Eab. contradiction.
    - now rewrite !app_nil_r.
  Qed.
End GltfFiles.

Lemma export_gltf_pairs_items_by_two_witness :
  exists color_a index_b,
    _byte_pad (colors_tobytes
                 (vertex_colors (color_visual (visual colored_triangle))))
      = Ok color_a /\
    _byte_pad (faces_tobytes (faces colored_triangle)) = Ok index_b /\
    dict_get two_triangle_files "mesh_b.bin" = Some (color_a ++ index_b).
Proof.
  apply (@export_gltf_pairs_items_by_two example_float
           (fixed_json empty_document) "a" "b"
           colored_triangle colored_triangle flat_graph two_triangle_files);
    [discriminate | discriminate | discriminate | vm_compute; reflexivity].
Defined.

(* ------------------------------------------------------------------ *)
(** ** Geometries are keyed by name *)

Lemma dict_get_set_same {V : Type} (d : list (string * V)) (k : string) (v : V) :
  dict_get (dict_set d k v) k = Some v.
Proof.
  induction d as [|[k' v'] d IH]; cbn.
  - now rewrite String.eqb_refl.
  - destruct (String.eqb k' k) eqn:E; cbn; rewrite E; auto.
Qed.

Lemma dict_get_set_other {V : Type} (d : list (string * V)) (k k' : string) (v : V) :
  k <> k' -> dict_get (dict_set d k v) k' = dict_get d k'.
Proof.
  intros Hk. induction d as [|[k0 v0] d IH]; cbn.
  - destruct (String.eqb k k') eqn:E; auto.
    apply String.eqb_eq in E. contradiction.
  - destruct (String.eqb k0 k) eqn:E; cbn.
    + apply String.eqb_eq in E. subst k0.
      destruct (String.eqb k k') eqn:E'; auto.
      apply String.eqb_eq in E'. contradiction.
    + now rewrite IH.
Qed.


Lemma mesh_prim_get_append_same mp i name :
  mesh_prim_get (mesh_prim_append mp i name) i = mesh_prim_get mp i ++ [name].
Proof.
  induction mp as [|[i' ns] mp IH]; cbn.
  - now rewrite Z.eqb_refl.
  - destruct (i' =? i) eqn:E; cbn; rewrite E; auto.
Qed.







Section GeometryNames.
  Context `{NumpyFloat}.
  Variable access : list ndarray.
  Variable materials : list PBRMaterial.
  Variable mesh_kwargs : kwargs.










End GeometryNames.



(* ------------------------------------------------------------------ *)
(** ** The edges of one node *)

Lemma len_cons {A : Type} (x : A) (l : list A) : len (x :: l) = 1 + len l.
Proof. unfold len. cbn [List.length]. lia. Qed.

Lemma string_append_inj_same_length (s1 : string) :
  forall s2 t1 t2 : string,
    (s1 ++ t1 = s2 ++ t2)%string -> String.length t1 = String.length t2 ->
    s1 = s2 /\ t1 = t2.
Proof.
  induction s1 as [|c s1 IH]; intros [|d s2] t1 t2 E Hl; cbn in E.
  - auto.
  - apply (f_equal String.length) in E. cbn in E.
    rewrite string_length_append in E. lia.
  - apply (f_equal String.length) in E. cbn in E.
    rewrite string_length_append in E. lia.
  - injection E as -> E. destruct (IH _ _ _ E Hl) as [-> ->]. auto.
Qed.

Lemma upper_length (s : string) : String.length (upper s) = String.length s.
Proof. induction s; cbn; auto. Qed.

Section GraphEdges.
  Context `{Util}.

Lemma append_instances_enumerate from m geometries :
    forall graph start,
      append_instances from m geometries graph =
      graph ++ map (fun kn => instance_edge from m (snd kn)
                                (len graph - start + fst kn))
                   (enumerate_from start geometries).
  Proof.
    induction geometries as [|name rest IH]; intros graph start.
    - cbn. now rewrite app_nil_r.
    - cbn [append_instances enumerate_from map fst snd].
      rewrite (IH _ (start + 1)), <- app_assoc. cbn [List.app].
      do 2 f_equal.
      + f_equal. lia.
      + apply map_ext. intros [k n]. cbn [fst snd]. f_equal.
        rewrite len_app. change (len [_]) with 1. lia.
  Qed.

Lemma enumerate_from_length {A : Type} (l : list A) :
    forall start, List.length (enumerate_from start l) = List.length l.
  Proof. induction l; intros; cbn; auto. Qed.

  (** The matrix of a node, entry by entry: the 16 numbers are the
      columns of the matrix, one after the other. *)
Lemma node_transform_entries (child : Node) (m : list (list float64)) :
    node_transform child = Ok m ->
    len m = 4 /\ Forall (fun row => len row = 4) m /\
    match node_matrix child with
    | Some numbers => len numbers = 16
    | None => True
    end /\
    forall r c, 0 <= r < 4 -> 0 <= c < 4 ->
      entry m r c = match node_matrix child with
                    | Some numbers => getitem numbers (4 * c + r)
                    | None => Ok (if r =? c then f64_one else f64_zero)
                    end.
  Proof.
    unfold node_transform. intros E.
    assert (Hcases : forall r c, 0 <= r < 4 -> 0 <= c < 4 ->
              (r = 0 \/ r = 1 \/ r = 2 \/ r = 3) /\
              (c = 0 \/ c = 1 \/ c = 2 \/ c = 3)) by lia.
    destruct (node_matrix child) as [numbers|].
    - apply bind_Ok in E. destruct E as (rows & Er & E). injection E as <-.
      unfold reshape44 in Er.
      do 17 (destruct numbers as [|? numbers]; try discriminate Er).
      injection Er as <-. cbn [transpose44].
      split; [reflexivity|]. split; [repeat constructor|].
      split; [reflexivity|].
      intros r c Hr Hc. destruct (Hcases r c Hr Hc) as [Hr' Hc'].
      destruct Hr' as [->|[->|[->| ->]]]; destruct Hc' as [->|[->|[->| ->]]];
        reflexivity.
    - injection E as <-.
      split; [reflexivity|]. split; [repeat constructor|].
      split; [exact I|].
      intros r c Hr Hc. destruct (Hcases r c Hr Hc) as [Hr' Hc'].
      destruct Hr' as [->|[->|[->| ->]]]; destruct Hc' as [->|[->|[->| ->]]];
        reflexivity.
  Qed.

Lemma numbered_snoc (graph : list Edge) (e : Edge) :
    numbered graph ->
    (forall name, edge_geometry e = Some name ->
       frame_to e = (name ++ "_" ++ upper (unique_id 6 (len graph)))%string) ->
    numbered (graph ++ [e]).
  Proof.
    intros Hg He i e' name Hi Hn.
    destruct (Nat.lt_ge_cases i (List.length graph)) as [Hlt|Hge].
    - rewrite nth_error_app1 in Hi by exact Hlt. now apply Hg.
    - rewrite nth_error_app2 in Hi by exact Hge.
      destruct (i - List.length graph)%nat as [|k] eqn:Ek.
      + cbn in Hi. injection Hi as <-.
        replace (Z.of_nat i) with (len graph) by (unfold len; lia).
        now apply He.
      + cbn in Hi. now destruct k.
  Qed.

Lemma append_instances_numbered from m geometries :
    forall graph, numbered graph ->
                  numbered (append_instances from m geometries graph).
  Proof.
    induction geometries as [|name rest IH]; intros graph Hg; cbn; auto.
    apply IH, numbered_snoc; auto.
    cbn. intros name' E. now injection E as <-.
  Qed.

Lemma visit_numbered nodes names mesh_prim a b queue graph queue' graph' :
    visit nodes names mesh_prim a b queue graph = Ok (queue', graph') ->
    numbered graph -> numbered graph'.
  Proof.
    unfold visit. intros E Hg. bind_inv E.
    assert (Hs : numbered (graph ++ [{| frame_from := a1; frame_to := a2;
                                        matrix := a3;
                                        edge_geometry := None |}])).
    { apply numbered_snoc; auto. cbn. discriminate. }
    destruct (node_mesh a0); injection E as _ <-; auto.
    now apply append_instances_numbered.
  Qed.

Lemma walk_numbered nodes names mesh_prim fuel :
    forall queue graph graph',
      walk nodes names mesh_prim fuel queue graph = Ok graph' ->
      numbered graph -> numbered graph'.
  Proof.
    induction fuel as [|fuel IH]; intros queue graph graph' E Hg.
    - destruct queue as [|[a b] queue]; [|discriminate].
      now injection E as <-.
    - destruct queue as [|[a b] queue]; [now injection E as <-|].
      cbn [walk] in E. apply bind_Ok in E.
      destruct E as ([queue1 graph1] & Ev & E).
      eapply IH; [exact E|]. eapply visit_numbered; eauto.
  Qed.

  (** C4. One turn of the graph loop, for the popped pair [(a, b)],
      appends exactly one structural edge from the name of [a] to the
      name of [b], carrying the matrix of node [b]: four rows of four
      numbers whose entry in row [r] and column [c] is number [4 c + r]
      of the 16 of the node (they are reshaped to 4x4 and transposed),
      and the identity when the node has none.  When the node refers to
      a mesh with [N] generated geometry names the turn then appends [N]
      more edges with the same origin and matrix, the [k]-th naming its
      geometry and ending in the frame [name_ID], where [ID] is
      [unique_id] asked for 6 characters with the number of edges then
      in the graph as increment.  The node contributes [N + 1] edges.
      Over the whole loop, every edge of a geometry carries the
      identifier of its own position in the graph; so, for a
      [unique_id] that gives 6 characters and tells the positions of
      the graph apart, no two edges of geometries of the graph, of the
      same node or of different ones, end in the same frame. *)
Theorem visit_appends_edges (nodes : list Node) (names : list (key * string))
        (mesh_prim : list (Z * list string)) :
    (forall (a : key) (b : Z) (queue : list (key * Z)) (graph : list Edge)
            (queue' : list (key * Z)) (graph' : list Edge),
        visit nodes names mesh_prim a b queue graph = Ok (queue', graph') ->
        exists child from to m,
          getitem nodes b = Ok child /\
          names_item names a = Ok from /\
          names_item names (KInt b) = Ok to /\
          len m = 4 /\ Forall (fun row => len row = 4) m /\
          match node_matrix child with
          | Some numbers => len numbers = 16
          | None => True
          end /\
          (forall r c, 0 <= r < 4 -> 0 <= c < 4 ->
             entry m r c = match node_matrix child with
                           | Some numbers => getitem numbers (4 * c + r)
                           | None => Ok (if r =? c then f64_one else f64_zero)
                           end) /\
          let geometries := node_geometries mesh_prim child in
          let instances :=
            map (fun kn =>
                   {| frame_from := from;
                      frame_to :=
                        (snd kn ++ "_" ++
                         upper (unique_id 6 (len graph + 1 + fst kn)))%string;
                      matrix := m;
                      edge_geometry := Some (snd kn) |})
                (enumerate geometries) in
          graph' = graph ++ structural_edge from to m :: instances /\
          len instances = len geometries /\
          len graph' = len graph + (len geometries + 1))
    /\
    (forall (fuel : nat) (queue : list (key * Z)) (graph : list Edge),
        walk nodes names mesh_prim fuel queue [] = Ok graph ->
        (forall (i : nat) (e : Edge) (name : string),
            nth_error graph i = Some e -> edge_geometry e = Some name ->
            frame_to e
            = (name ++ "_" ++ upper (unique_id 6 (Z.of_nat i)))%string) /\
        ((forall n, 0 <= n < len graph ->
                    String.length (unique_id 6 n) = 6%nat) ->
         (forall n n', 0 <= n < len graph -> 0 <= n' < len graph ->
                       upper (unique_id 6 n) = upper (unique_id 6 n') ->
                       n = n') ->
         forall (i j : nat) (e e' : Edge),
           nth_error graph i = Some e -> nth_error graph j = Some e' ->
           edge_geometry e <> None -> edge_geometry e' <> None ->
           frame_to e = frame_to e' -> i = j)).
  Proof.
    split.
    - intros a b queue graph queue' graph'.
      unfold visit. intros E. bind_inv E.
      exists a0, a1, a2, a3.
      repeat (split; [assumption|]).
      destruct (node_transform_entries _ _ Ea2) as (Hm4 & Hrows & Hn & Hent).
      repeat (split; [assumption|]).
      cbn zeta.
      assert (Hg : graph' = append_instances a1 a3 (node_geometries mesh_prim a0)
                              (graph ++ [structural_edge a1 a2 a3])).
      { unfold node_geometries.
        destruct (node_mesh a0); injection E as _ <-; reflexivity. }
      rewrite (append_instances_enumerate _ _ _ _ 0) in Hg.
      rewrite <- app_assoc in Hg. cbn [List.app] in Hg.
      assert (Hi : forall l,
        map (fun kn => instance_edge a1 a3 (snd kn)
                         (len (graph ++ [structural_edge a1 a2 a3]) - 0 + fst kn)) l
        = map (fun kn =>
                 {| frame_from := a1;
                    frame_to :=
                      (snd kn ++ "_" ++
                       upper (unique_id 6 (len graph + 1 + fst kn)))%string;
                    matrix := a3;
                    edge_geometry := Some (snd kn) |}) l).
      { intros l. apply map_ext. intros [k n]. unfold instance_edge.
        cbn [fst snd]. rewrite len_app. change (len [_]) with 1.
        now replace (len graph + 1 - 0 + k) with (len graph + 1 + k) by lia. }
      rewrite Hi in Hg. clear Hi.
      split; [exact Hg|].
      assert (Hl : forall (g : Z * string -> Edge),
                 len (map g (enumerate (node_geometries mesh_prim a0)))
                 = len (node_geometries mesh_prim a0)).
      { intros g. unfold len, enumerate.
        now rewrite length_map, enumerate_from_length. }
      split; [apply Hl|].
      rewrite Hg, len_app, len_cons, Hl. lia.
    - intros fuel queue graph E.
      assert (Hnum : numbered graph).
      { eapply walk_numbered; [exact E|]. intros [|i] e name Hi; discriminate. }
      split; [exact Hnum|].
      intros H6 Hinj i j e e' Hi Hj He He' Eto.
      destruct (edge_geometry e) as [name|] eqn:En; [|contradiction].
      destruct (edge_geometry e') as [name'|] eqn:En'; [|contradiction].
      rewrite (Hnum _ _ _ Hi En), (Hnum _ _ _ Hj En') in Eto.
      assert (Hil : (i < List.length graph)%nat)
        by (apply nth_error_Some; congruence).
      assert (Hjl : (j < List.length graph)%nat)
        by (apply nth_error_Some; congruence).
      assert (Hir : 0 <= Z.of_nat i < len graph) by (unfold len; lia).
      assert (Hjr : 0 <= Z.of_nat j < len graph) by (unfold len; lia).
      apply string_append_inj_same_length in Eto.
      + destruct Eto as [_ Eto]. cbn in Eto. injection Eto as Eto.
        apply Nat2Z.inj. now apply Hinj.
      + cbn. rewrite !upper_length, !H6; auto.
  Qed.
End GraphEdges.

Lemma visit_appends_edges_witness :
  (exists child from to m,
      getitem matrix_nodes 1 = Ok child /\
      names_item matrix_names (KInt 0) = Ok from /\
      names_item matrix_names (KInt 1) = Ok to /\
      len m = 4 /\ Forall (fun row => len row = 4) m /\
      match node_matrix child with
      | Some numbers => len numbers = 16
      | None => True
      end /\
      (forall r c, 0 <= r < 4 -> 0 <= c < 4 ->
         entry m r c = match node_matrix child with
                       | Some numbers => getitem numbers (4 * c + r)
                       | None => Ok (if r =? c then f64_one else f64_zero)
                       end) /\
      let geometries := node_geometries matrix_mesh_prim child in
      let instances :=
        map (fun kn =>
               {| frame_from := from;
                  frame_to :=
                    (snd kn ++ "_" ++
                     upper (@unique_id example_util 6 (1 + 1 + fst kn)))%string;
                  matrix := m;
                  edge_geometry := Some (snd kn) |})
            (enumerate geometries) in
      snd matrix_visit
      = [structural_edge "world" "world" eye4]
          ++ structural_edge from to m :: instances /\
      len instances = len geometries /\
      len (snd matrix_visit) = 1 + (len geometries + 1))
  /\
  (forall (i : nat) (e : Edge) (name : string),
      nth_error matrix_graph i = Some e -> edge_geometry e = Some name ->
      frame_to e
      = (name ++ "_" ++ upper (@unique_id example_util 6 (Z.of_nat i)))%string)
  /\
  (forall (i j : nat) (e e' : Edge),
      nth_error matrix_graph i = Some e -> nth_error matrix_graph j = Some e' ->
      edge_geometry e <> None -> edge_geometry e' <> None ->
      frame_to e = frame_to e' -> i = j).
Proof.
  destruct (@visit_appends_edges example_util matrix_nodes matrix_names
              matrix_mesh_prim) as [Hvisit Hwalk].
  split.
  - apply (Hvisit (KInt 0) 1 [] [structural_edge "world" "world" eye4]
                  (fst matrix_visit) (snd matrix_visit)).
    vm_compute. reflexivity.
  - destruct (Hwalk 5%nat [(KStr "world", 0)] matrix_graph eq_refl)
      as [Hnum Huniq].
    split; [exact Hnum|].
    assert (Hcases : forall n, 0 <= n < len matrix_graph ->
              n = 0 \/ n = 1 \/ n = 2 \/ n = 3 \/ n = 4 \/ n = 5 \/ n = 6).
    { intros n. change (len matrix_graph) with 7. lia. }
    apply Huniq.
    + intros n Hn.
      destruct (Hcases n Hn) as [->|[->|[->|[->|[->|[->| ->]]]]]]; reflexivity.
    + intros n n' Hn Hn'.
      destruct (Hcases n Hn) as [->|[->|[->|[->|[->|[->| ->]]]]]];
        destruct (Hcases n' Hn') as [->|[->|[->|[->|[->|[->| ->]]]]]];
        intros E; try reflexivity; vm_compute in E; discriminate E.
Defined.

(* ------------------------------------------------------------------ *)
(** ** The statements at the examples *)

Lemma buffer_chunks_aligned_witness :
  Forall (fun chunk => len chunk mod 4 = 0) (snd one_triangle_structure)
  /\ forall data : bytes,
      exists padded, _byte_pad data = Ok padded /\ len padded mod 4 = 0.
Proof.
  apply (@buffer_chunks_aligned example_float one_triangle_scene false
           (fst one_triangle_structure) (snd one_triangle_structure)).
  vm_compute. reflexivity.
Defined.

Lemma materials_key_omitted_or_referenced_witness :
  (Forall (fun g => derives_no_material (snd g)) (geometry mixed_scene) ->
   doc_materials (fst mixed_structure) = None)
  /\
  (forall name mesh,
      In (name, GTrimesh mesh) (geometry mixed_scene) ->
      kind (color_visual (visual mesh)) = None ->
      exists m p i materials,
        In m (doc_meshes (fst mixed_structure)) /\ mesh_name m = Some name /\
        mesh_primitives m = [p] /\ prim_material p = Some i /\
        doc_materials (fst mixed_structure) = Some materials /\
        getitem materials i = Ok (@_mesh_to_material example_float mesh)).
Proof.
  apply (@materials_key_omitted_or_referenced example_float mixed_scene false
           (fst mixed_structure) (snd mixed_structure)).
  vm_compute. reflexivity.
Defined.

Lemma glb_import_errors_witness :
  @load_glb example_float (fixed_json empty_document) example_pillow
            example_util 1 short_file []
  = @_read_buffers example_float example_pillow example_util
                   1 empty_document [] [].
Proof.
  destruct (@glb_import_errors example_float (fixed_json empty_document)
              example_pillow example_util 1 short_file [])
    as (_ & _ & _ & Hloop).
  apply (Hloop empty_document (advance short_file 24) []);
    try reflexivity; try (vm_compute; congruence).
  constructor.
Defined.

(* ------------------------------------------------------------------ *)
(** ** Little-endian numbers *)

Lemma Z_of_byte_of_Z (z : Z) : Z_of_byte (byte_of_Z z) = z mod 256.
Proof.
  unfold Z_of_byte, byte_of_Z.
  assert (Hr := Z.mod_pos_bound z 256 ltac:(lia)).
  destruct (Byte.of_N (Z.to_N (z mod 256))) as [b|] eqn:E.
  - apply Byte.to_of_N in E. rewrite E. lia.
  - apply Byte.of_N_None_iff in E. lia.
Qed.

Lemma Z_of_byte_range (b : byte) : 0 <= Z_of_byte b < 256.
Proof.
  unfold Z_of_byte. assert (H := Byte.to_N_bounded b). lia.
Qed.

Lemma le_bytes_length (n : nat) : forall v, List.length (le_bytes n v) = n.
Proof. induction n; intros; cbn; auto. Qed.

Lemma le_value_le_bytes (n : nat) : forall v,
  le_value (le_bytes n v) = v mod 256 ^ Z.of_nat n.
Proof.
  induction n as [|n IH]; intros v.
  - cbn. now rewrite Z.mod_1_r.
  - cbn [le_bytes le_value]. rewrite Z_of_byte_of_Z, IH.
    rewrite Nat2Z.inj_succ, Z.pow_succ_r by lia.
    rewrite (Z.mul_comm 256), Z.rem_mul_r by lia. lia.
Qed.

Lemma le_value_u4 (v : Z) : 0 <= v < 2 ^ 32 -> le_value (le_bytes 4 v) = v.
Proof.
  intros Hv. rewrite le_value_le_bytes. apply Z.mod_small.
  change (256 ^ Z.of_nat 4) with (2 ^ 32). lia.
Qed.

Lemma u4_tobytes_length (values : list Z) :
  List.length (u4_tobytes values) = (4 * List.length values)%nat.
Proof.
  unfold u4_tobytes. induction values as [|v vs IH]; cbn [map List.concat]; auto.
  rewrite length_app, le_bytes_length, IH. cbn [List.length]. lia.
Qed.

Lemma u4_tobytes_cons (v : Z) (values : list Z) :
  u4_tobytes (v :: values) = le_bytes 4 v ++ u4_tobytes values.
Proof. reflexivity. Qed.

(** The [k]-th word of an array of 32-bit numbers written by [tobytes]. *)
Lemma word_u4_tobytes (values : list Z) : forall (k : nat) (v : Z) (rest : bytes),
  nth_error values k = Some v ->
  word (u4_tobytes values ++ rest) k = v mod 2 ^ 32.
Proof.
  induction values as [|v0 vs IH]; intros k v rest Hn.
  - destruct k; discriminate.
  - rewrite u4_tobytes_cons, <- app_assoc. unfold word.
    destruct k as [|k].
    + injection Hn as <-. change (4 * 0)%nat with 0%nat. cbn [skipn].
      rewrite firstn_app, le_bytes_length, Nat.sub_diag.
      rewrite firstn_O, app_nil_r.
      rewrite firstn_all2 by (rewrite le_bytes_length; lia).
      apply le_value_le_bytes.
    + replace (4 * S k)%nat with (4 * k + 4)%nat by lia.
      rewrite <- skipn_skipn.
      rewrite skipn_app, le_bytes_length, Nat.sub_diag.
      rewrite (skipn_all2 (le_bytes 4 v0)) by (rewrite le_bytes_length; lia).
      cbn [List.app skipn]. apply (IH k v rest Hn).
Qed.

Lemma word_skipn (bs : bytes) (n k : nat) :
  word (skipn (4 * n) bs) k = word bs (n + k).
Proof.
  unfold word. rewrite skipn_skipn. do 3 f_equal. lia.
Qed.

(* ------------------------------------------------------------------ *)
(** ** The layout of a GLB file *)

Section GlbLayout.
  Context `{NumpyFloat} `{Json}.

Lemma export_glb_layout (scene : Scene) (include_normals : bool)
        (exported : bytes) :
    export_glb scene include_normals = Ok exported ->
    exists tree buffer_items,
      _create_gltf_structure scene include_normals = Ok (tree, buffer_items) /\
      let json_chunk := glb_json_chunk tree buffer_items in
      let bin_chunk := List.concat buffer_items in
      len json_chunk mod 4 = 0 /\
      exported =
        u4_tobytes [_magic_gltf; 2; len json_chunk + len bin_chunk + 28;
                    len json_chunk; _magic_json]
        ++ json_chunk
        ++ u4_tobytes [len bin_chunk; _magic_bin]
        ++ bin_chunk.
  Proof.
    unfold export_glb. intros E.
    apply bind_Ok in E. destruct E as ([tree items] & Es & E).
    exists tree, items. split; [assumption|].
    fold (glb_tree tree items) in E. fold (glb_json_chunk tree items) in E.
    cbn zeta.
    set (json_chunk := glb_json_chunk tree items) in *.
    set (bin_chunk := List.concat items) in *.
    apply bind_Ok in E. destruct E as (u & Eu & E).
    unfold assert in Eu.
    destruct (len json_chunk mod 4 =? 0) eqn:Em; [|discriminate].
    apply Z.eqb_eq in Em. split; [assumption|].
    rewrite !_byte_pad_aligned in E.
    - cbn [bind] in E. now injection E as <-.
    - unfold len. now rewrite u4_tobytes_length.
    - unfold len. now rewrite u4_tobytes_length.
  Qed.

  (** C2. In the bytes of [export_glb] the total-length field (the
      32-bit word at offset 8) is 28 plus the length of the padded JSON
      chunk plus the length of the binary chunk, which is the length of
      the file; the JSON chunk-length field (offset 12) is the length of
      the padded JSON payload, and the BIN chunk-length field (the word
      that follows the JSON payload) is the length of the binary
      payload.  The fields are 32 bits wide, so this is for files
      shorter than [2^32] bytes. *)
Theorem glb_header_lengths (scene : Scene) (include_normals : bool)
          (exported : bytes) :
    export_glb scene include_normals = Ok exported ->
    len exported < 2 ^ 32 ->
    exists tree buffer_items,
      _create_gltf_structure scene include_normals = Ok (tree, buffer_items) /\
      let json_chunk := glb_json_chunk tree buffer_items in
      let bin_chunk := List.concat buffer_items in
      exported = firstn 20 exported ++ json_chunk
                 ++ firstn 8 (skipn (20 + List.length json_chunk) exported)
                 ++ bin_chunk /\
      len exported = 28 + len json_chunk + len bin_chunk /\
      word exported 2 = 28 + len json_chunk + len bin_chunk /\
      word exported 3 = len json_chunk /\
      word (skipn (20 + List.length json_chunk) exported) 0 = len bin_chunk.
  Proof.
    intros E Hlt.
    destruct (export_glb_layout _ _ _ E) as (tree & items & Es & Em & Ex).
    exists tree, items. split; [assumption|]. cbn zeta in *.
    set (json_chunk := glb_json_chunk tree items) in *.
    set (bin_chunk := List.concat items) in *.
    set (head := u4_tobytes [_magic_gltf; 2; len json_chunk + len bin_chunk + 28;
                             len json_chunk; _magic_json]) in *.
    set (bin_head := u4_tobytes [len bin_chunk; _magic_bin]) in *.
    assert (Hh : List.length head = 20%nat) by apply u4_tobytes_length.
    assert (Hb : List.length bin_head = 8%nat) by apply u4_tobytes_length.
    assert (Hlen : len exported = 28 + len json_chunk + len bin_chunk).
    { rewrite Ex, !len_app. unfold len at 1 3. rewrite Hh, Hb. lia. }
    assert (Hj := len_nonneg json_chunk). assert (Hbn := len_nonneg bin_chunk).
    assert (Hskip : skipn (20 + List.length json_chunk) exported
                    = bin_head ++ bin_chunk).
    { rewrite Ex. rewrite (Nat.add_comm 20), <- skipn_skipn.
      rewrite skipn_app, Hh, Nat.sub_diag, (skipn_all2 head) by lia.
      cbn [List.app skipn].
      rewrite skipn_app, Nat.sub_diag, (skipn_all2 json_chunk) by lia.
      reflexivity. }
    split.
    { rewrite Hskip. rewrite firstn_app, Hb, Nat.sub_diag.
      rewrite firstn_O, app_nil_r, (firstn_all2 bin_head) by lia.
      rewrite Ex at 2. rewrite firstn_app, Hh, Nat.sub_diag.
      rewrite firstn_O, app_nil_r, (firstn_all2 head) by lia.
      exact Ex. }
    split; [exact Hlen|].
    split.
    { rewrite Ex. unfold head.
      erewrite word_u4_tobytes by reflexivity. rewrite Z.mod_small; lia. }
    split.
    { rewrite Ex. unfold head.
      erewrite word_u4_tobytes by reflexivity. rewrite Z.mod_small; lia. }
    rewrite Hskip. unfold bin_head.
    erewrite word_u4_tobytes by reflexivity. rewrite Z.mod_small; lia.
  Qed.
End GlbLayout.

Lemma glb_header_lengths_witness :
  exists tree buffer_items,
    @_create_gltf_structure example_float one_triangle_scene false
      = Ok (tree, buffer_items) /\
    let json_chunk :=
      @glb_json_chunk (fixed_json empty_document) tree buffer_items in
    let bin_chunk := List.concat buffer_items in
    one_triangle_glb
      = firstn 20 one_triangle_glb ++ json_chunk
        ++ firstn 8 (skipn (20 + List.length json_chunk) one_triangle_glb)
        ++ bin_chunk /\
    len one_triangle_glb = 28 + len json_chunk + len bin_chunk /\
    word one_triangle_glb 2 = 28 + len json_chunk + len bin_chunk /\
    word one_triangle_glb 3 = len json_chunk /\
    word (skipn (20 + List.length json_chunk) one_triangle_glb) 0
      = len bin_chunk.
Proof.
  apply (@glb_header_lengths example_float (fixed_json empty_document)
           one_triangle_scene false one_triangle_glb);
    vm_compute; reflexivity.
Defined.

(* ------------------------------------------------------------------ *)
(** ** The structure exported for colored meshes *)

Lemma concat_fixed_length {A B : Type} (f : A -> list B) (n : nat) (l : list A) :
  (forall x, List.length (f x) = n) ->
  List.length (List.concat (map f l)) = (n * List.length l)%nat.
Proof.
  intros Hf. induction l as [|x l IH]; cbn [map List.concat List.length].
  - lia.
  - rewrite length_app, Hf, IH. lia.
Qed.

Section ColoredStructure.
  Context `{NumpyFloat}.

Lemma faces_tobytes_length (fs : list (Z * Z * Z)) :
    List.length (faces_tobytes fs) = (12 * List.length fs)%nat.
  Proof.
    unfold faces_tobytes. rewrite u4_tobytes_length.
    rewrite (concat_fixed_length face_row 3); [lia|].
    now intros [[a b] c].
  Qed.

Lemma floats_tobytes_length (l : list float64) :
    List.length (floats_tobytes l) = (4 * List.length l)%nat.
  Proof.
    unfold floats_tobytes.
    apply (concat_fixed_length (fun x => float32_tobytes (astype_float32 x))).
    intros x. now destruct (astype_float32 x).
  Qed.

Lemma vertices_tobytes_length (vs : list vec3) :
    List.length (vertices_tobytes vs) = (12 * List.length vs)%nat.
  Proof.
    unfold vertices_tobytes. rewrite floats_tobytes_length.
    rewrite (concat_fixed_length vec3_row 3); [lia|].
    now intros [[a b] c].
  Qed.

Lemma colors_tobytes_length (cs : list (Z * Z * Z * Z)) :
    List.length (colors_tobytes cs) = (4 * List.length cs)%nat.
  Proof.
    unfold colors_tobytes.
    rewrite (concat_fixed_length (le_bytes 1) 1) by reflexivity.
    rewrite (concat_fixed_length rgba_row 4); [lia|].
    now intros [[[a b] c] d].
  Qed.

Lemma pad_multiple_of_4 (data : bytes) (n : nat) :
    List.length data = (4 * n)%nat -> _byte_pad data = Ok data.
  Proof.
    intros Hl. apply _byte_pad_aligned. unfold len. rewrite Hl.
    rewrite Nat2Z.inj_mul, Z.mul_comm. apply Z.mod_mul. lia.
  Qed.

Lemma colored_items_are_unpadded (mesh : Trimesh) (items : list bytes) :
    colored_items mesh items -> items = mesh_items mesh.
  Proof.
    intros (i & v & c & -> & Ei & Ev & Ec). unfold mesh_items.
    rewrite (pad_multiple_of_4 _ (3 * List.length (faces mesh))) in Ei
      by (rewrite faces_tobytes_length; lia).
    rewrite (pad_multiple_of_4 _ (3 * List.length (vertices mesh))) in Ev
      by (rewrite vertices_tobytes_length; lia).
    rewrite (pad_multiple_of_4 _ (List.length (vertex_colors (color_visual (visual mesh))))) in Ec
      by (rewrite colors_tobytes_length; lia).
    congruence.
  Qed.

Lemma append_geometries_colored geoms :
    forall tree items tree' items',
      Forall (fun g => colored_mesh (snd g)) geoms ->
      append_geometries geoms tree items false = Ok (tree', items') ->
      exists accs ms its,
        exported_as geoms (len (doc_accessors tree)) (len items) accs ms its /\
        items' = items ++ its /\
        tree' = set_accessors (set_meshes tree (doc_meshes tree ++ ms))
                              (doc_accessors tree ++ accs).
  Proof.
    induction geoms as [|[name g] geoms IH]; intros tree items tree' items' HF E.
    - cbn in E. injection E as <- <-. exists [], [], [].
      split; [cbn; auto|]. rewrite !app_nil_r. split; auto.
      now destruct tree.
    - inversion HF as [|? ? Hc HF']; subst. cbn [snd] in Hc.
      destruct g as [mesh| |]; cbn in Hc; try contradiction.
      cbn [append_geometries] in E.
      apply bind_Ok in E. destruct E as ([t1 i1] & E1 & E).
      apply _append_mesh_colored in E1; auto.
      destruct E1 as (fmax & vmax & vmin & new & Hnew & -> & Hlen & _ & _ & ->).
      apply colored_items_are_unpadded in Hnew. subst new.
      destruct (IH _ _ _ _ HF' E) as (accs & ms & its & Hex & -> & ->).
      exists (colored_accessors mesh (len items) fmax vmax vmin ++ accs),
             (colored_mesh_record mesh name (len (doc_accessors tree)) :: ms),
             (mesh_items mesh ++ its).
      split.
      { cbn [exported_as]. exists fmax, vmax, vmin, accs, ms, its.
        repeat (split; [reflexivity || assumption|]).
        revert Hex. tree_simpl. rewrite !len_app.
        change (len (colored_accessors mesh (len items) fmax vmax vmin)) with 3.
        change (len (mesh_items mesh)) with 3. auto. }
      split; [now rewrite app_assoc|].
      unfold set_accessors, set_meshes. tree_simpl.
      rewrite <- !app_assoc. reflexivity.
  Qed.

  (** The structure of a scene of colored meshes. *)
Lemma _create_gltf_structure_colored (scene : Scene)
        (tree : Document) (items : list bytes) :
    Forall (fun g => colored_mesh (snd g)) (geometry scene) ->
    _create_gltf_structure scene false = Ok (tree, items) ->
    exists accs ms,
      exported_as (geometry scene) 0 0 accs ms items /\
      tree = {| doc_scene := 0;
                doc_scenes := [{| scene_nodes := [0] |}];
                doc_asset := Some {| asset_version := "2.0";
                                     asset_generator :=
                                       "github.com/mikedh/trimesh" |};
                doc_accessors := accs;
                doc_meshes := ms;
                doc_materials := None;
                doc_nodes :=
                  graph_to_gltf scene
                    (map (fun p => (snd p, fst p))
                         (enumerate (dict_keys (geometry scene))));
                doc_buffers := None;
                doc_bufferViews := None;
                doc_images := None;
                doc_textures := None |}.
  Proof.
    unfold _create_gltf_structure. intros HF E. bind_inv E.
    apply append_geometries_colored in Ea; auto.
    destruct Ea as (accs & ms & its & Hex & -> & ->).
    cbn in Ea0. injection Ea0 as <-. injection E as <- <-.
    exists accs, ms. split; [exact Hex|]. reflexivity.
  Qed.
End ColoredStructure.

(* ------------------------------------------------------------------ *)
(** ** Reading back the buffer items *)

Lemma mapM_app {A B : Type} (f : A -> result B) (l l' : list A) :
  mapM f (l ++ l') =
  bind (mapM f l) (fun xs => bind (mapM f l') (fun ys => Ok (xs ++ ys))).
Proof.
  induction l as [|a l IH]; cbn [List.app mapM].
  - cbn [bind]. destruct (mapM f l'); reflexivity.
  - destruct (f a); cbn [bind]; auto. rewrite IH.
    destruct (mapM f l); cbn [bind]; auto.
    destruct (mapM f l'); reflexivity.
Qed.

Lemma slice_middle {A : Type} (pre x post : list A) :
  slice (pre ++ x ++ post) (len pre) (len pre + len x) = x.
Proof.
  unfold slice, slice_bound. rewrite !len_app.
  assert (Hp := len_nonneg pre). assert (Hx := len_nonneg x).
  assert (Hq := len_nonneg post).
  destruct (len pre <? 0) eqn:E1; [apply Z.ltb_lt in E1; lia|].
  destruct (len pre + len x <? 0) eqn:E2; [apply Z.ltb_lt in E2; lia|].
  rewrite !Z.min_l by lia.
  replace (len pre + len x - len pre) with (len x) by lia.
  unfold len. rewrite !Nat2Z.id.
  rewrite skipn_app, Nat.sub_diag, skipn_all2 by lia. cbn [List.app skipn].
  rewrite firstn_app, Nat.sub_diag, firstn_O, app_nil_r.
  apply firstn_all2. lia.
Qed.

Lemma slice_all {A : Type} (x : list A) : slice x 0 (len x) = x.
Proof.
  generalize (slice_middle [] x []). cbn [List.app]. rewrite app_nil_r.
  change (len []) with 0. now rewrite Z.add_0_l.
Qed.

(** The bufferViews of [export_glb] cut the binary chunk back into the
    buffer items. *)
Lemma glb_views_roundtrip (items : list bytes) : forall pre : bytes,
  mapM (read_view [pre ++ List.concat items]) (glb_views (len pre) items)
  = Ok items.
Proof.
  induction items as [|item items IH]; intros pre; [reflexivity|].
  cbn [glb_views mapM List.concat]. unfold read_view at 1.
  cbn [view_buffer view_byteOffset view_byteLength].
  change (getitem [pre ++ item ++ List.concat items] 0)
    with (Ok (pre ++ item ++ List.concat items)).
  cbn [bind]. rewrite slice_middle, Z.eqb_refl. cbn [assert bind].
  rewrite <- len_app.
  replace (pre ++ item ++ List.concat items)
    with ((pre ++ item) ++ List.concat items) by now rewrite app_assoc.
  rewrite IH. reflexivity.
Qed.

Lemma chunks_concat {A : Type} (enc : A -> bytes) (n : nat) (xs : list A) :
  (0 < n)%nat -> (forall x, List.length (enc x) = n) ->
  forall fuel, (List.length (List.concat (map enc xs)) <= fuel)%nat ->
               chunks fuel n (List.concat (map enc xs)) = map enc xs.
Proof.
  intros Hn Henc. induction xs as [|x xs IH]; intros fuel Hf.
  - apply chunks_nil.
  - cbn [map List.concat] in *. rewrite length_app, Henc in Hf.
    destruct fuel as [|fuel]; [lia|]. cbn [chunks].
    destruct (enc x ++ List.concat (map enc xs)) as [|b bs] eqn:E.
    { apply (f_equal (@List.length byte)) in E.
      rewrite length_app, Henc in E. cbn in E. lia. }
    rewrite <- E.
    rewrite firstn_app, Henc, Nat.sub_diag, firstn_O, app_nil_r.
    rewrite firstn_all2 by (rewrite Henc; lia).
    rewrite skipn_app, Henc, Nat.sub_diag, (skipn_all2 (enc x)) by (rewrite Henc; lia).
    cbn [List.app skipn]. apply (f_equal (cons (enc x))). apply IH. lia.
Qed.

(** [frombuffer] reads back the elements that were written one by one. *)
Lemma frombuffer_encoded {A : Type} (d : dtype) (enc : A -> bytes) (xs : list A) :
  (forall x, List.length (enc x) = Z.to_nat (itemsize d)) ->
  frombuffer (List.concat (map enc xs)) d
  = Ok {| arr_dtype := d;
          arr_shape := [len xs];
          arr_data := map (fun x => decode_item d (enc x)) xs |}.
Proof.
  intros Henc. unfold frombuffer.
  assert (Hpos := itemsize_pos d).
  assert (Hl : List.length (List.concat (map enc xs))
               = (Z.to_nat (itemsize d) * List.length xs)%nat)
    by now apply concat_fixed_length.
  assert (Hm : len (List.concat (map enc xs)) mod itemsize d = 0).
  { unfold len. rewrite Hl, Nat2Z.inj_mul, Z2Nat.id by lia.
    rewrite Z.mul_comm. apply Z.mod_mul. lia. }
  rewrite Hm. cbn [Z.eqb negb].
  rewrite (chunks_concat enc (Z.to_nat (itemsize d))) by (auto; lia).
  unfold len. rewrite !length_map, map_map. reflexivity.
Qed.

Lemma len_concat_fixed {A B : Type} (f : A -> list B) (n : Z) (l : list A) :
  (forall x, len (f x) = n) -> len (List.concat (map f l)) = n * len l.
Proof.
  intros Hf. induction l as [|x l IH]; cbn [map List.concat].
  - change (len []) with 0. lia.
  - rewrite len_app, len_cons, Hf, IH. lia.
Qed.

Lemma len_map {A B : Type} (f : A -> B) (l : list A) : len (map f l) = len l.
Proof. unfold len. now rewrite length_map. Qed.

Lemma map_Forall_ext {A B : Type} (f g : A -> B) (P : A -> Prop) (l : list A) :
  (forall x, P x -> f x = g x) -> Forall P l -> map f l = map g l.
Proof.
  intros Hfg HF. induction HF; cbn; f_equal; auto.
Qed.

Section Accessors.
  Context `{NumpyFloat}.

Lemma read_colored_accessors (views : list bytes) (mesh : Trimesh) (k fmax : Z)
        (vmax vmin : list float64) :
    getitem views k = Ok (faces_tobytes (faces mesh)) ->
    getitem views (k + 1) = Ok (vertices_tobytes (vertices mesh)) ->
    getitem views (k + 2)
      = Ok (colors_tobytes (vertex_colors (color_visual (visual mesh)))) ->
    len (vertex_colors (color_visual (visual mesh))) = len (vertices mesh) ->
    faces_in_range (GTrimesh mesh) ->
    Forall (fun item => len item < 2 ^ 63) (mesh_items mesh) ->
    mapM (read_accessor views) (colored_accessors mesh k fmax vmax vmin)
    = Ok (mesh_arrays (GTrimesh mesh)).
  Proof.
    intros E0 E1 E2 Hc Hr Hsize. unfold colored_accessors. cbn [mapM].
    unfold mesh_items in Hsize.
    inversion Hsize as [|? ? S0 Hsize1]; subst.
    inversion Hsize1 as [|? ? S1 Hsize2]; subst.
    inversion Hsize2 as [|? ? S2 _]; subst. clear Hsize Hsize1 Hsize2.
    pose proof (len_nonneg (faces mesh)) as P0.
    pose proof (len_nonneg (vertices mesh)) as P1.
    assert (Lf : len (List.concat (map face_row (faces mesh))) = len (faces mesh) * 3).
    { rewrite (len_concat_fixed face_row 3); [lia|]. now intros [[a b] c]. }
    assert (Lfb : len (faces_tobytes (faces mesh)) = 0 + 4 * (len (faces mesh) * 3) * 1).
    { unfold len. rewrite faces_tobytes_length. lia. }
    assert (Lv : len (List.concat (map vec3_row (vertices mesh))) = len (vertices mesh) * 3).
    { rewrite (len_concat_fixed vec3_row 3); [lia|]. now intros [[a b] c]. }
    assert (Lvb : len (vertices_tobytes (vertices mesh)) = 0 + 4 * len (vertices mesh) * 3).
    { unfold len. rewrite vertices_tobytes_length. lia. }
    set (colors := vertex_colors (color_visual (visual mesh))) in *.
    assert (Lc : len (List.concat (map rgba_row colors)) = len (vertices mesh) * 4).
    { rewrite (len_concat_fixed rgba_row 4); [lia|]. now intros [[[a b] c] d]. }
    assert (Lcb : len (colors_tobytes colors) = 0 + 1 * len (vertices mesh) * 4).
    { unfold len in *. rewrite colors_tobytes_length. lia. }
    (* indices *)
    erewrite read_accessor_unfold; [|exact E0|reflexivity|reflexivity|].
    2:{ unfold span_fits_int64, accessor_span.
        cbn [acc_byteOffset acc_count acc_type fst snd].
        change (type_components "SCALAR") with 1. change (itemsize u4) with 4.
        lia. }
    unfold accessor_span. cbn [acc_byteOffset acc_count acc_type fst snd].
    change (type_components "SCALAR") with 1. change (itemsize u4) with 4.
    rewrite <- Lfb, slice_all. unfold faces_tobytes, u4_tobytes.
    rewrite (frombuffer_encoded u4 (le_bytes 4)) by (intros; apply le_bytes_length).
    cbn [bind]. rewrite reshape_flat. cbn [bind arr_data arr_dtype array_len arr_shape].
    rewrite !len_map, Lf, Z.eqb_refl. cbn [assert bind].
    (* positions *)
    erewrite read_accessor_unfold; [|exact E1|reflexivity|reflexivity|].
    2:{ unfold span_fits_int64, accessor_span.
        cbn [acc_byteOffset acc_count acc_type fst snd].
        change (type_components "VEC3") with 3. change (itemsize f4) with 4.
        lia. }
    unfold accessor_span. cbn [acc_byteOffset acc_count acc_type fst snd].
    change (type_components "VEC3") with 3. change (itemsize f4) with 4.
    rewrite <- Lvb, slice_all. unfold vertices_tobytes, floats_tobytes.
    rewrite (frombuffer_encoded f4 (fun x => float32_tobytes (astype_float32 x)))
      by (intros x; now destruct (astype_float32 x)).
    cbn [bind]. rewrite reshape_rows by lia.
    cbn [arr_data arr_dtype]. rewrite !len_map, Lv, Z.mod_mul, Z.div_mul by lia.
    cbn [Z.eqb bind array_len arr_shape]. rewrite Z.eqb_refl. cbn [assert bind].
    (* colors *)
    erewrite read_accessor_unfold; [|exact E2|reflexivity|reflexivity|].
    2:{ unfold span_fits_int64, accessor_span.
        cbn [acc_byteOffset acc_count acc_type fst snd].
        change (type_components "VEC4") with 4. change (itemsize u1) with 1.
        lia. }
    unfold accessor_span. cbn [acc_byteOffset acc_count acc_type fst snd].
    change (type_components "VEC4") with 4. change (itemsize u1) with 1.
    rewrite <- Lcb, slice_all. unfold colors_tobytes.
    rewrite (frombuffer_encoded u1 (le_bytes 1)) by (intros; apply le_bytes_length).
    cbn [bind]. rewrite reshape_rows by lia.
    cbn [arr_data arr_dtype]. rewrite !len_map, Lc, Z.mod_mul, Z.div_mul by lia.
    cbn [Z.eqb bind array_len arr_shape]. rewrite Z.eqb_refl. cbn [assert bind mapM].
    (* the arrays *)
    unfold mesh_arrays, faces_flat, positions_array, colors_array.
    fold colors.
    assert (M1 : map (fun x : Z => decode_item u4 (le_bytes 4 x))
                     (List.concat (map face_row (faces mesh)))
                 = map Int (List.concat (map face_row (faces mesh)))).
    { apply map_Forall_ext with (P := fun i => 0 <= i < 2 ^ 32); [|exact Hr].
      intros i Hi. cbn [decode_item]. now rewrite le_value_u4. }
    assert (M2 : map (fun x : float64 =>
                        decode_item f4 (float32_tobytes (astype_float32 x)))
                     (List.concat (map vec3_row (vertices mesh)))
                 = map (fun x => Flt (astype_float32 x))
                       (List.concat (map vec3_row (vertices mesh)))).
    { apply map_ext. intros x. now destruct (astype_float32 x). }
    assert (M3 : map (fun x : Z => decode_item u1 (le_bytes 1 x))
                     (List.concat (map rgba_row colors))
                 = map (fun c => Int (c mod 256))
                       (List.concat (map rgba_row colors))).
    { apply map_ext. intros c. cbn [decode_item].
      now rewrite le_value_le_bytes. }
    rewrite M1, M2, M3. reflexivity.
  Qed.

Lemma getitem_app_nth {A : Type} (pre l : list A) (j : nat) (x : A) :
    nth_error l j = Some x -> getitem (pre ++ l) (len pre + Z.of_nat j) = Ok x.
  Proof.
    intros Hn. apply getitem_nth; [unfold len; lia|].
    unfold len. rewrite <- Nat2Z.inj_add, Nat2Z.id.
    rewrite nth_error_app2 by lia.
    now replace (List.length pre + j - List.length pre)%nat with j by lia.
  Qed.

  (** The accessors of a list of colored meshes resolve to their arrays,
      wherever the buffer items stand in the list of views. *)
Lemma read_accessors_exported geoms :
    forall n k accs ms its pre post,
      exported_as geoms n k accs ms its ->
      len pre = k ->
      Forall (fun g => faces_in_range (snd g)) geoms ->
      Forall (fun item => len item < 2 ^ 63) its ->
      mapM (read_accessor (pre ++ its ++ post)) accs
      = Ok (List.concat (map (fun g => mesh_arrays (snd g)) geoms)).
  Proof.
    induction geoms as [|[name g] geoms IH];
      intros n k accs ms its pre post Hex Hk HF Hsize.
    - cbn in Hex. destruct Hex as (-> & _ & _). reflexivity.
    - cbn [exported_as] in Hex. destruct g as [mesh| |]; try contradiction.
      destruct Hex as (fmax & vmax & vmin & accs' & ms' & its' &
                       -> & -> & -> & Hc & Hex).
      inversion HF as [|? ? Hr HF']; subst. cbn [snd] in Hr.
      apply Forall_app in Hsize. destruct Hsize as [Hsize Hsize'].
      rewrite mapM_app.
      rewrite (read_colored_accessors _ mesh (len pre) fmax vmax vmin); auto.
      + cbn [bind].
        replace (pre ++ (mesh_items mesh ++ its') ++ post)
          with ((pre ++ mesh_items mesh) ++ its' ++ post)
          by now rewrite <- !app_assoc.
        rewrite (IH (n + 3) (len pre + 3) accs' ms' its'); auto.
        rewrite len_app. reflexivity.
      + rewrite <- (Z.add_0_r (len pre)).
        apply (getitem_app_nth pre _ 0). reflexivity.
      + apply (getitem_app_nth pre _ 1). reflexivity.
      + apply (getitem_app_nth pre _ 2). reflexivity.
  Qed.
End Accessors.

(* ------------------------------------------------------------------ *)
(** ** Reading back the meshes *)

Section ImportedMeshes.
  Context `{NumpyFloat}.

Lemma primitive_kwargs_colored (access : list ndarray) (apre apost : list ndarray)
        (materials : list PBRMaterial) (mesh : Trimesh) (name : string) (n : Z) :
    access = apre ++ mesh_arrays (GTrimesh mesh) ++ apost ->
    len apre = n ->
    forall p, mesh_primitives (colored_mesh_record mesh name n) = [p] ->
    primitive_kwargs access materials []
                     (mesh_metadata (colored_mesh_record mesh name n)) p
    = Ok (imported_kwargs mesh).
  Proof.
    intros -> Hn p Hp. cbn in Hp. injection Hp as <-.
    unfold primitive_kwargs.
    cbn [dict_update fold_left dict_get String.eqb Ascii.eqb Bool.eqb bind
         prim_indices prim_attributes prim_material required].
    rewrite <- Hn.
    rewrite <- (Z.add_0_r (len apre)) at 1.
    rewrite (getitem_app_nth apre _ 0 (faces_flat mesh)) by reflexivity.
    cbn [bind]. rewrite reshape_rows by lia.
    cbn [faces_flat arr_data arr_dtype]. rewrite len_map.
    assert (Lf : len (List.concat (map face_row (faces mesh))) = len (faces mesh) * 3).
    { rewrite (len_concat_fixed face_row 3); [lia|]. now intros [[a b] c]. }
    rewrite Lf, Z.mod_mul, Z.div_mul by lia. cbn [Z.eqb bind].
    unfold dict_item.
    cbn [dict_get String.eqb Ascii.eqb Bool.eqb bind].
    rewrite (getitem_app_nth apre _ 1 (positions_array mesh)) by reflexivity.
    cbn [bind]. unfold imported_kwargs, mesh_metadata, faces_array.
    cbn [colored_mesh_record mesh_extras].
    destruct (units mesh) as [u|]; reflexivity.
  Qed.

Lemma read_mesh_colored (access apre apost : list ndarray)
        (materials : list PBRMaterial) (mesh : Trimesh) (name : string)
        (n index : Z) (st : mesh_state) :
    access = apre ++ mesh_arrays (GTrimesh mesh) ++ apost ->
    len apre = n ->
    read_mesh access materials [] index (colored_mesh_record mesh name n) st
    = Ok (dict_set (fst st) name (imported_kwargs mesh),
          mesh_prim_append (snd st) index name).
  Proof.
    intros Ha Hn. unfold read_mesh.
    cbn [mesh_primitives colored_mesh_record enumerate enumerate_from
         read_primitives prim_mode].
    change (negb (4 =? 4)) with false. cbv iota.
    rewrite (primitive_kwargs_colored access apre apost materials mesh name n
               Ha Hn _ eq_refl).
    cbn [bind]. destruct st as [meshes mp]. reflexivity.
  Qed.

Lemma read_meshes_exported geoms :
    forall n k accs ms its (apre apost : list ndarray) materials index st,
      exported_as geoms n k accs ms its ->
      len apre = n ->
      read_meshes (apre ++ List.concat (map (fun g => mesh_arrays (snd g)) geoms)
                        ++ apost)
                  materials [] (enumerate_from index ms) st
      = Ok (imported geoms index st).
  Proof.
    induction geoms as [|[name g] geoms IH];
      intros n k accs ms its apre apost materials index st Hex Hn.
    - cbn in Hex. destruct Hex as (_ & -> & _). reflexivity.
    - cbn [exported_as] in Hex. destruct g as [mesh| |]; try contradiction.
      destruct Hex as (fmax & vmax & vmin & accs' & ms' & its' &
                       -> & -> & -> & Hc & Hex).
      cbn [enumerate_from read_meshes map List.concat snd].
      rewrite <- (app_assoc (mesh_arrays (GTrimesh mesh))).
      rewrite (read_mesh_colored _ apre
                 (List.concat (map (fun g => mesh_arrays (snd g)) geoms) ++ apost)
                 materials mesh name n index st eq_refl Hn).
      cbn [bind imported].
      rewrite (app_assoc apre).
      apply (IH (n + 3) (k + 3) accs' ms' its'); auto.
      rewrite len_app. subst n. reflexivity.
  Qed.

  (** With distinct names, every mesh is found under its name. *)
Lemma imported_get_other geoms : forall index st name,
      ~ In name (map fst geoms) ->
      dict_get (fst (imported geoms index st)) name = dict_get (fst st) name.
  Proof.
    induction geoms as [|[name0 g] geoms IH]; intros index st name Hin; auto.
    cbn [map fst In] in Hin.
    destruct g as [mesh| |]; cbn [imported]; rewrite IH by tauto; auto.
    cbn [fst]. apply dict_get_set_other. tauto.
  Qed.

Lemma imported_get geoms : forall index st name mesh,
      NoDup (map fst geoms) ->
      In (name, GTrimesh mesh) geoms ->
      dict_get (fst (imported geoms index st)) name = Some (imported_kwargs mesh).
  Proof.
    induction geoms as [|[name0 g] geoms IH]; intros index st name mesh Hnd Hin.
    - contradiction.
    - cbn [map fst] in Hnd. inversion Hnd as [|? ? Hni Hnd']; subst.
      destruct Hin as [Heq|Hin].
      + injection Heq as -> ->. cbn [imported].
        rewrite imported_get_other by assumption.
        cbn [fst]. apply dict_get_set_same.
      + destruct g; cbn [imported]; apply IH; auto.
  Qed.

Lemma dict_set_absent_len {V : Type} (d : list (string * V)) (k : string) (v : V) :
    dict_get d k = None -> len (dict_set d k v) = len d + 1.
  Proof.
    induction d as [|[k' v'] d IH]; cbn [dict_get dict_set]; [reflexivity|].
    destruct (String.eqb k' k) eqn:E; [discriminate|]. intros Hg.
    specialize (IH Hg). rewrite !len_cons. lia.
  Qed.

Lemma imported_len geoms : forall index st,
      Forall (fun g => colored_mesh (snd g)) geoms ->
      NoDup (map fst geoms) ->
      (forall name, In name (map fst geoms) -> dict_get (fst st) name = None) ->
      len (fst (imported geoms index st)) = len (fst st) + len geoms.
  Proof.
    induction geoms as [|[name g] geoms IH]; intros index st HF Hnd Hfresh.
    - cbn. change (len []) with 0. lia.
    - inversion HF as [|? ? Hc HF']; subst. cbn [snd] in Hc.
      destruct g as [mesh| |]; cbn in Hc; try contradiction.
      cbn [map fst] in Hnd, Hfresh. inversion Hnd as [|? ? Hni Hnd']; subst.
      cbn [imported]. rewrite IH; auto.
      + cbn [fst]. rewrite dict_set_absent_len, len_cons.
        * lia.
        * apply Hfresh. now left.
      + intros name' Hin. cbn [fst].
        rewrite dict_get_set_other.
        * apply Hfresh. now right.
        * intros ->. contradiction.
  Qed.
End ImportedMeshes.

(* ------------------------------------------------------------------ *)
(** ** Reading back the container *)

Section ReadExported.
  Context `{NumpyFloat} `{Json}.

  (** [load_glb] finds in the bytes of [export_glb] the JSON chunk and
      one binary chunk, the concatenation of the buffer items. *)
Lemma load_glb_chunks_exported (scene : Scene) (include_normals : bool)
        (exported : bytes) (tree : Document) (items : list bytes) :
    export_glb scene include_normals = Ok exported ->
    _create_gltf_structure scene include_normals = Ok (tree, items) ->
    len exported < 2 ^ 32 ->
    load_glb_chunks {| file_data := exported; file_pos := 0 |}
    = (header <- json_loads (glb_json_chunk tree items) ;;
       Ok (header, [List.concat items])).
  Proof.
    intros E Es Hlt.
    destruct (export_glb_layout _ _ _ E) as (tree' & items' & Es' & Em & Ex).
    rewrite Es in Es'. injection Es' as <- <-. cbn zeta in *.
    set (json_chunk := glb_json_chunk tree items) in *.
    set (bin_chunk := List.concat items) in *.
    set (head := u4_tobytes [_magic_gltf; 2; len json_chunk + len bin_chunk + 28;
                             len json_chunk; _magic_json]) in *.
    set (bin_head := u4_tobytes [len bin_chunk; _magic_bin]) in *.
    assert (Hh : List.length head = 20%nat) by apply u4_tobytes_length.
    assert (Hb : List.length bin_head = 8%nat) by apply u4_tobytes_length.
    assert (Hlen : len exported = 28 + len json_chunk + len bin_chunk).
    { rewrite Ex, !len_app. unfold len at 1 3. rewrite Hh, Hb. lia. }
    assert (Hj := len_nonneg json_chunk). assert (Hbn := len_nonneg bin_chunk).
    set (f := {| file_data := exported; file_pos := 0 |}).
    assert (Hrem : remaining f = exported) by reflexivity.
    rewrite load_glb_chunks_header by (rewrite Hrem; lia).
    cbn zeta. rewrite Hrem.
    assert (W0 : word exported 0 = _magic_gltf).
    { rewrite Ex. unfold head. now erewrite word_u4_tobytes by reflexivity. }
    assert (W1 : word exported 1 = 2).
    { rewrite Ex. unfold head. now erewrite word_u4_tobytes by reflexivity. }
    assert (W2 : word exported 2 = len exported).
    { rewrite Ex at 1. unfold head. erewrite word_u4_tobytes by reflexivity.
      rewrite Z.mod_small; lia. }
    assert (W3 : word exported 3 = len json_chunk).
    { rewrite Ex. unfold head. erewrite word_u4_tobytes by reflexivity.
      rewrite Z.mod_small; lia. }
    assert (W4 : word exported 4 = _magic_json).
    { rewrite Ex. unfold head. now erewrite word_u4_tobytes by reflexivity. }
    rewrite W0, W1, W2, W3, W4, !Z.eqb_refl. cbn [negb orb].
    assert (Hjson : firstn (Z.to_nat (len json_chunk)) (skipn 20 exported)
                    = json_chunk).
    { rewrite Ex, skipn_app, Hh, Nat.sub_diag, (skipn_all2 head) by lia.
      cbn [List.app skipn]. unfold len. rewrite Nat2Z.id.
      rewrite firstn_app, Nat.sub_diag, firstn_O, app_nil_r.
      apply firstn_all2. lia. }
    rewrite Hjson.
    destruct (json_loads json_chunk) as [header| |]; cbn [bind]; auto.
    set (g := advance f (20 + List.length json_chunk)).
    assert (Hg : remaining g = bin_head ++ bin_chunk).
    { unfold g. rewrite remaining_advance, Hrem, Ex.
      rewrite (Nat.add_comm 20), <- skipn_skipn.
      rewrite skipn_app, Hh, Nat.sub_diag, (skipn_all2 head) by lia.
      cbn [List.app skipn].
      rewrite skipn_app, Nat.sub_diag, (skipn_all2 json_chunk) by lia.
      reflexivity. }
    cbn [file_data f].
    rewrite read_chunks_step. rewrite Hg.
    assert (T0 : tell f = 0) by reflexivity.
    assert (Tg : tell g = 20 + len json_chunk).
    { unfold g, tell, advance. cbn [file_pos f]. unfold len. lia. }
    rewrite T0, Tg.
    destruct (20 + len json_chunk - 0 <? len exported) eqn:Ew;
      [|apply Z.ltb_ge in Ew; lia].
    assert (L8 : len (bin_head ++ bin_chunk) = 8 + len bin_chunk).
    { rewrite len_app. unfold len at 1. rewrite Hb. lia. }
    rewrite L8.
    destruct (8 + len bin_chunk <? 8) eqn:E8; [apply Z.ltb_lt in E8; lia|].
    assert (B0 : word (bin_head ++ bin_chunk) 0 = len bin_chunk).
    { unfold bin_head. erewrite word_u4_tobytes by reflexivity.
      rewrite Z.mod_small; lia. }
    assert (B1 : word (bin_head ++ bin_chunk) 1 = _magic_bin).
    { unfold bin_head. now erewrite word_u4_tobytes by reflexivity. }
    rewrite B0, B1, Z.eqb_refl. cbn [negb]. cbn zeta.
    assert (Hpay : firstn (Z.to_nat (len bin_chunk)) (skipn 8 (bin_head ++ bin_chunk))
                   = bin_chunk).
    { rewrite skipn_app, Hb, Nat.sub_diag, (skipn_all2 bin_head) by lia.
      cbn [List.app skipn]. unfold len. rewrite Nat2Z.id.
      apply firstn_all2. lia. }
    rewrite Hpay, Z.eqb_refl. cbn [negb List.app].
    destruct (List.length exported) as [|fuel] eqn:Efuel.
    { unfold len in Hlen. rewrite Efuel in Hlen. lia. }
    rewrite read_chunks_step.
    assert (Tend : tell (advance g (8 + List.length bin_chunk)) = len exported).
    { unfold tell, advance. cbn [file_pos]. unfold g, advance. cbn [file_pos f].
      rewrite Hlen. unfold len. lia. }
    rewrite Tend.
    destruct (len exported - 0 <? len exported) eqn:Ee;
      [apply Z.ltb_lt in Ee; lia|].
    reflexivity.
  Qed.
End ReadExported.

(* ------------------------------------------------------------------ *)
(** ** The graph loop ends on a node list without cycles *)

Lemma getitem_Ok_range {A : Type} (l : list A) (i : Z) (a : A) :
  getitem l i = Ok a -> 0 <= i -> i < len l.
Proof.
  unfold getitem. intros E Hi.
  destruct (i <? 0) eqn:E0; [lia|].
  destruct (len l <=? i) eqn:E1; [|lia].
  destruct (i <? 0); discriminate.
Qed.

Lemma getitem_in_range {A : Type} (l : list A) (i : Z) :
  0 <= i < len l -> exists a, getitem l i = Ok a.
Proof.
  intros Hi. unfold getitem.
  destruct (i <? 0) eqn:E; [lia|].
  destruct (i <? 0); destruct (len l <=? i) eqn:E2; try lia; cbn [orb].
  destruct (nth_error l (Z.to_nat i)) eqn:En; [eauto|].
  apply nth_error_None in En. unfold len in Hi. lia.
Qed.

Lemma reshape44_16 (m : list float64) :
  List.length m = 16%nat -> exists a, reshape44 m = Ok a.
Proof.
  intros Hm.
  do 17 (destruct m as [|? m]; try discriminate Hm).
  eexists. reflexivity.
Qed.

Lemma names_get_set_other names k k' v :
  key_eqb k k' = false ->
  names_get (names_set names k v) k' = names_get names k'.
Proof.
  intros Hk. induction names as [|[k0 v0] names IH]; cbn.
  - now rewrite Hk.
  - destruct (key_eqb k0 k) eqn:E0; cbn.
    + destruct (key_eqb k0 k') eqn:E1; [|reflexivity].
      exfalso. destruct k0, k, k'; cbn in *; try discriminate.
      * apply Z.eqb_eq in E0, E1. subst. rewrite Z.eqb_refl in Hk. discriminate.
      * apply String.eqb_eq in E0, E1. subst. rewrite String.eqb_refl in Hk.
        discriminate.
    + destruct (key_eqb k0 k'); [reflexivity|exact IH].
Qed.

Lemma names_get_set_same names k v :
  exists v', names_get (names_set names k v) k = Some v'.
Proof.
  assert (Hr : key_eqb k k = true).
  { destruct k; cbn; [apply Z.eqb_refl|apply String.eqb_refl]. }
  induction names as [|[k0 v0] names IH]; cbn.
  - rewrite Hr. eauto.
  - destruct (key_eqb k0 k) eqn:E0; cbn; rewrite E0; eauto.
Qed.

Lemma node_names_get_from (nodes : list Node) :
  forall start b, start <= b < start + len nodes ->
    exists v,
      names_get (map (fun ix => (KInt (fst ix),
                                 match node_name (snd ix) with
                                 | Some n => n
                                 | None => str_of_int (fst ix)
                                 end))
                     (enumerate_from start nodes)) (KInt b) = Some v.
Proof.
  induction nodes as [|n nodes IH]; intros start b Hb.
  - unfold len in Hb. cbn in Hb. lia.
  - cbn. destruct (start =? b) eqn:E; [eexists; reflexivity|].
    apply Z.eqb_neq in E. apply IH.
    unfold len in *. cbn [List.length] in Hb. lia.
Qed.

Lemma node_names_get (nodes : list Node) (b : Z) :
  0 <= b < len nodes ->
  exists v, names_get (node_names nodes) (KInt b) = Some v.
Proof.
  intros Hb. apply node_names_get_from. lia.
Qed.

Section WalkEnds.
  Context `{Util}.
  Variable nodes : list Node.
  Variable names : list (key * string).
  Variable mesh_prim : list (Z * list string).
  Variable rank : Z -> nat.

  Hypothesis names_of_nodes :
    forall b, 0 <= b < len nodes -> exists v, names_get names (KInt b) = Some v.
  Hypothesis well_formed :
    forall (b : Z) (node : Node),
      0 <= b -> getitem nodes b = Ok node ->
      match node_matrix node with
      | Some m => List.length m = 16%nat
      | None => True
      end /\
      match node_children node with
      | Some children =>
          Forall (fun c => 0 <= c < len nodes /\ (rank c < rank b)%nat) children
      | None => True
      end.

  (** The walk takes the entries at the head of the queue, and all that
      they push, off the queue in a number of visits of its own, and
      goes on with the rest. *)
Lemma walk_entries (r : nat) :
    forall entries, Forall (below nodes names rank r) entries ->
    forall queue graph,
    exists (n : nat) (graph' : list Edge),
      forall fuel,
        walk nodes names mesh_prim (n + fuel) (entries ++ queue) graph
        = walk nodes names mesh_prim fuel queue graph'.
  Proof.
    induction r as [|r IHr]; intros entries Hall.
    - destruct entries as [|e entries].
      + intros queue graph. exists 0%nat, graph. reflexivity.
      + inversion Hall as [|? ? (_ & _ & Hr) _]. lia.
    - induction Hall as [|[a b] entries ((va & Ha) & Hb & Hr) _ IHe];
        intros queue graph.
      + exists 0%nat, graph. reflexivity.
      + cbn [fst snd] in Ha, Hb, Hr.
        destruct (getitem_in_range nodes b Hb) as (node & En).
        destruct (names_of_nodes b Hb) as (vb & Evb).
        destruct (well_formed b node (proj1 Hb) En) as (Hm & Hc).
        assert (Et : exists m, node_transform node = Ok m).
        { unfold node_transform. destruct (node_matrix node) as [m|].
          - destruct (reshape44_16 m Hm) as (a0 & ->). cbn [bind]. eauto.
          - eauto. }
        destruct Et as (m & Et).
        set (pushed := match node_children node with
                       | Some children =>
                           List.rev (map (fun i => (KInt b, i)) children)
                       | None => []
                       end).
        assert (Hpushed : Forall (below nodes names rank r) pushed).
        { subst pushed. destruct (node_children node) as [children|];
            [|constructor].
          apply Forall_rev, Forall_map.
          eapply Forall_impl; [|exact Hc].
          intros c (Hc1 & Hc2). cbn [fst snd] in Hr.
          split; [|split]; cbn [fst snd].
          - eauto.
          - exact Hc1.
          - lia. }
        assert (Ev : exists graph1,
                   visit nodes names mesh_prim a b (entries ++ queue) graph
                   = Ok (pushed ++ entries ++ queue, graph1)).
        { unfold visit. rewrite En. cbn [bind].
          unfold names_item. rewrite Ha, Evb. cbn [bind]. rewrite Et.
          cbn [bind]. subst pushed.
          destruct (node_mesh node), (node_children node); eauto. }
        destruct Ev as (graph1 & Ev).
        destruct (IHr pushed Hpushed (entries ++ queue) graph1)
          as (n1 & graph2 & E1).
        destruct (IHe queue graph2) as (n2 & graph3 & E2).
        exists (S (n1 + n2)), graph3. intros fuel.
        cbn [List.app Nat.add walk]. rewrite Ev. cbn [bind].
        rewrite <- Nat.add_assoc, E1. apply E2.
  Qed.
End WalkEnds.

(** From some number of visits on, the walk from node 0 of a node list
    without cycles returns, and with more fuel it returns the same
    graph. *)
Lemma walk_acyclic `{Util} (nodes : list Node) (base_frame : string)
      (mesh_prim : list (Z * list string)) :
  acyclic_nodes nodes ->
  exists (fuel0 : nat) (graph : list Edge),
    forall fuel, (fuel0 <= fuel)%nat ->
      walk nodes (names_set (node_names nodes) (KStr base_frame) base_frame)
           mesh_prim fuel [(KStr base_frame, 0)] []
      = Ok graph.
Proof.
  intros (Hlen & rank & Hwf).
  set (names := names_set (node_names nodes) (KStr base_frame) base_frame).
  assert (Hnames : forall b, 0 <= b < len nodes ->
                             exists v, names_get names (KInt b) = Some v).
  { intros b Hb. subst names. rewrite names_get_set_other by reflexivity.
    now apply node_names_get. }
  destruct (walk_entries nodes names mesh_prim rank Hnames Hwf
              (S (rank 0)) [(KStr base_frame, 0)]) with (queue := @nil (key * Z))
                                                        (graph := @nil Edge)
    as (n & graph & E).
  { constructor; [|constructor]. split; [|split]; cbn [fst snd].
    - subst names. apply names_get_set_same.
    - lia.
    - lia. }
  exists n, graph. intros fuel Hfuel.
  replace fuel with (n + (fuel - n))%nat by lia.
  cbn [List.app] in E. rewrite E. destruct (fuel - n)%nat; reflexivity.
Qed.

(* ------------------------------------------------------------------ *)
(** ** The round trip through a GLB file *)

Lemma len_concat_In {A : Type} (item : list A) (items : list (list A)) :
  In item items -> len item <= len (List.concat items).
Proof.
  induction items as [|x items IH]; intros Hin; [contradiction|].
  cbn [List.concat]. rewrite len_app.
  pose proof (len_nonneg x). pose proof (len_nonneg (List.concat items)).
  destruct Hin as [->|Hin]; [lia|]. apply IH in Hin. lia.
Qed.

Section RoundTrip.
  Context `{NumpyFloat} `{Json} `{Pillow} `{Util}.

  (** No buffer item is longer than the file. *)
Lemma items_shorter_than_file (scene : Scene) (include_normals : bool)
        (exported : bytes) (tree : Document) (items : list bytes) (bound : Z) :
    export_glb scene include_normals = Ok exported ->
    _create_gltf_structure scene include_normals = Ok (tree, items) ->
    len exported < bound ->
    Forall (fun item => len item < bound) items.
  Proof.
    intros E Es Hlt.
    destruct (export_glb_layout _ _ _ E) as (tree' & items' & Es' & _ & ->).
    rewrite Es in Es'. injection Es' as <- <-.
    rewrite !len_app in Hlt.
    apply Forall_forall. intros item Hin.
    apply len_concat_In in Hin.
    pose proof (len_nonneg (u4_tobytes [_magic_gltf; 2;
      len (glb_json_chunk tree items) + len (List.concat items) + 28;
      len (glb_json_chunk tree items); _magic_json])).
    pose proof (len_nonneg (glb_json_chunk tree items)).
    pose proof (len_nonneg (u4_tobytes [len (List.concat items); _magic_bin])).
    lia.
  Qed.

Lemma _parse_materials_none (header : Document) (views : list bytes) :
    doc_images header = None -> doc_materials header = None ->
    _parse_materials header views = Ok [].
  Proof.
    intros Hi Hm. unfold _parse_materials. rewrite Hi, Hm.
    destruct (negb have_PIL); reflexivity.
  Qed.

  (** The import of the export of a scene of colored meshes, up to the
      walk over its nodes. *)
Lemma load_glb_colored (scene : Scene) (exported : bytes) (fuel : nat) :
    Forall (fun g => colored_mesh (snd g)) (geometry scene) ->
    Forall (fun g => faces_in_range (snd g)) (geometry scene) ->
    export_glb scene false = Ok exported ->
    len exported < 2 ^ 32 ->
    json_roundtrip scene ->
    load_glb fuel {| file_data := exported; file_pos := 0 |} []
    = (graph <- walk (exported_nodes scene)
                     (names_set (node_names (exported_nodes scene))
                                (KStr "world") "world")
                     (snd (imported (geometry scene) 0 ([], [])))
                     fuel [(KStr "world", 0)] [] ;;
       Ok {| class := "Scene";
             sk_geometry := fst (imported (geometry scene) 0 ([], []));
             sk_graph := graph;
             base_frame := "world" |}).
  Proof.
    intros Hcol Hrange E Hlt Hjson.
    destruct (export_glb_layout _ _ _ E) as (tree & items & Es & _).
    unfold load_glb.
    rewrite (load_glb_chunks_exported _ _ _ _ _ E Es Hlt).
    rewrite (Hjson _ _ Es). cbn [bind].
    destruct (_create_gltf_structure_colored _ _ _ Hcol Es)
      as (accs & ms & Hex & ->).
    unfold _read_buffers, glb_tree, set_buffers.
    cbn [doc_bufferViews doc_accessors doc_meshes doc_nodes doc_scenes doc_scene
         required bind].
    generalize (glb_views_roundtrip items []). cbn [List.app].
    change (len []) with 0. intros ->. cbn [bind].
    assert (Hsize : Forall (fun item => len item < 2 ^ 63) items).
    { apply (items_shorter_than_file _ _ _ _ _ (2 ^ 63) E Es). lia. }
    generalize (read_accessors_exported _ _ _ _ _ _ [] [] Hex eq_refl Hrange
                                        Hsize).
    cbn [List.app]. rewrite app_nil_r. intros ->. cbn [bind].
    rewrite _parse_materials_none by reflexivity. cbn [bind].
    generalize (read_meshes_exported _ _ _ _ _ _ [] [] [] 0 ([], []) Hex eq_refl).
    cbn [List.app]. rewrite app_nil_r.
    change (enumerate_from 0 ms) with (enumerate ms). intros ->. cbn [bind].
    destruct (imported (geometry scene) 0 ([], [])) as [meshes mesh_prim].
    fold (exported_nodes scene).
    unfold choose_base_frame. rewrite world_not_in_node_names.
    change (getitem [{| scene_nodes := [0] |}] 0) with (Ok {| scene_nodes := [0] |}).
    reflexivity.
  Qed.

  (** C1. A scene of triangle meshes with a color per vertex, exported
      by [export_glb] and read back by [load_glb], gives as many
      geometries as the scene has, and under the name of each mesh its
      face array, one row of three indices per face, and its vertex
      array truncated to float32.  This is for a file shorter than
      [2^32] bytes whose face indices fit 32 bits, geometry names that
      are distinct (they are the keys of a dict), a JSON codec that
      reads the written tree back, and a node list without cycles: the
      importer's loop over the nodes then ends, after [fuel0] visits,
      and [load_glb] returns. *)
Theorem glb_roundtrip (scene : Scene) (exported : bytes) :
    Forall (fun g => colored_mesh (snd g)) (geometry scene) ->
    Forall (fun g => faces_in_range (snd g)) (geometry scene) ->
    NoDup (map fst (geometry scene)) ->
    export_glb scene false = Ok exported ->
    len exported < 2 ^ 32 ->
    json_roundtrip scene ->
    acyclic_nodes (exported_nodes scene) ->
    exists (fuel0 : nat) (r : SceneKwargs),
      (forall fuel, (fuel0 <= fuel)%nat ->
         load_glb fuel {| file_data := exported; file_pos := 0 |} [] = Ok r) /\
      len (sk_geometry r) = len (geometry scene) /\
      forall name mesh,
        In (name, GTrimesh mesh) (geometry scene) ->
        exists kw,
          dict_get (sk_geometry r) name = Some kw /\
          dict_get kw "faces" = Some (KArray (faces_array mesh)) /\
          dict_get kw "vertices" = Some (KArray (positions_array mesh)).
  Proof.
    intros Hcol Hrange Hnd E Hlt Hjson Hacyclic.
    destruct (walk_acyclic (exported_nodes scene) "world"
                (snd (imported (geometry scene) 0 ([], []))) Hacyclic)
      as (fuel0 & graph & Hwalk).
    exists fuel0. eexists. split; [|split].
    - intros fuel Hfuel.
      rewrite (load_glb_colored _ _ _ Hcol Hrange E Hlt Hjson).
      rewrite (Hwalk fuel Hfuel). reflexivity.
    - cbn [sk_geometry].
      rewrite (imported_len (geometry scene) 0 ([], []) Hcol Hnd
                 (fun _ _ => eq_refl)).
      cbn [fst]. unfold len at 1. cbn [List.length]. lia.
    - intros name mesh Hin. exists (imported_kwargs mesh). cbn [sk_geometry].
      split; [now apply imported_get|]. split; reflexivity.
  Qed.
End RoundTrip.

(** The nodes of the scene with one triangle: the world and its one
    child. *)
Lemma one_triangle_nodes_acyclic :
  acyclic_nodes (exported_nodes one_triangle_scene).
Proof.
  split; [reflexivity|].
  exists (fun b => if b =? 0 then 1%nat else 0%nat).
  intros b node Hb E.
  assert (Hlt := getitem_Ok_range _ _ _ E Hb).
  change (len (exported_nodes one_triangle_scene)) with 2 in Hlt.
  assert (Hb' : b = 0 \/ b = 1) by lia.
  destruct Hb' as [-> | ->]; vm_compute in E; injection E as <-;
    cbn [node_matrix node_children]; split; try exact I.
  constructor; [|constructor].
  split; [split; [lia|reflexivity]|cbn; lia].
Qed.

Lemma glb_roundtrip_witness :
  exists (fuel0 : nat) (r : SceneKwargs),
    (forall fuel, (fuel0 <= fuel)%nat ->
       @load_glb example_float (fixed_json one_triangle_tree) example_pillow
                 example_util fuel
                 {| file_data := one_triangle_glb; file_pos := 0 |} [] = Ok r) /\
    len (sk_geometry r) = len (geometry one_triangle_scene) /\
    forall name mesh,
      In (name, GTrimesh mesh) (geometry one_triangle_scene) ->
      exists kw,
        dict_get (sk_geometry r) name = Some kw /\
        dict_get kw "faces" = Some (KArray (faces_array mesh)) /\
        dict_get kw "vertices"
          = Some (KArray (@positions_array example_float mesh)).
Proof.
  apply (@glb_roundtrip example_float (fixed_json one_triangle_tree)
           example_pillow example_util one_triangle_scene one_triangle_glb).
  - repeat constructor. discriminate.
  - repeat constructor; cbn; lia.
  - repeat constructor. intros [].
  - vm_compute. reflexivity.
  - vm_compute. reflexivity.
  - intros tree items E. vm_compute in E. injection E as <- <-.
    vm_compute. reflexivity.
  - exact one_triangle_nodes_acyclic.
Defined.

(* ================================================================== *)
(** * Further properties of the code *)

(** ** Padding to any boundary *)

(** X1. [_byte_pad(data, bound)] with a positive bound returns the data
    followed by fewer than [bound] zero bytes, none when the length is
    already a multiple of the bound, and the length of the result is a
    multiple of the bound; padding the result again changes nothing.  A
    bound of zero raises [ZeroDivisionError], and a negative bound that
    does not divide the length raises [ValueError] (a negative count of
    bytes). *)
Theorem _byte_pad_bound_spec (data : bytes) (bound : Z) :
  (0 < bound ->
   exists n : nat,
     _byte_pad_bound data bound = Ok (data ++ repeat x00 n) /\
     Z.of_nat n < bound /\
     (len data mod bound = 0 <-> n = 0%nat) /\
     len (data ++ repeat x00 n) mod bound = 0 /\
     _byte_pad_bound (data ++ repeat x00 n) bound = Ok (data ++ repeat x00 n))
  /\ (bound = 0 -> _byte_pad_bound data bound = Raise ZeroDivisionError)
  /\ (bound < 0 -> len data mod bound <> 0 ->
      _byte_pad_bound data bound = Raise (ValueError "negative count")).
Proof.
  split; [|split].
  - intros Hb. unfold _byte_pad_bound, py_mod.
    destruct (bound =? 0) eqn:E0; [apply Z.eqb_eq in E0; lia|]. cbn [bind].
    assert (Hr := Z.mod_pos_bound (len data) bound Hb).
    destruct (len data mod bound =? 0) eqn:E; cbn [negb].
    + apply Z.eqb_eq in E. exists 0%nat. cbn [repeat]. rewrite app_nil_r.
      rewrite E. cbn [Z.eqb negb]. repeat split; auto; lia.
    + apply Z.eqb_neq in E. unfold zero_bytes.
      destruct (bound - len data mod bound <? 0) eqn:E2;
        [apply Z.ltb_lt in E2; lia|].
      cbn [bind].
      set (n := Z.to_nat (bound - len data mod bound)).
      assert (Hal : len (data ++ repeat x00 n) mod bound = 0).
      { rewrite len_app, len_repeat. unfold n. rewrite Z2Nat.id by lia.
        replace (len data + (bound - len data mod bound))
          with (len data - len data mod bound + 1 * bound) by lia.
        rewrite Z.mod_add by lia.
        rewrite Zminus_mod_idemp_r, Z.sub_diag. apply Z.mod_0_l. lia. }
      rewrite Hal. cbn [Z.eqb assert bind negb].
      exists n. split; [reflexivity|]. split; [unfold n; lia|].
      split; [split; [intros; contradiction | unfold n; lia]|].
      split; [exact Hal|]. rewrite Hal. reflexivity.
  - intros ->. reflexivity.
  - intros Hb Hm. unfold _byte_pad_bound, py_mod.
    destruct (bound =? 0) eqn:E0; [apply Z.eqb_eq in E0; lia|]. cbn [bind].
    apply Z.eqb_neq in Hm. rewrite Hm. cbn [negb]. unfold zero_bytes.
    assert (Hr := Z.mod_neg_bound (len data) bound Hb).
    destruct (bound - len data mod bound <? 0) eqn:E2;
      [reflexivity | apply Z.ltb_ge in E2; apply Z.eqb_neq in Hm; lia].
Qed.

(* ------------------------------------------------------------------ *)
(** ** The container of any exported scene *)

Section ContainerRoundTrip.
  Context `{NumpyFloat} `{Json} `{Pillow} `{Util}.

  (** X2. For every scene and either value of [include_normals], when
      [export_glb] returns a file shorter than [2^32] bytes, [load_glb]
      on that file passes the magic, version and chunk checks, hands
      [json.loads] exactly the padded JSON chunk that was written, reads
      one binary chunk, the concatenation of the buffer items, and goes
      on with [_read_buffers] on them: it fails only where [json.loads]
      or [_read_buffers] fails. *)
Theorem load_glb_of_export_glb (scene : Scene) (include_normals : bool)
          (exported : bytes) (fuel : nat) (mesh_kwargs : kwargs) :
    export_glb scene include_normals = Ok exported ->
    len exported < 2 ^ 32 ->
    exists tree items,
      _create_gltf_structure scene include_normals = Ok (tree, items) /\
      load_glb fuel {| file_data := exported; file_pos := 0 |} mesh_kwargs
      = (header <- json_loads (glb_json_chunk tree items) ;;
         _read_buffers fuel header [List.concat items] mesh_kwargs).
  Proof.
    intros E Hlt.
    destruct (export_glb_layout _ _ _ E) as (tree & items & Es & _).
    exists tree, items. split; [assumption|].
    unfold load_glb.
    rewrite (load_glb_chunks_exported _ _ _ _ _ E Es Hlt).
    destruct (json_loads (glb_json_chunk tree items)); reflexivity.
  Qed.
End ContainerRoundTrip.

Lemma load_glb_of_export_glb_witness :
  exists tree items,
    @_create_gltf_structure example_float mixed_scene true = Ok (tree, items) /\
    @load_glb example_float (fixed_json empty_document) example_pillow
              example_util 5
              {| file_data := mixed_glb; file_pos := 0 |} []
    = (header <- @json_loads (fixed_json empty_document)
                   (@glb_json_chunk (fixed_json empty_document) tree items) ;;
       @_read_buffers example_float example_pillow example_util
                      5 header [List.concat items] []).
Proof.
  apply (@load_glb_of_export_glb example_float (fixed_json empty_document)
           example_pillow example_util mixed_scene true mixed_glb 5 []);
    vm_compute; reflexivity.
Defined.

(* ------------------------------------------------------------------ *)
(** ** The bufferViews and the header of a GLB file *)

Lemma glb_views_length (items : list bytes) : forall pos,
  List.length (glb_views pos items) = List.length items.
Proof. induction items; intros; cbn; auto. Qed.

Lemma glb_views_nth (items : list bytes) : forall pos k item,
  nth_error items k = Some item ->
  nth_error (glb_views pos items) k
  = Some {| view_buffer := 0;
            view_byteOffset := pos + len (List.concat (firstn k items));
            view_byteLength := len item |}.
Proof.
  induction items as [|it items IH]; intros pos k item Hn.
  - destruct k; discriminate.
  - destruct k as [|k]; cbn [glb_views nth_error firstn List.concat] in *.
    + injection Hn as <-. change (len []) with 0. now rewrite Z.add_0_r.
    + rewrite (IH _ _ _ Hn), len_app. do 2 f_equal. lia.
Qed.

(** X3. The bufferViews that [export_glb] writes tile its binary chunk:
    there is one view per buffer item, all in buffer 0, the [k]-th one
    starting where the items before it end and as long as its item; and
    the first loop of [_read_buffers] cuts the binary chunk back into
    exactly the buffer items. *)
Theorem glb_views_tile_the_chunk (items : list bytes) :
  len (glb_views 0 items) = len items
  /\ (forall k item,
        nth_error items k = Some item ->
        nth_error (glb_views 0 items) k
        = Some {| view_buffer := 0;
                  view_byteOffset := len (List.concat (firstn k items));
                  view_byteLength := len item |})
  /\ mapM (read_view [List.concat items]) (glb_views 0 items) = Ok items.
Proof.
  split; [|split].
  - unfold len. now rewrite glb_views_length.
  - intros k item Hn. now rewrite (glb_views_nth _ 0 _ _ Hn).
  - apply (glb_views_roundtrip items []).
Qed.

Section GlbHeader.
  Context `{NumpyFloat} `{Json}.

  (** X4. A file that [export_glb] returns starts with the magic number
      of GLB, the version 2 and, in its fifth word, the chunk type JSON;
      the word after the binary chunk length is the chunk type BIN; and
      the length of the file is a multiple of 4. *)
Theorem export_glb_header_words (scene : Scene) (include_normals : bool)
          (exported : bytes) :
    export_glb scene include_normals = Ok exported ->
    exists tree items,
      _create_gltf_structure scene include_normals = Ok (tree, items) /\
      word exported 0 = _magic_gltf /\
      word exported 1 = 2 /\
      word exported 4 = _magic_json /\
      word (skipn (20 + List.length (glb_json_chunk tree items)) exported) 1
        = _magic_bin /\
      len exported mod 4 = 0.
  Proof.
    intros E.
    destruct (export_glb_layout _ _ _ E) as (tree & items & Es & Em & Ex).
    assert (Hal : Forall (fun chunk => len chunk mod 4 = 0) items).
    { unfold _create_gltf_structure in Es. bind_inv Es.
      injection Es as _ <-.
      eapply append_geometries_aligned; [exact Ea|]. constructor. }
    exists tree, items. split; [assumption|]. cbn zeta in *.
    set (json_chunk := glb_json_chunk tree items) in *.
    set (bin_chunk := List.concat items) in *.
    set (head := u4_tobytes [_magic_gltf; 2; len json_chunk + len bin_chunk + 28;
                             len json_chunk; _magic_json]) in *.
    set (bin_head := u4_tobytes [len bin_chunk; _magic_bin]) in *.
    assert (Hh : List.length head = 20%nat) by apply u4_tobytes_length.
    assert (Hb : List.length bin_head = 8%nat) by apply u4_tobytes_length.
    split; [|split; [|split; [|split]]].
    - rewrite Ex. unfold head. now erewrite word_u4_tobytes by reflexivity.
    - rewrite Ex. unfold head. now erewrite word_u4_tobytes by reflexivity.
    - rewrite Ex. unfold head. now erewrite word_u4_tobytes by reflexivity.
    - rewrite Ex. rewrite (Nat.add_comm 20), <- skipn_skipn.
      rewrite skipn_app, Hh, Nat.sub_diag, (skipn_all2 head) by lia.
      cbn [List.app skipn].
      rewrite skipn_app, Nat.sub_diag, (skipn_all2 json_chunk) by lia.
      cbn [List.app skipn]. unfold bin_head.
      now erewrite word_u4_tobytes by reflexivity.
    - assert (Hbin : len bin_chunk mod 4 = 0).
      { unfold bin_chunk. clear -Hal.
        induction Hal as [|c cs Hc _ IH]; [reflexivity|].
        cbn [List.concat]. rewrite len_app, Z.add_mod, Hc, IH by lia.
        reflexivity. }
      rewrite Ex, !len_app. unfold len at 1 3. rewrite Hh, Hb.
      rewrite Z.add_mod, (Z.add_mod (len json_chunk)), Em by lia.
      rewrite (Z.add_mod (Z.of_nat 8)), Hbin by lia. reflexivity.
  Qed.
End GlbHeader.

Lemma export_glb_header_words_witness :
  exists tree items,
    @_create_gltf_structure example_float mixed_scene true = Ok (tree, items) /\
    word mixed_glb 0 = _magic_gltf /\
    word mixed_glb 1 = 2 /\
    word mixed_glb 4 = _magic_json /\
    word (skipn (20 + List.length
                        (@glb_json_chunk (fixed_json empty_document) tree items))
                mixed_glb) 1
      = _magic_bin /\
    len mixed_glb mod 4 = 0.
Proof.
  apply (@export_glb_header_words example_float (fixed_json empty_document)
           mixed_scene true mixed_glb).
  vm_compute. reflexivity.
Defined.

(* ------------------------------------------------------------------ *)
(** ** Accessors and buffer items go in pairs *)

Lemma accessors_match_snoc accessors items (a : Accessor) (item : bytes) :
  accessors_match accessors items ->
  acc_bufferView a = len items ->
  accessors_match (accessors ++ [a]) (items ++ [item]).
Proof.
  intros [Hl Hn] Ha. split.
  - rewrite !len_app, !len_single. lia.
  - intros i b Hi.
    destruct (Nat.lt_ge_cases i (List.length accessors)) as [Hlt|Hge].
    + rewrite nth_error_app1 in Hi by assumption. auto.
    + rewrite nth_error_app2 in Hi by assumption.
      destruct (i - List.length accessors)%nat as [|j] eqn:Ej.
      * injection Hi as <-. rewrite Ha, <- Hl. unfold len. lia.
      * destruct j; discriminate.
Qed.

Section AccessorsMatch.
  Context `{NumpyFloat}.

Lemma _append_mesh_match mesh name tree items incl tree' items' :
    _append_mesh mesh name tree items incl = Ok (tree', items') ->
    accessors_match (doc_accessors tree) items ->
    accessors_match (doc_accessors tree') items'.
  Proof.
    unfold _append_mesh. intros E Hm. bind_inv E.
    assert (Hd : accessors_match (doc_accessors d) l).
    { destruct (units mesh);
        destruct (kind (color_visual (visual mesh))); bind_inv Ea4;
        injection Ea4 as <- <-; tree_simpl;
        repeat (apply accessors_match_snoc; [|reflexivity]); exact Hm. }
    destruct incl; bind_inv E; injection E as <- <-; tree_simpl;
      repeat (apply accessors_match_snoc; [|reflexivity]); exact Hd.
  Qed.

Lemma _append_path_match path name tree items tree' items' :
    _append_path path name tree items = Ok (tree', items') ->
    accessors_match (doc_accessors tree) items ->
    accessors_match (doc_accessors tree') items'.
  Proof.
    unfold _append_path. intros E Hm. bind_inv E. injection E as <- <-.
    destruct (path_units path); tree_simpl;
      apply accessors_match_snoc; auto.
  Qed.

Lemma append_geometries_match geoms : forall tree items incl tree' items',
    append_geometries geoms tree items incl = Ok (tree', items') ->
    accessors_match (doc_accessors tree) items ->
    accessors_match (doc_accessors tree') items'.
  Proof.
    induction geoms as [|[name g] geoms IH];
      intros tree items incl tree' items' E Hm.
    - injection E as <- <-. exact Hm.
    - cbn [append_geometries] in E. bind_inv E.
      eapply IH; [exact E|].
      destruct g.
      + eapply _append_mesh_match; eauto.
      + eapply _append_path_match; eauto.
      + injection Ea as <- <-. exact Hm.
  Qed.

  (** X5. In the structure that [_create_gltf_structure] returns, for
      meshes with or without vertex colors, with or without normals, and
      for paths, there are as many accessors as buffer items and the
      accessor at index [i] names bufferView [i]; [export_glb] writes
      one bufferView per buffer item, so every accessor of a GLB file
      names a bufferView that exists and holds its own data. *)
Theorem accessors_name_their_buffer_item
          (scene : Scene) (include_normals : bool)
          (tree : Document) (buffer_items : list bytes) :
    _create_gltf_structure scene include_normals = Ok (tree, buffer_items) ->
    len (doc_accessors tree) = len buffer_items /\
    len (glb_views 0 buffer_items) = len buffer_items /\
    forall (i : nat) (a : Accessor),
      nth_error (doc_accessors tree) i = Some a ->
      acc_bufferView a = Z.of_nat i /\
      exists item,
        nth_error buffer_items i = Some item /\
        nth_error (glb_views 0 buffer_items) i
        = Some {| view_buffer := 0;
                  view_byteOffset := len (List.concat (firstn i buffer_items));
                  view_byteLength := len item |}.
  Proof.
    unfold _create_gltf_structure. intros E. bind_inv E.
    assert (Hm : accessors_match (doc_accessors d) l).
    { eapply append_geometries_match; [exact Ea|]. split; [reflexivity|].
      intros [|i] acc Hi; discriminate. }
    injection E as <- <-.
    assert (Hacc : doc_accessors (if len a =? 0 then set_materials d None else d)
                   = doc_accessors d) by (destruct (len a =? 0); reflexivity).
    rewrite Hacc. destruct Hm as [Hl Hn].
    split; [exact Hl|].
    split; [unfold len; now rewrite glb_views_length|].
    intros i acc Hi. split; [auto|].
    assert (Hlt : (i < List.length l)%nat).
    { assert (Hs : nth_error (doc_accessors d) i <> None) by congruence.
      apply nth_error_Some in Hs. unfold len in Hl. lia. }
    destruct (nth_error l i) as [item|] eqn:Ei.
    - exists item. split; [reflexivity|].
      now rewrite (glb_views_nth _ 0 _ _ Ei).
    - apply nth_error_None in Ei. lia.
  Qed.
End AccessorsMatch.

Lemma accessors_name_their_buffer_item_witness :
  len (doc_accessors (fst mixed_structure)) = len (snd mixed_structure) /\
  len (glb_views 0 (snd mixed_structure)) = len (snd mixed_structure) /\
  forall (i : nat) (a : Accessor),
    nth_error (doc_accessors (fst mixed_structure)) i = Some a ->
    acc_bufferView a = Z.of_nat i /\
    exists item,
      nth_error (snd mixed_structure) i = Some item /\
      nth_error (glb_views 0 (snd mixed_structure)) i
      = Some {| view_buffer := 0;
                view_byteOffset :=
                  len (List.concat (firstn i (snd mixed_structure)));
                view_byteLength := len item |}.
Proof.
  apply (@accessors_name_their_buffer_item example_float mixed_scene false
           (fst mixed_structure) (snd mixed_structure)).
  vm_compute. reflexivity.
Defined.

(* ------------------------------------------------------------------ *)
(** ** Primitives that are not triangles *)

Section SkippedPrimitives.
  Context `{NumpyFloat}.

Lemma read_primitives_skips access materials mesh_kwargs index m metadata :
    forall prims st,
      Forall (fun jp => exists mode,
                  prim_mode (snd jp) = Some mode /\ mode <> 4) prims ->
      read_primitives access materials mesh_kwargs index m metadata prims st
      = Ok st.
  Proof.
    induction prims as [|[j p] prims IH]; intros st HF; [reflexivity|].
    inversion HF as [|? ? (mode & Hm & Hne) HF']; subst. cbn [snd] in Hm.
    cbn [read_primitives]. rewrite Hm.
    apply Z.eqb_neq in Hne. rewrite Hne. cbn [negb]. auto.
  Qed.

Lemma Forall_enumerate_from {A : Type} (P : A -> Prop) (l : list A) :
    forall start, Forall P l ->
                  Forall (fun jp => P (snd jp)) (enumerate_from start l).
  Proof.
    induction l as [|x l IH]; intros start HF; cbn; constructor;
      inversion HF; subst; auto.
  Qed.

  (** X6. The importer skips every primitive whose mode is given and is
      not 4: a mesh with such primitives only leaves the geometries and
      the names per mesh as they were, whatever its accessors hold.  A
      path is exported by [_append_path] as a mesh record with a single
      primitive of mode 1 (lines) and no indices, so the import of an
      exported path yields no geometry for it. *)
Theorem non_triangles_are_skipped :
    (forall access materials mesh_kwargs index (m : Mesh) st,
        Forall (fun p => exists mode, prim_mode p = Some mode /\ mode <> 4)
               (mesh_primitives m) ->
        read_mesh access materials mesh_kwargs index m st = Ok st)
    /\
    (forall (path : Path) (name : string) (tree : Document) (items : list bytes)
            (tree' : Document) (items' : list bytes),
        _append_path path name tree items = Ok (tree', items') ->
        exists m p,
          doc_meshes tree' = doc_meshes tree ++ [m] /\
          mesh_name m = Some name /\
          mesh_primitives m = [p] /\
          prim_mode p = Some 1 /\
          prim_indices p = None).
  Proof.
    split.
    - intros access materials mesh_kwargs index m st HF. unfold read_mesh.
      apply read_primitives_skips. unfold enumerate.
      apply (Forall_enumerate_from
               (fun p => exists mode, prim_mode p = Some mode /\ mode <> 4)).
      exact HF.
    - intros path name tree items tree' items'.
      unfold _append_path. intros E. bind_inv E. injection E as <- _.
      destruct (path_units path) as [u|]; tree_simpl;
        eexists; eexists; (split; [reflexivity|]); cbn;
        repeat (split; [reflexivity|]); reflexivity.
  Qed.
End SkippedPrimitives.

Lemma non_triangles_are_skipped_witness :
  exists m p,
    doc_meshes (fst example_path_structure)
      = doc_meshes (fst mixed_structure) ++ [m] /\
    mesh_name m = Some "line"%string /\
    mesh_primitives m = [p] /\
    prim_mode p = Some 1 /\
    prim_indices p = None /\
    forall access materials mesh_kwargs index st,
      @read_mesh example_float access materials mesh_kwargs index m st = Ok st.
Proof.
  destruct (@non_triangles_are_skipped example_float) as [Hskip Hpath].
  destruct (Hpath example_path "line"%string
              (fst mixed_structure) (snd mixed_structure)
              (fst example_path_structure) (snd example_path_structure)
              ltac:(vm_compute; reflexivity))
    as (m & p & Hm & Hn & Hp & Hmode & Hi).
  exists m, p. repeat (split; [assumption|]).
  intros. apply Hskip. rewrite Hp. repeat constructor.
  exists 1. split; [assumption|lia].
Defined.

(* ------------------------------------------------------------------ *)
(** ** Materials written and read back *)

Section MaterialRoundTrip.
  Context `{NumpyFloat} `{Pillow}.



End MaterialRoundTrip.


(* ------------------------------------------------------------------ *)
(** ** BufferViews that do not fit their buffer *)

Lemma slice_length {A : Type} (l : list A) (start stop : Z) :
  0 <= start -> 0 <= stop ->
  len (slice l start stop) = Z.max 0 (Z.min stop (len l) - Z.min start (len l)).
Proof.
  intros Hs He. unfold slice, slice_bound.
  destruct (start <? 0) eqn:E1; [apply Z.ltb_lt in E1; lia|].
  destruct (stop <? 0) eqn:E2; [apply Z.ltb_lt in E2; lia|].
  assert (Hn := len_nonneg l).
  unfold len in *. rewrite length_firstn, length_skipn. lia.
Qed.

(** X8. For a bufferView with a non-negative offset, in a buffer that
    exists: when offset plus length is within the buffer, the view is
    the [byteLength] bytes that follow the first [byteOffset] bytes of
    the buffer; when a view of positive length reaches past the end of
    the buffer, or when the length is negative, the assertion on the
    length of the view fails; a view of length 0 is empty wherever it
    starts.  A buffer index out of range raises [IndexError]. *)
Theorem read_view_spec (buffers : list bytes) (view : BufferView) :
  (forall buffer,
      getitem buffers (view_buffer view) = Ok buffer ->
      0 <= view_byteOffset view ->
      (0 <= view_byteLength view ->
       view_byteOffset view + view_byteLength view <= len buffer ->
       read_view buffers view
       = Ok (firstn (Z.to_nat (view_byteLength view))
                    (skipn (Z.to_nat (view_byteOffset view)) buffer)))
      /\ (0 < view_byteLength view ->
          len buffer < view_byteOffset view + view_byteLength view ->
          read_view buffers view = Raise AssertionError)
      /\ (view_byteLength view < 0 ->
          read_view buffers view = Raise AssertionError)
      /\ (view_byteLength view = 0 -> read_view buffers view = Ok []))
  /\ (getitem buffers (view_buffer view) = Raise IndexError ->
      read_view buffers view = Raise IndexError).
Proof.
  split.
  - intros buffer Hb Ho. unfold read_view. rewrite Hb. cbn [bind].
    set (o := view_byteOffset view) in *. set (n := view_byteLength view) in *.
    assert (Hl := len_nonneg buffer).
    split; [|split; [|split]].
    + intros Hn Hfit.
      assert (Hs : len (slice buffer o (o + n)) = n).
      { rewrite slice_length by lia. lia. }
      rewrite Hs, Z.eqb_refl. cbn [assert bind]. f_equal.
      unfold slice, slice_bound.
      destruct (o <? 0) eqn:E1; [apply Z.ltb_lt in E1; lia|].
      destruct (o + n <? 0) eqn:E2; [apply Z.ltb_lt in E2; lia|].
      rewrite !Z.min_l by lia. do 2 f_equal. lia.
    + intros Hn Hover.
      assert (Hs : len (slice buffer o (o + n)) <> n).
      { rewrite slice_length by lia. lia. }
      apply Z.eqb_neq in Hs. rewrite Hs. reflexivity.
    + intros Hneg.
      assert (Hs : len (slice buffer o (o + n)) <> n).
      { assert (H0 := len_nonneg (slice buffer o (o + n))). lia. }
      apply Z.eqb_neq in Hs. rewrite Hs. reflexivity.
    + intros Hz.
      assert (Hs : len (slice buffer o (o + n)) = n).
      { rewrite slice_length by lia. lia. }
      rewrite Hs, Z.eqb_refl. cbn [assert bind]. f_equal.
      destruct (slice buffer o (o + n)) as [|b bs]; [reflexivity|].
      rewrite len_cons in Hs. assert (H0 := len_nonneg bs). lia.
  - intros Hb. unfold read_view. rewrite Hb. reflexivity.
Qed.

Lemma read_view_spec_witness :
  read_view [example_buffer] inner_view = Ok (u4_tobytes [2])
  /\ read_view [example_buffer]
       {| view_buffer := 0; view_byteOffset := 4; view_byteLength := 8 |}
     = Raise AssertionError
  /\ read_view [example_buffer]
       {| view_buffer := 1; view_byteOffset := 0; view_byteLength := 4 |}
     = Raise IndexError.
Proof.
  split; [|split].
  - destruct (read_view_spec [example_buffer] inner_view) as [Hin _].
    destruct (Hin example_buffer eq_refl ltac:(cbn; lia)) as (Hfit & _ & _ & _).
    rewrite Hfit; [reflexivity | cbn; lia | vm_compute; congruence].
  - destruct (read_view_spec [example_buffer]
                {| view_buffer := 0; view_byteOffset := 4;
                   view_byteLength := 8 |}) as [Hin _].
    destruct (Hin example_buffer eq_refl ltac:(cbn; lia)) as (_ & Hover & _ & _).
    apply Hover; [cbn; lia | vm_compute; reflexivity].
  - destruct (read_view_spec [example_buffer]
                {| view_buffer := 1; view_byteOffset := 0;
                   view_byteLength := 4 |}) as [_ Hout].
    apply Hout. reflexivity.
Defined.

(* ------------------------------------------------------------------ *)
(** ** The chunk loop ends *)

Lemma read_chunks_fuel (fuel : nat) : forall start length g buffers,
  (List.length (remaining g) < fuel)%nat ->
  ends (read_chunks fuel start length g buffers).
Proof.
  induction fuel as [|fuel IH]; intros start length g buffers Hf; [lia|].
  rewrite read_chunks_step.
  destruct (tell g - start <? length); [|exact I].
  destruct (len (remaining g) <? 8) eqn:E8; [exact I|].
  apply Z.ltb_ge in E8.
  destruct (negb (word (remaining g) 1 =? _magic_bin)); [exact I|].
  cbn zeta.
  destruct (negb (len (firstn (Z.to_nat (word (remaining g) 0))
                              (skipn 8 (remaining g)))
                  =? word (remaining g) 0)); [exact I|].
  apply IH. rewrite remaining_advance, length_skipn.
  unfold len in E8. lia.
Qed.

Section ChunkLoop.
  Context `{Json}.

  (** X9. The part of [load_glb] that reads the container ends on every
      file, wherever the file object stands: each turn of the chunk loop
      that goes on consumes the eight bytes of a chunk header, so a
      number of turns above the number of unread bytes is never used
      up.  (Given that [json.loads] itself returns or raises.) *)
Theorem load_glb_chunks_terminates (file_obj : File) :
    (forall data, ends (json_loads data)) ->
    ends (load_glb_chunks file_obj).
  Proof.
    intros Hjson. unfold load_glb_chunks. rewrite read_spec.
    cbv zeta.
    destruct (frombuffer_u4 _) as [head| |] eqn:Eh; cbn [bind ends]; auto.
    2:{ unfold frombuffer_u4 in Eh. destruct (negb _); discriminate. }
    assert (Hg : forall i, ends (getitem head i)).
    { intros i. unfold getitem.
      destruct (_ || _); [exact I|].
      destruct (nth_error _ _); exact I. }
    assert (Hg0 := Hg 0). assert (Hg1 := Hg 1).
    destruct (getitem head 0) as [head0| |]; cbn [bind ends]; auto.
    destruct (negb (head0 =? _magic_gltf)); cbn [bind ends]; auto.
    destruct (getitem head 1) as [head1| |]; cbn [bind ends]; auto.
    destruct (negb (head1 =? 2)); cbn [bind ends]; auto.
    destruct (unpack3 (slice head 2 (len head)))
      as [[[length chunk_length] chunk_type]| |] eqn:Eu; cbn [bind ends]; auto.
    2:{ unfold unpack3 in Eu.
        destruct (slice head 2 (len head)) as [|a [|b [|c [|d l]]]]; discriminate. }
    destruct (negb (chunk_type =? _magic_json)); cbn [ends]; auto.
    rewrite read_spec.
    assert (Hj := Hjson (firstn (Z.to_nat chunk_length)
                                (remaining (advance file_obj
                                   (List.length (firstn (Z.to_nat 20)
                                                        (remaining file_obj))))))).
    destruct (json_loads _) as [header| |]; cbn [bind ends]; auto.
    match goal with
    | |- ends (bind (read_chunks ?fuel ?start ?length ?g ?bs) _) =>
        assert (Hr : ends (read_chunks fuel start length g bs))
    end.
    { apply read_chunks_fuel.
      unfold remaining. cbn [file_data file_pos advance].
      rewrite length_skipn. lia. }
    destruct (read_chunks _ _ _ _ _); cbn [bind ends]; auto.
  Qed.
End ChunkLoop.

Lemma load_glb_chunks_terminates_witness :
  ends (@load_glb_chunks (fixed_json empty_document) short_file).
Proof.
  apply (@load_glb_chunks_terminates (fixed_json empty_document) short_file).
  intros data. exact I.
Defined.

(* ------------------------------------------------------------------ *)
(** ** A graph loop that does not end *)

Section SelfChild.
  Context `{Util}.
  Variable nodes : list Node.
  Variable names : list (key * string).
  Variable mesh_prim : list (Z * list string).

  (** X10. The graph loop of [_read_buffers] keeps no record of the
      nodes it has visited.  When a node that it reaches lists itself as
      its last child (and has a name and a well-formed matrix, so that
      its visit succeeds), every visit of the node queues the node
      again and the loop never ends: no number of turns is enough. *)
Theorem self_child_never_ends (a : key) (b : Z) (child : Node)
          (others : list Z) (from to : string) (m : list (list float64)) :
    getitem nodes b = Ok child ->
    node_children child = Some (others ++ [b]) ->
    node_transform child = Ok m ->
    names_item names (KInt b) = Ok to ->
    names_item names a = Ok from ->
    forall (fuel : nat) (queue : list (key * Z)) (graph : list Edge),
      walk nodes names mesh_prim fuel ((a, b) :: queue) graph = OutOfFuel.
  Proof.
    intros Hc Hch Hm Hto Hfrom fuel. revert a from Hfrom.
    induction fuel as [|fuel IH]; intros a from Hfrom queue graph;
      [reflexivity|].
    cbn [walk]. unfold visit. rewrite Hc. cbn [bind]. rewrite Hch.
    rewrite Hfrom. cbn [bind]. rewrite Hto. cbn [bind]. rewrite Hm.
    cbn [bind]. rewrite map_app, rev_app_distr. cbn [map List.rev List.app].
    destruct (node_mesh child); cbn [bind]; eapply IH; exact Hto.
  Qed.
End SelfChild.

Lemma self_child_never_ends_witness :
  @walk example_util self_child_nodes
        (names_set (node_names self_child_nodes) (KStr "world") "world")
        [] 1000 [(KStr "world", 0)] []
  = OutOfFuel.
Proof.
  apply (@self_child_never_ends example_util self_child_nodes
           (names_set (node_names self_child_nodes) (KStr "world") "world")
           [] (KStr "world") 0
           {| node_name := None; node_children := Some [0];
              node_matrix := None; node_mesh := None |}
           [] "world" "0" eye4);
    reflexivity.
Defined.

(* ------------------------------------------------------------------ *)
(** ** The padding of the JSON chunk *)

Lemma encode_utf8_app (s t : string) :
  encode_utf8 (s ++ t) = encode_utf8 s ++ encode_utf8 t.
Proof.
  induction s as [|c s IH]; [reflexivity|].
  cbn [String.append encode_utf8]. now rewrite IH, app_assoc.
Qed.

Lemma encode_utf8_spaces (n : nat) : encode_utf8 (spaces n) = repeat x20 n.
Proof. induction n as [|n IH]; [reflexivity|]. cbn. now rewrite IH. Qed.

Lemma encode_utf8_ascii (s : string) :
  ascii_text s -> len (encode_utf8 s) = str_len s.
Proof.
  unfold str_len. induction s as [|c s IH]; [reflexivity|].
  intros [Hc Hs]. cbn [encode_utf8 String.length]. unfold encode_char.
  apply Z.ltb_lt in Hc. rewrite Hc. cbn [List.app].
  rewrite len_cons, IH by assumption. lia.
Qed.

Section JsonPadding.
  Context `{NumpyFloat} `{Json}.

  (** X13. [export_glb] appends between one and four spaces to the JSON
      text, four when the text already ends on a 4-byte boundary of the
      file, and when the text is ASCII the padded chunk ends on such a
      boundary: the assertion on its length holds, and [export_glb]
      returns whenever [_create_gltf_structure] does. *)
Theorem json_chunk_padding (scene : Scene) (include_normals : bool)
          (tree : Document) (buffer_items : list bytes) :
    _create_gltf_structure scene include_normals = Ok (tree, buffer_items) ->
    let content := json_dumps (glb_tree tree buffer_items) in
    exists pad : nat,
      (1 <= pad <= 4)%nat /\
      ((str_len content + 20) mod 4 = 0 <-> pad = 4%nat) /\
      glb_json_chunk tree buffer_items
      = encode_utf8 content ++ repeat x20 pad /\
      (ascii_text content ->
       len (glb_json_chunk tree buffer_items) = str_len content + Z.of_nat pad /\
       (len (glb_json_chunk tree buffer_items) + 20) mod 4 = 0 /\
       exists exported, export_glb scene include_normals = Ok exported).
  Proof.
    intros Es content.
    assert (Hr := Z.mod_pos_bound (str_len content + 20) 4 ltac:(lia)).
    set (pad := Z.to_nat (4 - (str_len content + 20) mod 4)).
    exists pad. split; [unfold pad; lia|]. split; [unfold pad; lia|].
    assert (Hchunk : glb_json_chunk tree buffer_items
                     = encode_utf8 content ++ repeat x20 pad).
    { unfold glb_json_chunk. fold content. fold pad.
      now rewrite encode_utf8_app, encode_utf8_spaces. }
    split; [exact Hchunk|].
    intros Hascii.
    assert (Hlen : len (glb_json_chunk tree buffer_items)
                   = str_len content + Z.of_nat pad).
    { rewrite Hchunk, len_app, len_repeat, encode_utf8_ascii by assumption.
      reflexivity. }
    assert (Hal : (len (glb_json_chunk tree buffer_items) + 20) mod 4 = 0).
    { rewrite Hlen. unfold pad. rewrite Z2Nat.id by lia.
      replace (str_len content + (4 - (str_len content + 20) mod 4) + 20)
        with (str_len content + 20 - (str_len content + 20) mod 4 + 1 * 4)
        by lia.
      rewrite Z.mod_add by lia.
      rewrite Zminus_mod_idemp_r, Z.sub_diag. reflexivity. }
    split; [exact Hlen|]. split; [exact Hal|].
    assert (Hm : len (glb_json_chunk tree buffer_items) mod 4 = 0).
    { rewrite <- Hal. rewrite (Z.add_mod _ 20) by lia.
      change (20 mod 4) with 0. rewrite Z.add_0_r, Z.mod_mod by lia.
      reflexivity. }
    unfold export_glb. rewrite Es. cbn [bind].
    fold (glb_tree tree buffer_items). fold (glb_json_chunk tree buffer_items).
    rewrite Hm. cbn [Z.eqb assert bind].
    rewrite !_byte_pad_aligned.
    - cbn [bind]. eexists. reflexivity.
    - unfold len. now rewrite u4_tobytes_length.
    - unfold len. now rewrite u4_tobytes_length.
  Qed.
End JsonPadding.

Lemma json_chunk_padding_witness :
  let content :=
    @json_dumps (fixed_json empty_document)
                (glb_tree (fst mixed_structure) (snd mixed_structure)) in
  exists pad : nat,
    (1 <= pad <= 4)%nat /\
    ((str_len content + 20) mod 4 = 0 <-> pad = 4%nat) /\
    @glb_json_chunk (fixed_json empty_document)
                    (fst mixed_structure) (snd mixed_structure)
    = encode_utf8 content ++ repeat x20 pad /\
    (ascii_text content ->
     len (@glb_json_chunk (fixed_json empty_document)
                          (fst mixed_structure) (snd mixed_structure))
     = str_len content + Z.of_nat pad /\
     (len (@glb_json_chunk (fixed_json empty_document)
                           (fst mixed_structure) (snd mixed_structure)) + 20)
       mod 4 = 0 /\
     exists exported,
       @export_glb example_float (fixed_json empty_document) mixed_scene false
       = Ok exported).
Proof.
  apply (@json_chunk_padding example_float (fixed_json empty_document)
           mixed_scene false (fst mixed_structure) (snd mixed_structure)).
  vm_compute. reflexivity.
Defined.

(* ------------------------------------------------------------------ *)
(** ** The order of the mesh records *)

Section MeshOrder.
  Context `{NumpyFloat}.

Lemma _append_mesh_name mesh name tree items incl tree' items' :
    _append_mesh mesh name tree items incl = Ok (tree', items') ->
    exists m, doc_meshes tree' = doc_meshes tree ++ [m] /\
              mesh_name m = Some name.
  Proof.
    unfold _append_mesh. intros E. bind_inv E. forget_data.
    destruct (units mesh) as [u|];
      destruct (kind (color_visual (visual mesh))) as [k|];
      bind_inv Ea4; forget_data; tree_simpl;
      try (destruct (doc_materials tree); try discriminate;
           injection Ea as <-);
      injection Ea4 as <- <-;
      destruct incl; bind_inv E; forget_data; injection E as <- <-;
      tree_simpl; eexists; (split; [reflexivity|]); reflexivity.
  Qed.

Lemma _append_path_name path name tree items tree' items' :
    _append_path path name tree items = Ok (tree', items') ->
    exists m, doc_meshes tree' = doc_meshes tree ++ [m] /\
              mesh_name m = Some name.
  Proof.
    unfold _append_path. intros E. bind_inv E. forget_data.
    injection E as <- <-.
    destruct (path_units path); tree_simpl; eexists;
      (split; [reflexivity|]); reflexivity.
  Qed.

Lemma append_geometries_names geoms : forall tree items incl tree' items',
    append_geometries geoms tree items incl = Ok (tree', items') ->
    map mesh_name (doc_meshes tree')
    = map mesh_name (doc_meshes tree)
      ++ map (fun g => Some (fst g))
             (filter (fun g => is_exported (snd g)) geoms).
  Proof.
    induction geoms as [|[name g] geoms IH];
      intros tree items incl tree' items' E.
    - injection E as <- <-. cbn. now rewrite app_nil_r.
    - cbn [append_geometries] in E. bind_inv E.
      rewrite (IH _ _ _ _ _ E). cbn [filter snd].
      destruct g as [mesh|path|]; cbn [is_exported map fst].
      + destruct (_append_mesh_name _ _ _ _ _ _ _ Ea) as (m & -> & Hn).
        rewrite map_app, <- app_assoc. cbn [map List.app]. now rewrite Hn.
      + destruct (_append_path_name _ _ _ _ _ _ Ea) as (m & -> & Hn).
        rewrite map_app, <- app_assoc. cbn [map List.app]. now rewrite Hn.
      + now injection Ea as <- <-.
  Qed.

  (** X15. The mesh records of the exported tree are, in order, those
      of the geometries of the scene that are triangle meshes or paths,
      each under the name of its geometry; a geometry of another kind
      gets no record.  The mesh index given to the graph emitter counts
      all geometries: when every geometry is a triangle mesh or a path,
      the index it gives a name is the position of the mesh record of
      that name. *)
Theorem mesh_records_follow_geometries
          (scene : Scene) (include_normals : bool)
          (tree : Document) (buffer_items : list bytes) :
    _create_gltf_structure scene include_normals = Ok (tree, buffer_items) ->
    map mesh_name (doc_meshes tree)
    = map (fun g => Some (fst g))
          (filter (fun g => is_exported (snd g)) (geometry scene))
    /\ (forallb (fun g => is_exported (snd g)) (geometry scene) = true ->
        forall (i : nat) (name : string),
          nth_error (dict_keys (geometry scene)) i = Some name ->
          exists m, nth_error (doc_meshes tree) i = Some m /\
                    mesh_name m = Some name).
  Proof.
    unfold _create_gltf_structure. intros E. bind_inv E.
    injection E as <- _.
    assert (Hms : doc_meshes (if len a =? 0 then set_materials d None else d)
                  = doc_meshes d) by (destruct (len a =? 0); reflexivity).
    rewrite Hms. apply append_geometries_names in Ea. cbn [doc_meshes map] in Ea.
    cbn [List.app] in Ea. split; [exact Ea|].
    intros Hall i name Hi.
    assert (Hf : filter (fun g => is_exported (snd g)) (geometry scene)
                 = geometry scene).
    { clear -Hall. induction (geometry scene) as [|g l IH]; [reflexivity|].
      cbn [forallb filter] in *. apply andb_prop in Hall. destruct Hall as [-> Hl].
      now rewrite IH. }
    rewrite Hf in Ea. unfold dict_keys in Hi.
    assert (Hn : nth_error (map mesh_name (doc_meshes d)) i = Some (Some name)).
    { rewrite Ea. rewrite nth_error_map in *.
      destruct (nth_error (geometry scene) i) as [g|]; [|discriminate].
      cbn in *. congruence. }
    rewrite nth_error_map in Hn.
    destruct (nth_error (doc_meshes d) i) as [m|]; [|discriminate].
    exists m. split; [reflexivity|]. cbn in Hn. congruence.
  Qed.
End MeshOrder.

Lemma mesh_records_follow_geometries_witness :
  map mesh_name (doc_meshes (fst mixed_structure))
  = map (fun g => Some (fst g))
        (filter (fun g => is_exported (snd g)) (geometry mixed_scene))
  /\ (forallb (fun g => is_exported (snd g)) (geometry mixed_scene) = true ->
      forall (i : nat) (name : string),
        nth_error (dict_keys (geometry mixed_scene)) i = Some name ->
        exists m, nth_error (doc_meshes (fst mixed_structure)) i = Some m /\
                  mesh_name m = Some name).
Proof.
  apply (@mesh_records_follow_geometries example_float mixed_scene false
           (fst mixed_structure) (snd mixed_structure)).
  vm_compute. reflexivity.
Defined.

(* ------------------------------------------------------------------ *)
(** ** The keyword arguments of the caller *)

Lemma dict_get_update {V : Type} (e : list (string * V)) :
  forall (d : list (string * V)) (k : string),
    NoDup (map fst e) ->
    dict_get (dict_update d e) k
    = match dict_get e k with
      | Some v => Some v
      | None => dict_get d k
      end.
Proof.
  unfold dict_update.
  induction e as [|[k0 v0] e IH]; intros d k Hnd; [reflexivity|].
  cbn [fold_left fst snd map dict_get] in *.
  inversion Hnd as [|? ? Hni Hnd']; subst.
  rewrite IH by assumption.
  destruct (String.eqb k0 k) eqn:E.
  - apply String.eqb_eq in E. subst k0.
    assert (He : dict_get e k = None).
    { clear -Hni. induction e as [|[k1 v1] e IH]; [reflexivity|].
      cbn [map fst In dict_get] in *.
      destruct (String.eqb k1 k) eqn:E1.
      - apply String.eqb_eq in E1. tauto.
      - apply IH. tauto. }
    rewrite He. apply dict_get_set_same.
  - apply String.eqb_neq in E.
    destruct (dict_get e k); [reflexivity|].
    now apply dict_get_set_other.
Qed.

Section CallerKwargs.
  Context `{NumpyFloat}.

  (** X16. The keyword arguments that the caller of [load_glb] passes
      reach every mesh: in the arguments built for a triangle primitive
      every key other than [metadata], [faces], [vertices] and [visual]
      has the caller's value (or is absent as there), whereas [faces]
      and [vertices] are always the arrays of the file, the faces with
      three columns, whatever the caller passed under these names.  A
      caller's [metadata] that is [None], a number, a string, a list or
      an array has no [update] and raises [AttributeError]. *)
Theorem caller_kwargs_reach_meshes (access : list ndarray)
          (materials : list PBRMaterial) (mesh_kwargs : kwargs)
          (metadata : list (string * string)) (p : Primitive) :
    NoDup (map fst mesh_kwargs) ->
    (forall kw,
        primitive_kwargs access materials mesh_kwargs metadata p = Ok kw ->
        (forall k : string,
            k <> "metadata"%string -> k <> "faces"%string ->
            k <> "vertices"%string -> k <> "visual"%string ->
            dict_get kw k = dict_get mesh_kwargs k)
        /\ (exists i raw faces,
               prim_indices p = Some i /\ getitem access i = Ok raw /\
               reshape raw (Shape2 (-1) 3) = Ok faces /\
               dict_get kw "faces" = Some (KArray faces))
        /\ (exists i vertices,
               dict_get (prim_attributes p) "POSITION" = Some i /\
               getitem access i = Ok vertices /\
               dict_get kw "vertices" = Some (KArray vertices)))
    /\ (forall v,
           dict_get mesh_kwargs "metadata" = Some v ->
           (exists a, v = KArray a) \/
           (exists j, v = KOther j /\ forall d, j <> JDict d) ->
           primitive_kwargs access materials mesh_kwargs metadata p
           = Raise AttributeError).
  Proof.
    intros Hnd. split.
    - intros kw E. unfold primitive_kwargs in E.
      apply bind_Ok in E. destruct E as (kw0 & E0 & E).
      assert (H0 : forall k : string, k <> "metadata"%string ->
                     dict_get kw0 k = dict_get mesh_kwargs k).
      { intros k Hk.
        destruct (dict_get (dict_update [("metadata"%string, KMetadata [])]
                                        mesh_kwargs) "metadata")
          as [[d| | |]|]; try discriminate.
        injection E0 as <-.
        rewrite dict_get_set_other by congruence.
        rewrite dict_get_update by assumption.
        destruct (dict_get mesh_kwargs k); [reflexivity|].
        cbn [dict_get]. apply String.eqb_neq in Hk.
        rewrite String.eqb_sym in Hk.
        now rewrite Hk. }
      bind_inv E.
      unfold required in Ea. destruct (prim_indices p) as [i|] eqn:Ei;
        [|discriminate]. injection Ea as <-.
      unfold dict_item in Ea2.
      destruct (dict_get (prim_attributes p) "POSITION") as [pos|] eqn:Epos;
        [|discriminate]. injection Ea2 as <-.
      set (kw1 := dict_set (dict_set kw0 "faces" (KArray a1)) "vertices"
                           (KArray a3)) in *.
      assert (H1 : forall k : string,
                 k <> "faces"%string -> k <> "vertices"%string ->
                 dict_get kw1 k = dict_get kw0 k).
      { intros k Hf Hv. unfold kw1.
        rewrite !dict_get_set_other by congruence. reflexivity. }
      assert (Hfaces : dict_get kw1 "faces" = Some (KArray a1)).
      { unfold kw1. rewrite dict_get_set_other by discriminate.
        apply dict_get_set_same. }
      assert (Hverts : dict_get kw1 "vertices" = Some (KArray a3))
        by apply dict_get_set_same.
      assert (Hkw : kw = kw1 \/
                    exists v, kw = dict_set kw1 "visual" v).
      { destruct (dict_get (prim_attributes p) "TEXCOORD_0");
          [|left; now injection E].
        destruct (prim_material p); [|left; now injection E].
        bind_inv E. injection E as <-. right. eexists. reflexivity. }
      destruct Hkw as [->|(v & ->)].
      + split; [|split].
        * intros k Hm Hf Hv _. rewrite H1, H0; auto.
        * exists i, a0, a1. auto.
        * exists pos, a3. auto.
      + split; [|split].
        * intros k Hm Hf Hv Hvis.
          rewrite dict_get_set_other by congruence. rewrite H1, H0; auto.
        * exists i, a0, a1. repeat (split; [assumption|]).
          now rewrite dict_get_set_other by discriminate.
        * exists pos, a3. repeat (split; [assumption|]).
          now rewrite dict_get_set_other by discriminate.
    - intros v Hv Hnot. unfold primitive_kwargs.
      rewrite dict_get_update, Hv by assumption.
      destruct Hnot as [(a & ->)|(j & -> & _)]; reflexivity.
  Qed.
End CallerKwargs.

Lemma caller_kwargs_reach_meshes_witness :
  dict_get example_kwargs "process" = Some (KOther (JBool false))
  /\ exists faces,
      reshape example_index_array (Shape2 (-1) 3) = Ok faces /\
      dict_get example_kwargs "faces" = Some (KArray faces).
Proof.
  destruct (@caller_kwargs_reach_meshes example_float
              [example_index_array; example_vertex_array] []
              example_mesh_kwargs [] example_primitive
              ltac:(repeat constructor; cbn; intuition congruence))
    as [Hok _].
  destruct (Hok example_kwargs eq_refl)
    as (Hpass & (i & raw & faces & Hi & Hraw & Hre & Hf) & _).
  split.
  - rewrite Hpass by discriminate. reflexivity.
  - exists faces. cbn in Hi. injection Hi as <-.
    cbn in Hraw. injection Hraw as <-. auto.
Defined.

(* ------------------------------------------------------------------ *)
(** ** The names of several primitives *)

Lemma dict_in_set_same {V : Type} (d : list (string * V)) (k : string) (v : V) :
  dict_in (dict_set d k v) k = true.
Proof. unfold dict_in. now rewrite dict_get_set_same. Qed.

Lemma dict_in_set_mono {V : Type} (d : list (string * V)) (k k' : string) (v : V) :
  dict_in d k' = true -> dict_in (dict_set d k v) k' = true.
Proof.
  intros Hin. destruct (String.eqb k k') eqn:E.
  - apply String.eqb_eq in E. subst. apply dict_in_set_same.
  - apply String.eqb_neq in E. unfold dict_in in *.
    now rewrite dict_get_set_other.
Qed.

Section PrimitiveNames.
  Context `{NumpyFloat}.
  Variable access : list ndarray.
  Variable materials : list PBRMaterial.
  Variable mesh_kwargs : kwargs.

Lemma read_primitives_keeps_keys index m metadata : forall prims st st' k,
    read_primitives access materials mesh_kwargs index m metadata prims st
    = Ok st' ->
    dict_in (fst st) k = true -> dict_in (fst st') k = true.
  Proof.
    induction prims as [|[j p] prims IH]; intros st st' k E Hin.
    - now injection E as <-.
    - cbn [read_primitives] in E.
      destruct (match prim_mode p with
                | Some mode => negb (mode =? 4)
                | None => false
                end); [eauto|].
      apply bind_Ok in E. destruct E as (kw & _ & E).
      destruct st as [meshes mp]. eapply IH; [exact E|].
      cbn [fst] in *. now apply dict_in_set_mono.
  Qed.

Lemma read_primitives_names index m metadata :
    1 < len (mesh_primitives m) ->
    forall prims st st',
    read_primitives access materials mesh_kwargs index m metadata prims st
    = Ok st' ->
    mesh_prim_get (snd st') index
    = mesh_prim_get (snd st) index ++ primitive_names m prims
    /\ Forall (fun name => dict_in (fst st') name = true)
              (primitive_names m prims).
  Proof.
    intros Hmany. apply Z.ltb_lt in Hmany.
    induction prims as [|[j p] prims IH]; intros st st' E.
    - injection E as <-. cbn. rewrite app_nil_r. auto.
    - cbn [read_primitives] in E. unfold primitive_names.
      cbn [filter snd].
      assert (Hskip : match prim_mode p with
                      | Some mode => negb (mode =? 4)
                      | None => false
                      end = negb (reads_as_triangles p)).
      { unfold reads_as_triangles. now destruct (prim_mode p). }
      rewrite Hskip in E.
      destruct (reads_as_triangles p); cbn [negb] in E.
      + apply bind_Ok in E. destruct E as (kw & _ & E).
        rewrite Hmany in E. destruct st as [meshes mp].
        assert (Hk := read_primitives_keeps_keys _ _ _ _ _ _
                        (geometry_name m ++ "_" ++ str_of_int j)%string E
                        (dict_in_set_same _ _ _)).
        destruct (IH _ _ E) as [Hmp Hin]. cbn [fst snd map] in *.
        rewrite Hmp, mesh_prim_get_append_same, <- app_assoc.
        split; [reflexivity|]. constructor; assumption.
      + apply (IH _ _ E).
  Qed.

  (** X14. For a mesh with more than one primitive, every primitive
      that is read (mode 4 or none) is stored under the name of the mesh
      (or [GLTF_geometry]) followed by an underscore and the position of
      the primitive among all primitives of the mesh, skipped ones
      counted; these names are added, in order, to the names of the
      mesh index, and each of them is a key of the geometry map. *)
Theorem several_primitives_are_numbered (index : Z) (m : Mesh)
          (st st' : mesh_state) :
    1 < len (mesh_primitives m) ->
    read_mesh access materials mesh_kwargs index m st = Ok st' ->
    let names := primitive_names m (enumerate (mesh_primitives m)) in
    mesh_prim_get (snd st') index = mesh_prim_get (snd st) index ++ names
    /\ Forall (fun name => dict_in (fst st') name = true) names.
  Proof.
    intros Hmany E. unfold read_mesh in E.
    apply (read_primitives_names _ _ _ Hmany _ _ _ E).
  Qed.
End PrimitiveNames.

Lemma several_primitives_are_numbered_witness :
  mesh_prim_get (snd read_three) 7 = [] ++ ["part_1"%string; "part_2"%string]
  /\ Forall (fun name => dict_in (fst read_three) name = true)
            ["part_1"%string; "part_2"%string].
Proof.
  apply (@several_primitives_are_numbered example_float
           [example_index_array; example_vertex_array] [] []
           7 three_primitive_mesh ([], []) read_three);
    [vm_compute; reflexivity | vm_compute; reflexivity].
Defined.

(* ------------------------------------------------------------------ *)
(** ** What a round trip keeps and what it drops *)

Section RoundTripDetails.
  Context `{NumpyFloat} `{Json} `{Pillow} `{Util}.

  (** X12. After a round trip of a scene of colored meshes through
      [export_glb] and [load_glb], the arguments of each mesh are
      exactly its metadata, faces and vertices, in this order: the
      metadata hold the units of the mesh when it has units and nothing
      otherwise, and the vertex colors, which the file carries as
      [COLOR_0], are not read back (there is no [visual]).  The scene is
      of class [Scene] with the base frame [world].  The node list of
      the scene has no cycles, so that the importer's loop over the
      nodes ends, after [fuel0] visits. *)
Theorem roundtrip_keeps_units_drops_colors
          (scene : Scene) (exported : bytes) :
    Forall (fun g => colored_mesh (snd g)) (geometry scene) ->
    Forall (fun g => faces_in_range (snd g)) (geometry scene) ->
    NoDup (map fst (geometry scene)) ->
    export_glb scene false = Ok exported ->
    len exported < 2 ^ 32 ->
    json_roundtrip scene ->
    acyclic_nodes (exported_nodes scene) ->
    exists (fuel0 : nat) (r : SceneKwargs),
      (forall fuel, (fuel0 <= fuel)%nat ->
         load_glb fuel {| file_data := exported; file_pos := 0 |} [] = Ok r) /\
      class r = "Scene"%string /\ base_frame r = "world"%string /\
      forall name mesh,
        In (name, GTrimesh mesh) (geometry scene) ->
        exists kw,
          dict_get (sk_geometry r) name = Some kw /\
          dict_keys kw = ["metadata"; "faces"; "vertices"]%string /\
          dict_get kw "visual" = None /\
          dict_get kw "metadata"
          = Some (KMetadata match units mesh with
                            | Some u => [("units"%string, u)]
                            | None => []
                            end).
  Proof.
    intros Hcol Hrange Hnd E Hlt Hjson Hacyclic.
    destruct (walk_acyclic (exported_nodes scene) "world"
                (snd (imported (geometry scene) 0 ([], []))) Hacyclic)
      as (fuel0 & graph & Hwalk).
    exists fuel0. eexists. split.
    { intros fuel Hfuel.
      rewrite (load_glb_colored _ _ _ Hcol Hrange E Hlt Hjson).
      rewrite (Hwalk fuel Hfuel). reflexivity. }
    cbn [class base_frame sk_geometry].
    split; [reflexivity|]. split; [reflexivity|].
    intros name mesh Hin. exists (imported_kwargs mesh).
    split; [now apply imported_get|].
    repeat split; reflexivity.
  Qed.
End RoundTripDetails.

Lemma roundtrip_keeps_units_drops_colors_witness :
  exists (fuel0 : nat) (r : SceneKwargs),
    (forall fuel, (fuel0 <= fuel)%nat ->
       @load_glb example_float (fixed_json one_triangle_tree) example_pillow
                 example_util fuel
                 {| file_data := one_triangle_glb; file_pos := 0 |} [] = Ok r) /\
    class r = "Scene"%string /\ base_frame r = "world"%string /\
    forall name mesh,
      In (name, GTrimesh mesh) (geometry one_triangle_scene) ->
      exists kw,
        dict_get (sk_geometry r) name = Some kw /\
        dict_keys kw = ["metadata"; "faces"; "vertices"]%string /\
        dict_get kw "visual" = None /\
        dict_get kw "metadata"
        = Some (KMetadata match units mesh with
                          | Some u => [("units"%string, u)]
                          | None => []
                          end).
Proof.
  apply (@roundtrip_keeps_units_drops_colors example_float
           (fixed_json one_triangle_tree) example_pillow example_util
           one_triangle_scene one_triangle_glb).
  - repeat constructor. discriminate.
  - repeat constructor; cbn; lia.
  - repeat constructor. intros [].
  - vm_compute. reflexivity.
  - vm_compute. reflexivity.
  - intros tree items E. vm_compute in E. injection E as <- <-.
    vm_compute. reflexivity.
  - exact one_triangle_nodes_acyclic.
Defined.

(* ------------------------------------------------------------------ *)
(** ** The files of meshes without vertex colors *)

Section PlainFiles.
  Context `{NumpyFloat} `{Json}.

Lemma mesh_files_cons g geoms files :
    mesh_files (g :: geoms) files
    = mesh_files geoms (dict_set files (buffer_name (fst g))
                                 (List.concat (plain_items (snd g)))).
  Proof. reflexivity. Qed.

Lemma _append_mesh_plain mesh name tree items tree' items' :
    kind (color_visual (visual mesh)) = None ->
    _append_mesh mesh name tree items false = Ok (tree', items') ->
    items' = items ++ plain_items (GTrimesh mesh).
  Proof.
    unfold _append_mesh. intros Hk E. bind_inv E. rewrite Hk in Ea4.
    bind_inv Ea4. injection Ea4 as _ <-. injection E as _ <-.
    rewrite (pad_multiple_of_4 _ (3 * List.length (faces mesh))) in Ea0
      by (rewrite faces_tobytes_length; lia).
    rewrite (pad_multiple_of_4 _ (3 * List.length (vertices mesh))) in Ea3
      by (rewrite vertices_tobytes_length; lia).
    injection Ea0 as <-. injection Ea3 as <-.
    now rewrite <- app_assoc.
  Qed.

Lemma append_geometries_plain geoms : forall tree items tree' items',
    Forall (fun g => plain_mesh (snd g)) geoms ->
    append_geometries geoms tree items false = Ok (tree', items') ->
    items' = items ++ List.concat (map (fun g => plain_items (snd g)) geoms).
  Proof.
    induction geoms as [|[name g] geoms IH]; intros tree items tree' items' HF E.
    - injection E as _ <-. cbn. now rewrite app_nil_r.
    - inversion HF as [|? ? Hp HF']; subst. cbn [snd] in Hp.
      destruct g as [mesh| |]; cbn in Hp; try contradiction.
      cbn [append_geometries] in E.
      apply bind_Ok in E. destruct E as ([t1 i1] & E1 & E).
      apply _append_mesh_plain in E1; [|assumption]. subst i1.
      rewrite (IH _ _ _ _ HF' E). cbn [map List.concat snd].
      now rewrite <- app_assoc.
  Qed.

Lemma export_gltf_loop_plain geoms : forall (pre : list bytes) st fuel,
    Forall (fun g => plain_mesh (snd g)) geoms ->
    (List.length geoms <= fuel)%nat ->
    export_gltf_loop
      (pre ++ List.concat (map (fun g => plain_items (snd g)) geoms)) st
      (zip (range_fuel fuel (len pre) (len pre + 2 * len geoms) 2)
           (map fst geoms))
    = Ok {| gf_buffers := gf_buffers st ++ map plain_buffer geoms;
            gf_views := gf_views st ++ scene_views (len (gf_buffers st)) geoms;
            gf_files := mesh_files geoms (gf_files st) |}.
  Proof.
    induction geoms as [|[name g] geoms IH]; intros pre st fuel HF Hfuel.
    - cbn [map zip]. change (len []) with 0.
      assert (Hz : zip (range_fuel fuel (len pre) (len pre + 2 * 0) 2)
                       (@nil string) = []).
      { destruct (range_fuel _ _ _ _); reflexivity. }
      rewrite Hz. unfold scene_views. cbn. rewrite !app_nil_r.
      now destruct st.
    - inversion HF as [|? ? Hp HF']; subst. cbn [snd] in Hp.
      destruct g as [mesh| |]; cbn in Hp; try contradiction.
      cbn [List.length] in Hfuel. destruct fuel as [|fuel]; [lia|].
      rewrite len_cons. cbn [range_fuel].
      assert (Hlt : (len pre <? len pre + 2 * (1 + len geoms)) = true).
      { apply Z.ltb_lt. assert (H1 := len_nonneg geoms). lia. }
      rewrite Hlt. cbn [map fst zip export_gltf_loop List.concat snd plain_items].
      set (a := faces_tobytes (faces mesh)).
      set (b := vertices_tobytes (vertices mesh)).
      set (rest := List.concat (map (fun g => plain_items (snd g)) geoms)).
      unfold export_gltf_step.
      match goal with
      | |- context [getitem ?l (len pre + 0)] =>
          assert (G0 : getitem l (len pre + 0) = Ok a)
            by apply (getitem_app_nth pre (a :: b :: rest) 0 a eq_refl);
          assert (G1 : getitem l (len pre + 1) = Ok b)
            by apply (getitem_app_nth pre (a :: b :: rest) 1 b eq_refl);
          assert (Hs : slice l (len pre) (len pre + 2) = [a; b])
            by apply (slice_middle pre [a; b] rest);
          assert (Hl : l = (pre ++ [a; b]) ++ rest)
            by (now rewrite <- app_assoc)
      end.
      rewrite G0. cbn [bind]. rewrite G1. cbn [bind]. rewrite Hs, Hl.
      replace (len pre + 2 * (1 + len geoms))
        with (len (pre ++ [a; b]) + 2 * len geoms)
        by (rewrite len_app; change (len [a; b]) with 2; lia).
      replace (len pre + 2) with (len (pre ++ [a; b]))
        by (rewrite len_app; reflexivity).
      rewrite (IH (pre ++ [a; b]) _ fuel HF' ltac:(lia)).
      cbn [gf_files gf_buffers gf_views].
      rewrite mesh_files_cons. cbn [fst snd plain_items List.concat].
      unfold scene_views. cbn [enumerate_from map List.concat fst snd plain_views].
      rewrite (len_app (gf_buffers st)), len_single, <- !app_assoc.
      unfold plain_buffer at 2. cbn [fst snd plain_items List.concat List.app].
      fold a b. unfold buffer_name. rewrite Z.add_0_l.
      reflexivity.
  Qed.

Lemma mesh_files_get_other geoms : forall files k,
    ~ In k (map (fun g => buffer_name (fst g)) geoms) ->
    dict_get (mesh_files geoms files) k = dict_get files k.
  Proof.
    unfold mesh_files.
    induction geoms as [|g geoms IH]; intros files k Hin; [reflexivity|].
    cbn [fold_left map In] in *. rewrite IH by tauto.
    apply dict_get_set_other. tauto.
  Qed.

Lemma mesh_files_get geoms : forall files name g,
    NoDup (map fst geoms) ->
    In (name, g) geoms ->
    dict_get (mesh_files geoms files) (buffer_name name)
    = Some (List.concat (plain_items g)).
  Proof.
    induction geoms as [|[name0 g0] geoms IH]; intros files name g Hnd Hin.
    - contradiction.
    - cbn [map fst] in Hnd. inversion Hnd as [|? ? Hni Hnd']; subst.
      destruct Hin as [Heq|Hin].
      + injection Heq as -> ->. rewrite mesh_files_cons. cbn [fst snd].
        rewrite mesh_files_get_other; [apply dict_get_set_same|].
        intros Hin. apply in_map_iff in Hin.
        destruct Hin as ([n' g'] & Hn & Hin). cbn [fst] in Hn.
        apply Hni. apply in_map_iff. exists (n', g'). split; [|exact Hin].
        cbn [fst]. unfold buffer_name in Hn.
        apply string_append_inj_l in Hn. now apply string_append_inj_r in Hn.
      + rewrite mesh_files_cons. now apply IH.
  Qed.

  (** X11. For a scene of triangle meshes without vertex colors and
      with distinct names, [export_gltf] returns whenever
      [_create_gltf_structure] does, and the files are as designed:
      under [mesh_<name>.bin], for every geometry, its index bytes
      followed by its position bytes (each already a multiple of 4
      long), and under [model.gltf] the text of the tree with one buffer
      per geometry, which names that file and its length, and two
      bufferViews per buffer: the [k]-th geometry has the views [2 k]
      and [2 k + 1] into buffer [k], the first over the index bytes
      from offset 0 and the second over the position bytes behind
      them. *)
Theorem export_gltf_of_plain_meshes (scene : Scene)
          (tree : Document) (buffer_items : list bytes) :
    Forall (fun g => plain_mesh (snd g)) (geometry scene) ->
    NoDup (map fst (geometry scene)) ->
    _create_gltf_structure scene false = Ok (tree, buffer_items) ->
    let buffers := map plain_buffer (geometry scene) in
    let views := scene_views 0 (geometry scene) in
    exists files,
      export_gltf scene = Ok files /\
      dict_get files "model.gltf"
      = Some (encode_utf8 (json_dumps (set_buffers tree buffers views))) /\
      len buffers = len (geometry scene) /\
      len views = 2 * len (geometry scene) /\
      forall (k : nat) name mesh,
        nth_error (geometry scene) k = Some (name, GTrimesh mesh) ->
        dict_get files ("mesh_" ++ name ++ ".bin")
        = Some (faces_tobytes (faces mesh) ++ vertices_tobytes (vertices mesh))
        /\ len (faces_tobytes (faces mesh)) mod 4 = 0
        /\ len (vertices_tobytes (vertices mesh)) mod 4 = 0
        /\ nth_error buffers k
           = Some {| buf_uri := Some ("mesh_" ++ name ++ ".bin")%string;
                     buf_byteLength :=
                       len (faces_tobytes (faces mesh)
                              ++ vertices_tobytes (vertices mesh)) |}
        /\ nth_error views (2 * k)
           = Some {| view_buffer := Z.of_nat k;
                     view_byteOffset := 0;
                     view_byteLength := len (faces_tobytes (faces mesh)) |}
        /\ nth_error views (2 * k + 1)
           = Some {| view_buffer := Z.of_nat k;
                     view_byteOffset := len (faces_tobytes (faces mesh));
                     view_byteLength :=
                       len (vertices_tobytes (vertices mesh)) |}.
  Proof.
    intros HF Hnd Es buffers views.
    assert (Hitems : buffer_items
                     = List.concat (map (fun g => plain_items (snd g))
                                        (geometry scene))).
    { unfold _create_gltf_structure in Es. bind_inv Es.
      injection Es as _ <-.
      now apply append_geometries_plain in Ea. }
    assert (Hlen : len buffer_items = 2 * len (geometry scene)).
    { rewrite Hitems. clear -HF.
      induction HF as [|[name g] l Hp _ IH]; [reflexivity|].
      destruct g as [mesh| |]; cbn in Hp; try contradiction.
      cbn [map List.concat snd plain_items]. rewrite len_app, IH, len_cons.
      unfold len. cbn [List.length]. lia. }
    assert (Hviews : forall geoms start (k : nat) name mesh,
               Forall (fun g => plain_mesh (snd g)) geoms ->
               nth_error geoms k = Some (name, GTrimesh mesh) ->
               List.length (scene_views start geoms)
               = (2 * List.length geoms)%nat /\
               nth_error (scene_views start geoms) (2 * k)
               = Some {| view_buffer := start + Z.of_nat k;
                         view_byteOffset := 0;
                         view_byteLength := len (faces_tobytes (faces mesh)) |} /\
               nth_error (scene_views start geoms) (2 * k + 1)
               = Some {| view_buffer := start + Z.of_nat k;
                         view_byteOffset := len (faces_tobytes (faces mesh));
                         view_byteLength :=
                           len (vertices_tobytes (vertices mesh)) |}).
    { clear. unfold scene_views.
      induction geoms as [|[name0 g0] geoms IH]; intros start k name mesh HF Hk.
      - destruct k; discriminate.
      - inversion HF as [|? ? Hp HF']; subst. cbn [snd] in Hp.
        destruct g0 as [mesh0| |]; cbn in Hp; try contradiction.
        cbn [enumerate_from map List.concat fst snd plain_views List.app].
        destruct k as [|k].
        + cbn in Hk. injection Hk as <- <-.
          cbn [Nat.mul Nat.add nth_error List.length]. rewrite Z.add_0_r.
          split; [|split; reflexivity].
          f_equal. f_equal.
          clear -HF'. revert start.
          induction HF' as [|[n g] l Hp _ IH]; intros start; [reflexivity|].
          destruct g as [m| |]; cbn in Hp; try contradiction.
          cbn [enumerate_from map List.concat fst snd plain_views List.app
               List.length]. rewrite IH. lia.
        + cbn [nth_error] in Hk.
          destruct (IH (start + 1) k name mesh HF' Hk) as (Hl & H0 & H1).
          replace (2 * S k)%nat with (S (S (2 * k))) by lia.
          replace (S (S (2 * k)) + 1)%nat with (S (S (2 * k + 1))) by lia.
          cbn [nth_error List.length]. rewrite Hl.
          replace (start + Z.of_nat (S k)) with (start + 1 + Z.of_nat k) by lia.
          split; [lia|]. split; assumption. }
    assert (Hvlen : len views = 2 * len (geometry scene)).
    { unfold views. clear -HF. unfold scene_views, len.
      generalize 0 as start.
      induction HF as [|[n g] l Hp _ IH]; intros start; [reflexivity|].
      destruct g as [m| |]; cbn in Hp; try contradiction.
      cbn [enumerate_from map List.concat fst snd plain_views List.app
           List.length]. specialize (IH (start + 1)). lia. }
    unfold export_gltf. rewrite Es. cbn [bind].
    unfold range. rewrite Hlen, Z.sub_0_r.
    generalize (export_gltf_loop_plain (geometry scene) []
                  {| gf_buffers := []; gf_views := []; gf_files := [] |}
                  (Z.to_nat (2 * len (geometry scene))) HF
                  ltac:(unfold len; lia)).
    cbn [List.app gf_buffers gf_views gf_files]. change (len []) with 0.
    rewrite Z.add_0_l. unfold dict_keys.
    rewrite <- Hitems. intros ->. cbn [bind gf_files gf_buffers gf_views].
    fold buffers. fold views.
    eexists. split; [reflexivity|].
    split; [apply dict_get_set_same|].
    split; [unfold buffers; apply len_map|].
    split; [exact Hvlen|].
    intros k name mesh Hk.
    assert (Hin : In (name, GTrimesh mesh) (geometry scene))
      by (eapply nth_error_In; eauto).
    destruct (Hviews (geometry scene) 0 k name mesh HF Hk) as (_ & V0 & V1).
    rewrite Z.add_0_l in V0, V1.
    split; [|split; [|split; [|split; [|split]]]].
    - rewrite dict_get_set_other by discriminate.
      fold (buffer_name name).
      rewrite (mesh_files_get _ _ _ _ Hnd Hin).
      cbn [plain_items List.concat]. now rewrite app_nil_r.
    - unfold len. rewrite faces_tobytes_length, Nat2Z.inj_mul.
      change (Z.of_nat 12) with (3 * 4). rewrite <- Z.mul_assoc, (Z.mul_comm 4).
      rewrite Z.mul_assoc. apply Z.mod_mul. lia.
    - unfold len. rewrite vertices_tobytes_length, Nat2Z.inj_mul.
      change (Z.of_nat 12) with (3 * 4). rewrite <- Z.mul_assoc, (Z.mul_comm 4).
      rewrite Z.mul_assoc. apply Z.mod_mul. lia.
    - unfold buffers. rewrite nth_error_map, Hk.
      cbn [option_map]. unfold plain_buffer, buffer_name.
      cbn [fst snd plain_items List.concat]. now rewrite app_nil_r.
    - exact V0.
    - exact V1.
  Qed.
End PlainFiles.

Lemma export_gltf_of_plain_meshes_witness :
  exists files,
    @export_gltf example_float (fixed_json empty_document) plain_scene
      = Ok files /\
    dict_get files "model.gltf"
    = Some (encode_utf8
              (@json_dumps (fixed_json empty_document)
                 (set_buffers (fst plain_structure)
                    (map (@plain_buffer example_float) (geometry plain_scene))
                    (@scene_views example_float 0 (geometry plain_scene))))) /\
    len (map (@plain_buffer example_float) (geometry plain_scene))
    = len (geometry plain_scene) /\
    len (@scene_views example_float 0 (geometry plain_scene))
    = 2 * len (geometry plain_scene) /\
    forall (k : nat) name mesh,
      nth_error (geometry plain_scene) k = Some (name, GTrimesh mesh) ->
      dict_get files ("mesh_" ++ name ++ ".bin")
      = Some (faces_tobytes (faces mesh)
                ++ @vertices_tobytes example_float (vertices mesh))
      /\ len (faces_tobytes (faces mesh)) mod 4 = 0
      /\ len (@vertices_tobytes example_float (vertices mesh)) mod 4 = 0
      /\ nth_error (map (@plain_buffer example_float) (geometry plain_scene)) k
         = Some {| buf_uri := Some ("mesh_" ++ name ++ ".bin")%string;
                   buf_byteLength :=
                     len (faces_tobytes (faces mesh)
                            ++ @vertices_tobytes example_float (vertices mesh)) |}
      /\ nth_error (@scene_views example_float 0 (geometry plain_scene)) (2 * k)
         = Some {| view_buffer := Z.of_nat k;
                   view_byteOffset := 0;
                   view_byteLength := len (faces_tobytes (faces mesh)) |}
      /\ nth_error (@scene_views example_float 0 (geometry plain_scene))
                   (2 * k + 1)
         = Some {| view_buffer := Z.of_nat k;
                   view_byteOffset := len (faces_tobytes (faces mesh));
                   view_byteLength :=
                     len (@vertices_tobytes example_float (vertices mesh)) |}.
Proof.
  apply (@export_gltf_of_plain_meshes example_float (fixed_json empty_document)
           plain_scene (fst plain_structure) (snd plain_structure)).
  - repeat constructor.
  - repeat constructor; cbn; intuition congruence.
  - vm_compute. reflexivity.
Defined.

(* ------------------------------------------------------------------ *)
(** ** Counts beyond the integers of numpy *)

(** X17. An accessor whose elements take [2^63] bytes or more, and
    fewer than [2^64], is never resolved, whatever its bufferView
    holds: the number of bytes is a Python int that numpy takes for a
    uint64, its product with the int64 [per_count] is a float64, so is
    the end of the span, and the slice raises a [TypeError].  This is
    for a byteOffset that a float64 can hold. *)
Theorem accessor_bytes_beyond_int64 (views : list bytes) (a : Accessor)
        (data : bytes) (d : dtype) (s : shape) :
  getitem views (acc_bufferView a) = Ok data ->
  _types (acc_componentType a) = Ok d ->
  _shapes (acc_type a) = Ok s ->
  2 ^ 63 <= itemsize d * acc_count a < 2 ^ 64 ->
  Z.abs (fst (accessor_span a d)) < 2 ^ 1024 - 2 ^ 970 ->
  read_accessor views a = Raise TypeError.
Proof.
  intros E1 E2 E3 Hx Hs. unfold read_accessor.
  rewrite E1, E2, E3. cbn [bind].
  unfold int_with_int64, fits_int64.
  destruct (itemsize d * acc_count a <? 2 ^ 63) eqn:Elt;
    [apply Z.ltb_lt in Elt; lia|].
  rewrite andb_false_r.
  destruct (0 <? itemsize d * acc_count a) eqn:Epos;
    [|apply Z.ltb_ge in Epos; lia].
  destruct (itemsize d * acc_count a <? 2 ^ 64) eqn:Elt2;
    [|apply Z.ltb_ge in Elt2; lia].
  cbn [andb]. unfold int_plus_float64.
  unfold accessor_span in Hs. cbn [fst] in Hs.
  apply Z.ltb_lt in Hs. rewrite Hs. reflexivity.
Qed.

Lemma accessor_bytes_beyond_int64_witness :
  read_accessor example_span_views huge_accessor = Raise TypeError.
Proof.
  apply (accessor_bytes_beyond_int64 example_span_views huge_accessor
           example_span_bytes u4 (Shape1 (-1)));
    try reflexivity; vm_compute; split; congruence.
Defined.
